(** * Tabletop reservation engine: a shallow embedding and its verification

    The development follows the TypeScript sources module by module:
    - [types/index.ts]                  the record and enum declarations,
    - [utils/timezone.ts]               module [Timezone],
    - [data/store.ts]                   modules [JsMap] and [Store],
    - [utils/locking.ts]                module [Locking],
    - [services/reservationService.ts]  module [ReservationService],
    - [services/walkInService.ts]       module [WalkInService],
    - [services/availabilityService.ts] module [AvailabilityService].

    Representation choices, used throughout:
    - a JavaScript [number] that the program uses as a count, a capacity, a
      version or a duration in minutes is a [Z];
    - an [ISODateTime] string is represented by the instant it denotes, in
      milliseconds since the epoch (what [new Date(s).getTime()] gives);
      strings that do not parse are outside the model except where the code
      tests for them ([TimeInput] below);
    - the ambient singletons (the four stores, the lock map, the pending
      [setTimeout] callbacks) are gathered in the record [World], threaded
      explicitly through every operation;
    - every operation reads the clock once: the instant [now] is an argument,
      and so is every identifier that the source draws from [uuidv4()];
    - the host's local time zone has a constant UTC offset, so that
      [setMinutes(getMinutes() + m)] moves a [Date] by [m] minutes exactly. *)

From Stdlib Require Import ZArith List Bool Ascii String Lia Sorted.
From stdpp Require Import base decidable option list gmap strings pretty.
From Equations Require Import Equations.

Local Open Scope Z_scope.
Local Open Scope string_scope.
Local Open Scope list_scope.

(** ** types/index.ts *)

Abbreviation UUID := string (only parsing).
Abbreviation ISODateTime := Z (only parsing).

Inductive ReservationStatus :=
  PENDING | CONFIRMED | SEATED | COMPLETED | CANCELLED | NO_SHOW.

Inductive TableStatus :=
  T_AVAILABLE | T_OCCUPIED | T_RESERVED | T_CLEANING | T_OUT_OF_SERVICE.

Inductive WaiterStatus :=
  W_AVAILABLE | W_BUSY | W_ON_BREAK | W_OFF_DUTY.

Inductive ResourceType := R_table | R_reservation | R_timeslot.

#[global] Instance ReservationStatus_eq_dec : EqDecision ReservationStatus.
Proof. solve_decision. Defined.
#[global] Instance TableStatus_eq_dec : EqDecision TableStatus.
Proof. solve_decision. Defined.
#[global] Instance WaiterStatus_eq_dec : EqDecision WaiterStatus.
Proof. solve_decision. Defined.
#[global] Instance ResourceType_eq_dec : EqDecision ResourceType.
Proof. solve_decision. Defined.

(** The string value of each enum member, as the source declares it. *)
Definition statusName (s : ReservationStatus) : string :=
  match s with
  | PENDING => "PENDING" | CONFIRMED => "CONFIRMED" | SEATED => "SEATED"
  | COMPLETED => "COMPLETED" | CANCELLED => "CANCELLED" | NO_SHOW => "NO_SHOW"
  end.

Definition resourceTypeName (t : ResourceType) : string :=
  match t with
  | R_table => "table" | R_reservation => "reservation" | R_timeslot => "timeslot"
  end.

Module Customer.
Record t := mk {
  id : UUID;
  name : string;
  phone : option string;
  email : option string;
  notes : option string;
  createdAt : ISODateTime;
  updatedAt : ISODateTime }.
End Customer.

Module Table.
Record t := mk {
  id : UUID;
  number : Z;
  capacity : Z;
  status : TableStatus;
  section : option string;
  createdAt : ISODateTime;
  updatedAt : ISODateTime }.
End Table.

Module Waiter.
Record t := mk {
  id : UUID;
  name : string;
  status : WaiterStatus;
  assignedTables : list UUID;
  createdAt : ISODateTime;
  updatedAt : ISODateTime }.
End Waiter.

Module Reservation.
Record t := mk {
  id : UUID;
  customerId : UUID;
  customerName : string;
  partySize : Z;
  tableId : option UUID;
  waiterId : option UUID;
  startTime : ISODateTime;
  endTime : ISODateTime;
  status : ReservationStatus;
  isWalkIn : bool;
  timezone : string;
  notes : option string;
  createdAt : ISODateTime;
  updatedAt : ISODateTime;
  version : Z }.
End Reservation.

(** What the validation code can tell about a start-time string: it is
    missing (falsy), it does not parse, or it denotes an instant. *)
Inductive TimeInput :=
| TimeMissing
| TimeUnparsable
| TimeInstant (t : ISODateTime).

Module CreateReservationRequest.
Record t := mk {
  customerName : string;
  customerPhone : option string;
  customerEmail : option string;
  partySize : Z;
  startTime : TimeInput;
  timezone : option string;
  durationMinutes : option Z;
  notes : option string;
  preferredTableId : option UUID }.
End CreateReservationRequest.

Module WalkInRequest.
Record t := mk {
  customerName : string;
  partySize : Z;
  notes : option string }.
End WalkInRequest.

Module AvailabilityRequest.
Record t := mk {
  startTime : ISODateTime;
  partySize : Z;
  timezone : option string;
  durationMinutes : option Z }.
End AvailabilityRequest.

Module AvailabilitySlot.
Record t := mk {
  tableId : UUID;
  tableNumber : Z;
  tableCapacity : Z;
  startTime : ISODateTime;
  endTime : ISODateTime;
  isAvailable : bool }.
End AvailabilitySlot.

Record Error := mkError { code : string; message : string }.

Record Result (T : Type) := mkResult {
  success : bool;
  data : option T;
  error : option Error }.
Arguments mkResult {T}.
Arguments success {T}.
Arguments data {T}.
Arguments error {T}.

Definition succeed {T} (d : T) : Result T := mkResult true (Some d) None.
Definition succeedVoid {T} : Result T := mkResult true None None.
Definition failWith {T} (c m : string) : Result T :=
  mkResult false None (Some (mkError c m)).

Module ResourceLock.
Record t := mk {
  resourceType : ResourceType;
  resourceId : UUID;
  lockedBy : string;
  lockedAt : ISODateTime;
  expiresAt : ISODateTime }.
End ResourceLock.

(** JavaScript's [x || d] on an optional string and on an optional number:
    [undefined], the empty string and [0] are falsy. *)
Definition orString (x : option string) (d : string) : string :=
  match x with
  | Some s => if decide (s = "") then d else s
  | None => d
  end.

Definition orNumber (x : option Z) (d : Z) : Z :=
  match x with
  | Some n => if decide (n = 0) then d else n
  | None => d
  end.

(** [!s || s.trim().length === 0], with the ASCII white space characters. *)
Definition isWhiteSpace (c : ascii) : bool :=
  let n := nat_of_ascii c in
  (Nat.eqb n 32 || (Nat.leb 9 n && Nat.leb n 13))%bool.

Fixpoint allWhiteSpace (s : string) : bool :=
  match s with
  | EmptyString => true
  | String c r => (isWhiteSpace c && allWhiteSpace r)%bool
  end.

Definition isBlank (s : string) : bool := allWhiteSpace s.

(** [Array.prototype.sort(cmp)]: a stable sort; an element goes in front of
    the first one it does not compare greater than. *)
Section JsSort.
Context {A : Type} (cmp : A -> A -> Z).

Fixpoint sortInsert (x : A) (l : list A) : list A :=
  match l with
  | [] => [x]
  | y :: r => if decide (cmp x y <= 0) then x :: y :: r else y :: sortInsert x r
  end.

Definition jsSort (l : list A) : list A := foldr sortInsert [] l.
End JsSort.

(** ** utils/timezone.ts *)

Module Timezone.

Definition DEFAULT_TIMEZONE : string := "UTC".
Definition DEFAULT_DURATION_MINUTES : Z := 90.

Definition msPerMinute : Z := 60000.
Definition msPerDay : Z := 86400000.

(** The proleptic Gregorian calendar, as [Date] uses it: the civil date of
    a day number (days since 1970-01-01) and back. *)
Definition civilFromDays (days : Z) : Z * Z * Z :=
  let z := days + 719468 in
  let era := z / 146097 in
  let doe := z - era * 146097 in
  let yoe := (doe - doe / 1460 + doe / 36524 - doe / 146096) / 365 in
  let y := yoe + era * 400 in
  let doy := doe - (365 * yoe + yoe / 4 - yoe / 100) in
  let mp := (5 * doy + 2) / 153 in
  let d := doy - (153 * mp + 2) / 5 + 1 in
  let m := if decide (mp < 10) then mp + 3 else mp - 9 in
  (if decide (m <= 2) then y + 1 else y, m, d).

Definition daysFromCivil (y m d : Z) : Z :=
  let y' := if decide (m <= 2) then y - 1 else y in
  let era := y' / 400 in
  let yoe := y' - era * 400 in
  let doy := (153 * (if decide (2 < m) then m - 3 else m + 9) + 2) / 5 + d - 1 in
  let doe := yoe * 365 + yoe / 4 - yoe / 100 + doy in
  era * 146097 + doe - 719468.

(** [Date.UTC(year, month, date, h, min, s, ms)]: ECMAScript's MakeDay and
    MakeTime, with the two-digit-year rule; the month is zero-based.
    TimeClip is not modelled (the instants stay in [Date]'s range). *)
Definition DateUTC (year month date h mi s ms : Z) : Z :=
  let yr := if decide (0 <= year <= 99) then 1900 + year else year in
  let day := daysFromCivil (yr + month / 12) (month mod 12 + 1) 1 + date - 1 in
  day * msPerDay + (h * 3600000 + mi * 60000 + s * 1000 + ms).

(** [Date.prototype.toISOString]. *)
Definition digits (width : nat) (n : Z) : string :=
  let s := pretty (Z.to_N n) in
  String.concat "" (replicate (width - String.length s) "0") +:+ s.

Definition toISOString (t : ISODateTime) : string :=
  let '(y, m, d) := civilFromDays (t / msPerDay) in
  let r := t mod msPerDay in
  let year :=
    if decide (0 <= y <= 9999) then digits 4 y
    else (if decide (y < 0) then "-" else "+") +:+ digits 6 (Z.abs y) in
  year +:+ "-" +:+ digits 2 m +:+ "-" +:+ digits 2 d +:+ "T" +:+
  digits 2 (r / 3600000) +:+ ":" +:+ digits 2 (r / 60000 mod 60) +:+ ":" +:+
  digits 2 (r / 1000 mod 60) +:+ "." +:+ digits 3 (r mod 1000) +:+ "Z".

Section WithTimeZoneData.
(** The host's time zone database, which [Intl.DateTimeFormat] consults:
    an identifier is either unknown or names a zone, given by its offset
    from UTC (in milliseconds) at every instant. *)
Variable tzdata : string -> option (Z -> Z).

Definition isValidTimezone (timezone : string) : bool :=
  match tzdata timezone with Some _ => true | None => false end.

(** The en-CA formatter with year, month and day, split at the dashes
    and read as numbers: the calendar date observed in the zone. *)
Definition formatDateParts (offset : Z -> Z) (date : ISODateTime) : Z * Z * Z :=
  civilFromDays ((date + offset date) / msPerDay).

(** [None] stands for the thrown [Invalid timezone] error. *)
Definition getDayBoundsInTimezone (date : ISODateTime) (timezone : string)
  : option (ISODateTime * ISODateTime) :=
  match tzdata timezone with
  | None => None
  | Some offset =>
      let '(year, month, day) := formatDateParts offset date in
      let start := DateUTC year (month - 1) day 0 0 0 0 in
      let end_ := DateUTC year (month - 1) day 23 59 59 999 in
      Some (start, end_)
  end.
End WithTimeZoneData.

Definition addMinutes (datetime : ISODateTime) (minutes : Z) : ISODateTime :=
  datetime + minutes * msPerMinute.

Definition calculateEndTime (startTime : ISODateTime) (durationMinutes : Z)
  : ISODateTime :=
  addMinutes startTime durationMinutes.

Definition doTimeRangesOverlap (start1 end1 start2 end2 : ISODateTime) : bool :=
  bool_decide (start1 < end2) && bool_decide (start2 < end1).

Definition isFutureDateTime (now datetime : ISODateTime) : bool :=
  bool_decide (now < datetime).

Definition nowUTC (now : ISODateTime) : ISODateTime := now.

End Timezone.

(** ** data/store.ts *)

(** A JavaScript [Map] keyed by identifier: entries are kept in insertion
    order, and setting an existing key replaces its value in place. *)
Module JsMap.
Definition t (V : Type) := list (UUID * V).

Section Ops.
Context {V : Type}.

Fixpoint get (k : UUID) (m : t V) : option V :=
  match m with
  | [] => None
  | (k', v) :: r => if decide (k' = k) then Some v else get k r
  end.

Fixpoint set (k : UUID) (v : V) (m : t V) : t V :=
  match m with
  | [] => [(k, v)]
  | (k', v') :: r =>
      if decide (k' = k) then (k, v) :: r else (k', v') :: set k v r
  end.

Fixpoint delete (k : UUID) (m : t V) : bool * t V :=
  match m with
  | [] => (false, [])
  | (k', v') :: r =>
      if decide (k' = k) then (true, r)
      else let '(b, r') := delete k r in (b, (k', v') :: r')
  end.

Definition values (m : t V) : list V := map snd m.
Definition size (m : t V) : Z := Z.of_nat (length m).
End Ops.
End JsMap.

(** [Partial<T>] for each record type: an absent property is [None]. A
    property that is optional in [T] may also be present and [undefined]. *)
Module CustomerPatch.
Record t := mk {
  id : option UUID;
  name : option string;
  phone : option (option string);
  email : option (option string);
  notes : option (option string);
  createdAt : option ISODateTime;
  updatedAt : option ISODateTime }.
End CustomerPatch.

Module TablePatch.
Record t := mk {
  id : option UUID;
  number : option Z;
  capacity : option Z;
  status : option TableStatus;
  section : option (option string);
  createdAt : option ISODateTime;
  updatedAt : option ISODateTime }.
Definition ofStatus (s : TableStatus) : t :=
  mk None None None (Some s) None None None.
End TablePatch.

Module WaiterPatch.
Record t := mk {
  id : option UUID;
  name : option string;
  status : option WaiterStatus;
  assignedTables : option (list UUID);
  createdAt : option ISODateTime;
  updatedAt : option ISODateTime }.
End WaiterPatch.

Module ReservationPatch.
Record t := mk {
  id : option UUID;
  customerId : option UUID;
  customerName : option string;
  partySize : option Z;
  tableId : option (option UUID);
  waiterId : option (option UUID);
  startTime : option ISODateTime;
  endTime : option ISODateTime;
  status : option ReservationStatus;
  isWalkIn : option bool;
  timezone : option string;
  notes : option (option string);
  createdAt : option ISODateTime;
  updatedAt : option ISODateTime;
  version : option Z }.
Definition ofStatus (s : ReservationStatus) : t :=
  mk None None None None None None None None (Some s) None None None None None None.
(** [{ ...updates, version: v }] *)
Definition withVersion (u : t) (v : Z) : t :=
  mk (id u) (customerId u) (customerName u) (partySize u) (tableId u)
     (waiterId u) (startTime u) (endTime u) (status u) (isWalkIn u)
     (timezone u) (notes u) (createdAt u) (updatedAt u) (Some v).
End ReservationPatch.

Module Store.

(** What [BaseStore<T>] needs of its record type. The argument of
    [create] has type [Omit<T, 'id' | 'createdAt' | 'updatedAt'>]; it is
    given here as a [T] whose three omitted fields are placeholders, which
    [createItem] overwrites as the object literal in the source does. *)
Class Entity (T : Type) := {
  Partial : Type;
  (** [{ ...existing, ...updates }] *)
  spread : T -> Partial -> T;
  idOf : T -> UUID;
  createdAtOf : T -> ISODateTime;
  (** [{ ...item, id: i, createdAt: c, updatedAt: u }] *)
  withMeta : UUID -> ISODateTime -> ISODateTime -> T -> T;
  createItem : T -> UUID -> ISODateTime -> T }.

#[global] Instance Customer_entity : Entity Customer.t := {|
  Partial := CustomerPatch.t;
  spread e u :=
    Customer.mk
      (default (Customer.id e) (CustomerPatch.id u))
      (default (Customer.name e) (CustomerPatch.name u))
      (default (Customer.phone e) (CustomerPatch.phone u))
      (default (Customer.email e) (CustomerPatch.email u))
      (default (Customer.notes e) (CustomerPatch.notes u))
      (default (Customer.createdAt e) (CustomerPatch.createdAt u))
      (default (Customer.updatedAt e) (CustomerPatch.updatedAt u));
  idOf := Customer.id;
  createdAtOf := Customer.createdAt;
  withMeta i c u e :=
    Customer.mk i (Customer.name e) (Customer.phone e) (Customer.email e)
      (Customer.notes e) c u;
  createItem d uuid now :=
    Customer.mk uuid (Customer.name d) (Customer.phone d) (Customer.email d)
      (Customer.notes d) now now |}.

#[global] Instance Table_entity : Entity Table.t := {|
  Partial := TablePatch.t;
  spread e u :=
    Table.mk
      (default (Table.id e) (TablePatch.id u))
      (default (Table.number e) (TablePatch.number u))
      (default (Table.capacity e) (TablePatch.capacity u))
      (default (Table.status e) (TablePatch.status u))
      (default (Table.section e) (TablePatch.section u))
      (default (Table.createdAt e) (TablePatch.createdAt u))
      (default (Table.updatedAt e) (TablePatch.updatedAt u));
  idOf := Table.id;
  createdAtOf := Table.createdAt;
  withMeta i c u e :=
    Table.mk i (Table.number e) (Table.capacity e) (Table.status e)
      (Table.section e) c u;
  createItem d uuid now :=
    Table.mk uuid (Table.number d) (Table.capacity d) (Table.status d)
      (Table.section d) now now |}.

#[global] Instance Waiter_entity : Entity Waiter.t := {|
  Partial := WaiterPatch.t;
  spread e u :=
    Waiter.mk
      (default (Waiter.id e) (WaiterPatch.id u))
      (default (Waiter.name e) (WaiterPatch.name u))
      (default (Waiter.status e) (WaiterPatch.status u))
      (default (Waiter.assignedTables e) (WaiterPatch.assignedTables u))
      (default (Waiter.createdAt e) (WaiterPatch.createdAt u))
      (default (Waiter.updatedAt e) (WaiterPatch.updatedAt u));
  idOf := Waiter.id;
  createdAtOf := Waiter.createdAt;
  withMeta i c u e :=
    Waiter.mk i (Waiter.name e) (Waiter.status e) (Waiter.assignedTables e) c u;
  createItem d uuid now :=
    Waiter.mk uuid (Waiter.name d) (Waiter.status d) (Waiter.assignedTables d)
      now now |}.

(** [ReservationStore.createItem] also forces [version: 1]. *)
#[global] Instance Reservation_entity : Entity Reservation.t := {|
  Partial := ReservationPatch.t;
  spread e u :=
    Reservation.mk
      (default (Reservation.id e) (ReservationPatch.id u))
      (default (Reservation.customerId e) (ReservationPatch.customerId u))
      (default (Reservation.customerName e) (ReservationPatch.customerName u))
      (default (Reservation.partySize e) (ReservationPatch.partySize u))
      (default (Reservation.tableId e) (ReservationPatch.tableId u))
      (default (Reservation.waiterId e) (ReservationPatch.waiterId u))
      (default (Reservation.startTime e) (ReservationPatch.startTime u))
      (default (Reservation.endTime e) (ReservationPatch.endTime u))
      (default (Reservation.status e) (ReservationPatch.status u))
      (default (Reservation.isWalkIn e) (ReservationPatch.isWalkIn u))
      (default (Reservation.timezone e) (ReservationPatch.timezone u))
      (default (Reservation.notes e) (ReservationPatch.notes u))
      (default (Reservation.createdAt e) (ReservationPatch.createdAt u))
      (default (Reservation.updatedAt e) (ReservationPatch.updatedAt u))
      (default (Reservation.version e) (ReservationPatch.version u));
  idOf := Reservation.id;
  createdAtOf := Reservation.createdAt;
  withMeta i c u e :=
    Reservation.mk i (Reservation.customerId e) (Reservation.customerName e)
      (Reservation.partySize e) (Reservation.tableId e) (Reservation.waiterId e)
      (Reservation.startTime e) (Reservation.endTime e) (Reservation.status e)
      (Reservation.isWalkIn e) (Reservation.timezone e) (Reservation.notes e)
      c u (Reservation.version e);
  createItem d uuid now :=
    Reservation.mk uuid (Reservation.customerId d) (Reservation.customerName d)
      (Reservation.partySize d) (Reservation.tableId d) (Reservation.waiterId d)
      (Reservation.startTime d) (Reservation.endTime d) (Reservation.status d)
      (Reservation.isWalkIn d) (Reservation.timezone d) (Reservation.notes d)
      now now 1 |}.

(** *** BaseStore *)
Section BaseStore.
Context {T : Type} `{Entity T}.

Definition getById (id : UUID) (items : JsMap.t T) : option T :=
  JsMap.get id items.

Definition getAll (items : JsMap.t T) : list T := JsMap.values items.

Definition create (data : T) (uuid : UUID) (now : ISODateTime)
    (items : JsMap.t T) : T * JsMap.t T :=
  let item := createItem data uuid (Timezone.nowUTC now) in
  (item, JsMap.set (idOf item) item items).

Definition update (id : UUID) (updates : Partial) (now : ISODateTime)
    (items : JsMap.t T) : option T * JsMap.t T :=
  match JsMap.get id items with
  | None => (None, items)
  | Some existing =>
      let updated :=
        withMeta (idOf existing) (createdAtOf existing) (Timezone.nowUTC now)
          (spread existing updates) in
      (Some updated, JsMap.set id updated items)
  end.

Definition delete (id : UUID) (items : JsMap.t T) : bool * JsMap.t T :=
  JsMap.delete id items.

Definition count (items : JsMap.t T) : Z := JsMap.size items.
End BaseStore.

(** *** CustomerStore *)
Definition findByPhone (phone : string) (items : JsMap.t Customer.t)
  : option Customer.t :=
  List.find (fun c => bool_decide (Customer.phone c = Some phone)) (getAll items).

Definition findByEmail (email : string) (items : JsMap.t Customer.t)
  : option Customer.t :=
  List.find (fun c => bool_decide (Customer.email c = Some email)) (getAll items).

(** *** TableStore *)
Definition findByStatus (status : TableStatus) (items : JsMap.t Table.t)
  : list Table.t :=
  List.filter (fun t => bool_decide (Table.status t = status)) (getAll items).

Definition findAvailable (items : JsMap.t Table.t) : list Table.t :=
  findByStatus T_AVAILABLE items.

Definition findByCapacity (minCapacity : Z) (items : JsMap.t Table.t)
  : list Table.t :=
  List.filter (fun t => bool_decide (minCapacity <= Table.capacity t)) (getAll items).

Definition findAvailableForPartySize (partySize : Z) (items : JsMap.t Table.t)
  : list Table.t :=
  List.filter
    (fun t => bool_decide (Table.status t = T_AVAILABLE)
              && bool_decide (partySize <= Table.capacity t))
    (getAll items).

(** *** WaiterStore *)
Definition findWaitersByStatus (status : WaiterStatus) (items : JsMap.t Waiter.t)
  : list Waiter.t :=
  List.filter (fun w => bool_decide (Waiter.status w = status)) (getAll items).

(** [ws.reduce((min, w) => w.assignedTables.length < min.assignedTables.length
    ? w : min)] on a non-empty array. *)
Definition leastTables (first : Waiter.t) (rest : list Waiter.t) : Waiter.t :=
  foldl
    (fun min w =>
       if decide (length (Waiter.assignedTables w) < length (Waiter.assignedTables min))%nat
       then w else min)
    first rest.

Definition findWithLeastTables (items : JsMap.t Waiter.t) : option Waiter.t :=
  match findWaitersByStatus W_AVAILABLE items with
  | [] =>
      match findWaitersByStatus W_BUSY items with
      | [] => None
      | b :: busy => Some (leastTables b busy)
      end
  | a :: available => Some (leastTables a available)
  end.

Definition assignTable (waiterId tableId : UUID) (now : ISODateTime)
    (items : JsMap.t Waiter.t) : bool * JsMap.t Waiter.t :=
  match getById waiterId items with
  | None => (false, items)
  | Some waiter =>
      if bool_decide (tableId ∈ Waiter.assignedTables waiter) then (true, items)
      else
        (true,
         (update (T := Waiter.t) waiterId
            (WaiterPatch.mk None None (Some W_BUSY)
               (Some (Waiter.assignedTables waiter ++ [tableId])) None None)
            now items).2)
  end.

Definition unassignTable (waiterId tableId : UUID) (now : ISODateTime)
    (items : JsMap.t Waiter.t) : bool * JsMap.t Waiter.t :=
  match getById waiterId items with
  | None => (false, items)
  | Some waiter =>
      let newTables :=
        List.filter (fun t => negb (bool_decide (t = tableId)))
          (Waiter.assignedTables waiter) in
      (true,
       (update (T := Waiter.t) waiterId
          (WaiterPatch.mk None None
             (Some (match newTables with [] => W_AVAILABLE | _ => W_BUSY end))
             (Some newTables) None None)
          now items).2)
  end.

(** *** ReservationStore *)

(** [null] is [None]. *)
Definition updateWithVersion (id : UUID) (updates : ReservationPatch.t)
    (expectedVersion : Z) (now : ISODateTime) (items : JsMap.t Reservation.t)
  : option Reservation.t * JsMap.t Reservation.t :=
  match getById id items with
  | None => (None, items)
  | Some existing =>
      if decide (Reservation.version existing <> expectedVersion) then (None, items)
      else
        update (T := Reservation.t) id
          (ReservationPatch.withVersion updates (Reservation.version existing + 1))
          now items
  end.

Definition findReservationsByStatus (status : ReservationStatus)
    (items : JsMap.t Reservation.t) : list Reservation.t :=
  List.filter (fun r => bool_decide (Reservation.status r = status)) (getAll items).

Definition findByTimeRange (startTime endTime : ISODateTime)
    (items : JsMap.t Reservation.t) : list Reservation.t :=
  List.filter
    (fun r => bool_decide (Reservation.startTime r < endTime)
              && bool_decide (startTime < Reservation.endTime r))
    (getAll items).

Definition findWalkIns (items : JsMap.t Reservation.t) : list Reservation.t :=
  List.filter Reservation.isWalkIn (getAll items).

Definition findByCustomerId (customerId : UUID) (items : JsMap.t Reservation.t)
  : list Reservation.t :=
  List.filter (fun r => bool_decide (Reservation.customerId r = customerId))
    (getAll items).

Definition findByTableId (tableId : UUID) (items : JsMap.t Reservation.t)
  : list Reservation.t :=
  List.filter (fun r => bool_decide (Reservation.tableId r = Some tableId))
    (getAll items).

Definition findActiveByTable (tableId : UUID) (items : JsMap.t Reservation.t)
  : option Reservation.t :=
  let activeStatuses := [PENDING; CONFIRMED; SEATED] in
  List.find
    (fun r => bool_decide (Reservation.tableId r = Some tableId)
              && bool_decide (Reservation.status r ∈ activeStatuses))
    (getAll items).

(** [hours] has the default value 24 at the call sites that omit it. *)
Definition findUpcoming (hours : Z) (now : ISODateTime)
    (items : JsMap.t Reservation.t) : list Reservation.t :=
  let future := now + hours * 60 * 60 * 1000 in
  List.filter
    (fun r => bool_decide (now <= Reservation.startTime r)
              && bool_decide (Reservation.startTime r <= future)
              && bool_decide (Reservation.status r <> CANCELLED)
              && bool_decide (Reservation.status r <> COMPLETED))
    (getAll items).

Section WithHostZone.
(** The constant offset from UTC (in milliseconds) of the host's local time
    zone, which [Date.prototype.setHours] works in. *)
Variable hostOffset : Z.

(** [d.setHours(h, mi, s, ms)]: the instant at which the host's wall clock
    shows that time on the local calendar day of [d]. *)
Definition setHours (d : ISODateTime) (h mi s ms : Z) : ISODateTime :=
  (d + hostOffset) / Timezone.msPerDay * Timezone.msPerDay
  + (h * 3600000 + mi * 60000 + s * 1000 + ms) - hostOffset.

Definition findByDate (date : ISODateTime) (items : JsMap.t Reservation.t)
  : list Reservation.t :=
  let dayStart := setHours date 0 0 0 0 in
  let dayEnd := setHours date 23 59 59 999 in
  findByTimeRange dayStart dayEnd items.
End WithHostZone.

End Store.

(** ** The ambient state *)

(** The module-level singletons: the four stores, the lock map of
    [utils/locking.ts], and the callbacks handed to [setTimeout] that have
    not run yet (each flips one table back to AVAILABLE). *)
Record World := mkWorld {
  customers : JsMap.t Customer.t;
  tables : JsMap.t Table.t;
  waiters : JsMap.t Waiter.t;
  reservations : JsMap.t Reservation.t;
  locks : gmap string ResourceLock.t;
  timers : list UUID }.

Definition setCustomers (c : JsMap.t Customer.t) (w : World) : World :=
  mkWorld c (tables w) (waiters w) (reservations w) (locks w) (timers w).
Definition setTables (t : JsMap.t Table.t) (w : World) : World :=
  mkWorld (customers w) t (waiters w) (reservations w) (locks w) (timers w).
Definition setWaiters (x : JsMap.t Waiter.t) (w : World) : World :=
  mkWorld (customers w) (tables w) x (reservations w) (locks w) (timers w).
Definition setReservations (r : JsMap.t Reservation.t) (w : World) : World :=
  mkWorld (customers w) (tables w) (waiters w) r (locks w) (timers w).
Definition setLocks (l : gmap string ResourceLock.t) (w : World) : World :=
  mkWorld (customers w) (tables w) (waiters w) (reservations w) l (timers w).
Definition setTimers (t : list UUID) (w : World) : World :=
  mkWorld (customers w) (tables w) (waiters w) (reservations w) (locks w) t.

(** ** utils/locking.ts *)

Module LockResult.
Record t := mk {
  success : bool;
  lock : option ResourceLock.t;
  error : option string }.
End LockResult.

Module WithLockResult.
Record t (T : Type) := mk {
  success : bool;
  result : option T;
  error : option string }.
Arguments mk {T}.
Arguments success {T}.
Arguments result {T}.
Arguments error {T}.
End WithLockResult.

Module Locking.

Definition DEFAULT_LOCK_TIMEOUT_MINUTES : Z := 2.

Definition getLockKey (resourceType : ResourceType) (resourceId : UUID) : string :=
  resourceTypeName resourceType +:+ ":" +:+ resourceId.

(** [now] is the instant that [new Date()] and [nowUTC()] both read. *)
Definition acquireLock (resourceType : ResourceType) (resourceId : UUID)
    (lockOwner : string) (timeoutMinutes : Z)
    (now : ISODateTime) (locks : gmap string ResourceLock.t)
  : LockResult.t * gmap string ResourceLock.t :=
  let key := getLockKey resourceType resourceId in
  let create :=
    let lock :=
      ResourceLock.mk resourceType resourceId lockOwner (Timezone.nowUTC now)
        (Timezone.addMinutes now timeoutMinutes) in
    (LockResult.mk true (Some lock) None, <[key := lock]> locks) in
  match locks !! key with
  | Some existingLock =>
      if bool_decide (now < ResourceLock.expiresAt existingLock)
         && bool_decide (ResourceLock.lockedBy existingLock <> lockOwner)
      then
        (LockResult.mk false None
           (Some ("Resource is locked by another process until " +:+
                  Timezone.toISOString (ResourceLock.expiresAt existingLock))),
         locks)
      else create
  | None => create
  end.

Definition releaseLock (resourceType : ResourceType) (resourceId : UUID)
    (lockOwner : string) (locks : gmap string ResourceLock.t)
  : bool * gmap string ResourceLock.t :=
  let key := getLockKey resourceType resourceId in
  match locks !! key with
  | None => (true, locks)
  | Some existingLock =>
      if bool_decide (ResourceLock.lockedBy existingLock <> lockOwner)
      then (false, locks)
      else (true, delete key locks)
  end.

Definition isLocked (resourceType : ResourceType) (resourceId : UUID)
    (now : ISODateTime) (locks : gmap string ResourceLock.t)
  : bool * gmap string ResourceLock.t :=
  let key := getLockKey resourceType resourceId in
  match locks !! key with
  | None => (false, locks)
  | Some existingLock =>
      if bool_decide (ResourceLock.expiresAt existingLock <= now)
      then (false, delete key locks)
      else (true, locks)
  end.

(** The rollback loop of [acquireMultipleLocks]. *)
Definition rollback (acquiredLocks : list ResourceLock.t) (lockOwner : string)
    (locks : gmap string ResourceLock.t) : gmap string ResourceLock.t :=
  foldl
    (fun l lock =>
       (releaseLock (ResourceLock.resourceType lock) (ResourceLock.resourceId lock)
          lockOwner l).2)
    locks acquiredLocks.

(** The acquisition loop of [acquireMultipleLocks], from the resources
    still to lock and the locks pushed so far. A successful [acquireLock]
    always carries its lock, which is what is pushed. *)
Fixpoint acquireEach (sortedResources : list (ResourceType * UUID))
    (acquiredLocks : list ResourceLock.t) (lockOwner : string)
    (timeoutMinutes : Z) (now : ISODateTime) (locks : gmap string ResourceLock.t)
  : LockResult.t * gmap string ResourceLock.t :=
  match sortedResources with
  | [] => (LockResult.mk true None None, locks)
  | resource :: rest =>
      let '(result, locks1) :=
        acquireLock resource.1 resource.2 lockOwner timeoutMinutes now locks in
      if negb (LockResult.success result) then
        (LockResult.mk false None
           (Some ("Failed to acquire lock on " +:+ resourceTypeName resource.1
                  +:+ ":" +:+ resource.2 +:+ ": "
                  +:+ default "undefined" (LockResult.error result))),
         rollback acquiredLocks lockOwner locks1)
      else
        acquireEach rest
          (acquiredLocks ++ option_list (LockResult.lock result))
          lockOwner timeoutMinutes now locks1
  end.

Section WithCollation.
(** [String.prototype.localeCompare] of the host: negative, zero or
    positive. *)
Variable localeCompare : string -> string -> Z.

Definition sortResources (resources : list (ResourceType * UUID))
  : list (ResourceType * UUID) :=
  jsSort
    (fun a b =>
       localeCompare (resourceTypeName a.1 +:+ ":" +:+ a.2)
                     (resourceTypeName b.1 +:+ ":" +:+ b.2))
    resources.

Definition acquireMultipleLocks (resources : list (ResourceType * UUID))
    (lockOwner : string) (timeoutMinutes : Z)
    (now : ISODateTime) (locks : gmap string ResourceLock.t)
  : LockResult.t * gmap string ResourceLock.t :=
  acquireEach (sortResources resources) [] lockOwner timeoutMinutes now locks.
End WithCollation.

Definition releaseMultipleLocks (resources : list (ResourceType * UUID))
    (lockOwner : string) (locks : gmap string ResourceLock.t)
  : gmap string ResourceLock.t :=
  foldl (fun l resource => (releaseLock resource.1 resource.2 lockOwner l).2)
    locks resources.

(** [withLock]: the body [fn] runs on the world and either returns a value
    ([inr]) or throws an [Error] with a message ([inl]); the [finally]
    clause releases the lock on both paths. [lockOwner] is the token that
    the source draws from [uuidv4()]. *)
Definition withLock {T : Type} (resourceType : ResourceType) (resourceId : UUID)
    (fn : World -> (string + T) * World) (timeoutMinutes : Z)
    (lockOwner : string) (now : ISODateTime) (w : World)
  : WithLockResult.t T * World :=
  let '(lockResult, locks1) :=
    acquireLock resourceType resourceId lockOwner timeoutMinutes now (locks w) in
  if negb (LockResult.success lockResult) then
    (WithLockResult.mk false None (LockResult.error lockResult), setLocks locks1 w)
  else
    let '(outcome, w1) := fn (setLocks locks1 w) in
    let w2 :=
      setLocks (releaseLock resourceType resourceId lockOwner (locks w1)).2 w1 in
    match outcome with
    | inr result => (WithLockResult.mk true (Some result) None, w2)
    | inl msg => (WithLockResult.mk false None (Some msg), w2)
    end.

Definition cleanupExpiredLocks (now : ISODateTime)
    (locks : gmap string ResourceLock.t) : Z * gmap string ResourceLock.t :=
  let live := filter (fun kl => now < ResourceLock.expiresAt kl.2) locks in
  (Z.of_nat (size locks) - Z.of_nat (size live), live).

Definition getLockCount (locks : gmap string ResourceLock.t) : Z :=
  Z.of_nat (size locks).

Definition clearAllLocks (locks : gmap string ResourceLock.t)
  : gmap string ResourceLock.t := ∅.

End Locking.

(** ** services/reservationService.ts *)

Module ReservationService.
Import Timezone.

(** The string values of [ReservationErrorCode]. *)
Definition INVALID_PARTY_SIZE := "INVALID_PARTY_SIZE".
Definition INVALID_TIME := "INVALID_TIME".
Definition PAST_TIME := "PAST_TIME".
Definition NO_AVAILABILITY := "NO_AVAILABILITY".
Definition TABLE_NOT_FOUND := "TABLE_NOT_FOUND".
Definition TABLE_UNAVAILABLE := "TABLE_UNAVAILABLE".
Definition RESERVATION_NOT_FOUND := "RESERVATION_NOT_FOUND".
Definition CONCURRENT_MODIFICATION := "CONCURRENT_MODIFICATION".
Definition INVALID_TIMEZONE := "INVALID_TIMEZONE".
Definition INVALID_STATUS_TRANSITION := "INVALID_STATUS_TRANSITION".

Definition getErrorMessage (code : string) : string :=
  if decide (code = INVALID_PARTY_SIZE) then "Invalid party size"
  else if decide (code = INVALID_TIME) then "Invalid reservation time"
  else if decide (code = PAST_TIME) then "Reservation time must be in the future"
  else if decide (code = NO_AVAILABILITY)
    then "No tables available for the requested time and party size"
  else if decide (code = TABLE_NOT_FOUND) then "Requested table not found"
  else if decide (code = TABLE_UNAVAILABLE) then "Requested table is not available"
  else if decide (code = RESERVATION_NOT_FOUND) then "Reservation not found"
  else if decide (code = CONCURRENT_MODIFICATION)
    then "Concurrent modification detected"
  else if decide (code = INVALID_TIMEZONE) then "Invalid timezone"
  else if decide (code = INVALID_STATUS_TRANSITION) then "Invalid status transition"
  else "An unknown error occurred".

Definition isValidStatusTransition (from to : ReservationStatus) : bool :=
  let validTransitions (s : ReservationStatus) : list ReservationStatus :=
    match s with
    | PENDING => [CONFIRMED; CANCELLED]
    | CONFIRMED => [SEATED; CANCELLED; NO_SHOW]
    | SEATED => [COMPLETED]
    | COMPLETED => []
    | CANCELLED => []
    | NO_SHOW => []
    end in
  bool_decide (to ∈ validTransitions from).

Definition findAvailableTables (startTime endTime : ISODateTime) (partySize : Z)
    (excludeReservationId : option UUID) (w : World) : list Table.t :=
  let suitableTables := Store.findByCapacity partySize (tables w) in
  let activeTables :=
    List.filter (fun t => bool_decide (Table.status t <> T_OUT_OF_SERVICE))
      suitableTables in
  let overlappingReservations :=
    List.filter
      (fun r =>
         bool_decide (Reservation.status r <> CANCELLED)
         && bool_decide (Reservation.status r <> COMPLETED)
         && bool_decide (Reservation.status r <> NO_SHOW)
         && bool_decide (Some (Reservation.id r) <> excludeReservationId))
      (Store.findByTimeRange startTime endTime (reservations w)) in
  let availableTables :=
    List.filter
      (fun table =>
         let tableReservations :=
           List.filter
             (fun r => bool_decide (Reservation.tableId r = Some (Table.id table)))
             overlappingReservations in
         bool_decide (length tableReservations = 0%nat))
      activeTables in
  jsSort (fun a b => Table.capacity a - Table.capacity b) availableTables.

Section WithTimeZoneData.
Variable tzdata : string -> option (Z -> Z).

Definition validateCreateRequest (request : CreateReservationRequest.t)
    (now : ISODateTime) : Result unit :=
  if bool_decide (CreateReservationRequest.partySize request < 1) then
    failWith INVALID_PARTY_SIZE "Party size must be at least 1"
  else if bool_decide (20 < CreateReservationRequest.partySize request) then
    failWith INVALID_PARTY_SIZE "Party size cannot exceed 20"
  else if isBlank (CreateReservationRequest.customerName request) then
    failWith "INVALID_CUSTOMER_NAME" "Customer name is required"
  else
    match CreateReservationRequest.startTime request with
    | TimeMissing => failWith INVALID_TIME "Start time is required"
    | TimeUnparsable =>
        failWith INVALID_TIME "Invalid start time format. Use ISO 8601 format."
    | TimeInstant startTime =>
        let tz := orString (CreateReservationRequest.timezone request) "" in
        if negb (bool_decide (tz = "")) && negb (isValidTimezone tzdata tz) then
          failWith INVALID_TIMEZONE ("Invalid timezone: " +:+ tz)
        else if negb (isFutureDateTime now startTime) then
          failWith PAST_TIME "Reservation time must be in the future"
        else succeedVoid
    end.

Definition checkAvailability (request : AvailabilityRequest.t) (w : World)
  : Result (list AvailabilitySlot.t) :=
  let timezone := orString (AvailabilityRequest.timezone request) DEFAULT_TIMEZONE in
  if negb (isValidTimezone tzdata timezone) then
    failWith INVALID_TIMEZONE ("Invalid timezone: " +:+ timezone)
  else
    let duration :=
      orNumber (AvailabilityRequest.durationMinutes request)
        DEFAULT_DURATION_MINUTES in
    let endTime := calculateEndTime (AvailabilityRequest.startTime request) duration in
    let availableTables :=
      findAvailableTables (AvailabilityRequest.startTime request) endTime
        (AvailabilityRequest.partySize request) None w in
    let slots :=
      map
        (fun table =>
           AvailabilitySlot.mk (Table.id table) (Table.number table)
             (Table.capacity table) (AvailabilityRequest.startTime request)
             endTime true)
        availableTables in
    succeed slots.

(** The first part of the critical section of [createReservation]: the
    table is the preferred one when it exists and is available, else the
    first available one; [inl] is the message of the thrown error. *)
Definition selectTable (request : CreateReservationRequest.t)
    (startTime endTime : ISODateTime) (w : World) : string + Table.t :=
  let partySize := CreateReservationRequest.partySize request in
  let preferredTableId :=
    orString (CreateReservationRequest.preferredTableId request) "" in
  let preferredLookup : string + option Table.t :=
    if bool_decide (preferredTableId <> "") then
      match Store.getById preferredTableId (tables w) with
      | None => inl TABLE_NOT_FOUND
      | Some preferred =>
          let availableTables :=
            findAvailableTables startTime endTime partySize None w in
          match List.find (fun t => bool_decide (Table.id t = preferredTableId))
                  availableTables with
          | Some _ => inr (Some preferred)
          | None => inr None
          end
      end
    else inr None in
  match preferredLookup with
  | inl thrown => inl thrown
  | inr (Some selectedTable) => inr selectedTable
  | inr None =>
      match findAvailableTables startTime endTime partySize None w with
      | [] => inl NO_AVAILABILITY
      | first :: _ => inr first
      end
  end.

(** The critical section of [createReservation]. [customerUuid] and
    [reservationUuid] are the identifiers the two stores draw. *)
Definition createReservationBody (request : CreateReservationRequest.t)
    (startTime endTime : ISODateTime) (timezone : string)
    (customerUuid reservationUuid : UUID) (now : ISODateTime) (w : World)
  : (string + Reservation.t) * World :=
  let partySize := CreateReservationRequest.partySize request in
  match selectTable request startTime endTime w with
  | inl thrown => (inl thrown, w)
  | inr selectedTable =>
      let found :=
        match Store.findByPhone
                (orString (CreateReservationRequest.customerPhone request) "")
                (customers w) with
        | Some c => Some c
        | None =>
            Store.findByEmail
              (orString (CreateReservationRequest.customerEmail request) "")
              (customers w)
        end in
      let '(customer, w1) :=
        match found with
        | Some c => (c, w)
        | None =>
            let '(c, cs) :=
              Store.create
                (Customer.mk "" (CreateReservationRequest.customerName request)
                   (CreateReservationRequest.customerPhone request)
                   (CreateReservationRequest.customerEmail request) None 0 0)
                customerUuid now (customers w) in
            (c, setCustomers cs w)
        end in
      let waiter := Store.findWithLeastTables (waiters w1) in
      let w2 :=
        match waiter with
        | Some wt =>
            setWaiters
              (Store.assignTable (Waiter.id wt) (Table.id selectedTable) now
                 (waiters w1)).2 w1
        | None => w1
        end in
      let '(reservation, rs) :=
        Store.create
          (Reservation.mk "" (Customer.id customer)
             (CreateReservationRequest.customerName request) partySize
             (Some (Table.id selectedTable)) (Waiter.id <$> waiter)
             startTime endTime CONFIRMED false timezone
             (CreateReservationRequest.notes request) 0 0 1)
          reservationUuid now (reservations w2) in
      let w3 := setReservations rs w2 in
      let w4 :=
        setTables
          (Store.update (T := Table.t) (Table.id selectedTable)
             (TablePatch.ofStatus T_RESERVED) now (tables w3)).2 w3 in
      (inr reservation, w4)
  end.

(** [lockOwner] is the token [withLock] draws from [uuidv4()]. The lock id
    is built from the text of [request.startTime]; the request's text is
    taken to be the ISO rendering of its instant. When validation succeeds
    the start time is an instant, so the last branch only returns failed
    validations. *)
Definition createReservation (request : CreateReservationRequest.t)
    (lockOwner customerUuid reservationUuid : UUID) (now : ISODateTime)
    (w : World) : Result Reservation.t * World :=
  let validation := validateCreateRequest request now in
  match success validation, CreateReservationRequest.startTime request with
  | true, TimeInstant startTime =>
      let timezone :=
        orString (CreateReservationRequest.timezone request) DEFAULT_TIMEZONE in
      let duration :=
        orNumber (CreateReservationRequest.durationMinutes request)
          DEFAULT_DURATION_MINUTES in
      let endTime := calculateEndTime startTime duration in
      let lockId := "timeslot:" +:+ toISOString startTime in
      let '(result, w') :=
        Locking.withLock R_timeslot lockId
          (createReservationBody request startTime endTime timezone
             customerUuid reservationUuid now)
          Locking.DEFAULT_LOCK_TIMEOUT_MINUTES lockOwner now w in
      if WithLockResult.success result then
        (mkResult true (WithLockResult.result result) None, w')
      else
        let errorCode := orString (WithLockResult.error result) "UNKNOWN_ERROR" in
        (failWith errorCode (getErrorMessage errorCode), w')
  | _, _ => (mkResult (success validation) None (error validation), w)
  end.
End WithTimeZoneData.

Definition getReservation (id : UUID) (w : World) : Result Reservation.t :=
  match Store.getById id (reservations w) with
  | None => failWith RESERVATION_NOT_FOUND ("Reservation not found: " +:+ id)
  | Some reservation => succeed reservation
  end.

(** The callback given to [setTimeout] is recorded in [timers]; it runs
    later, as [fireTimer]. *)
Definition updateReservationStatus (id : UUID) (newStatus : ReservationStatus)
    (expectedVersion : Z) (now : ISODateTime) (w : World)
  : Result Reservation.t * World :=
  match Store.getById id (reservations w) with
  | None => (failWith RESERVATION_NOT_FOUND ("Reservation not found: " +:+ id), w)
  | Some existing =>
      if negb (isValidStatusTransition (Reservation.status existing) newStatus) then
        (failWith INVALID_STATUS_TRANSITION
           ("Cannot transition from " +:+ statusName (Reservation.status existing)
            +:+ " to " +:+ statusName newStatus), w)
      else
        match Store.updateWithVersion id (ReservationPatch.ofStatus newStatus)
                expectedVersion now (reservations w) with
        | (None, rs) =>
            (failWith CONCURRENT_MODIFICATION
               "Reservation was modified by another process. Please refresh and try again.",
             setReservations rs w)
        | (Some updated, rs) =>
            let w1 := setReservations rs w in
            let tableId := orString (Reservation.tableId updated) "" in
            let w2 :=
              if bool_decide (tableId <> "") then
                if bool_decide (newStatus = SEATED) then
                  setTables
                    (Store.update (T := Table.t) tableId
                       (TablePatch.ofStatus T_OCCUPIED) now (tables w1)).2 w1
                else if bool_decide (newStatus = COMPLETED)
                        || bool_decide (newStatus = CANCELLED)
                        || bool_decide (newStatus = NO_SHOW) then
                  setTimers (timers w1 ++ [tableId])
                    (setTables
                       (Store.update (T := Table.t) tableId
                          (TablePatch.ofStatus T_CLEANING) now (tables w1)).2 w1)
                else w1
              else w1 in
            (succeed updated, w2)
        end
  end.

(** The oldest pending [setTimeout] callback of [updateReservationStatus]
    runs: [tableStore.update(tableId, { status: AVAILABLE })]. *)
Definition fireTimer (now : ISODateTime) (w : World) : World :=
  match timers w with
  | [] => w
  | tableId :: rest =>
      setTimers rest
        (setTables
           (Store.update (T := Table.t) tableId
              (TablePatch.ofStatus T_AVAILABLE) now (tables w)).2 w)
  end.

Definition cancelReservation (id : UUID) (expectedVersion : Z)
    (now : ISODateTime) (w : World) : Result Reservation.t * World :=
  updateReservationStatus id CANCELLED expectedVersion now w.

Module ReservationFilters.
Record t := mk {
  status : option ReservationStatus;
  date : option ISODateTime;
  tableId : option UUID;
  customerId : option UUID }.
End ReservationFilters.

Section WithHostZone.
Variable hostOffset : Z.

(** [filters] is optional, and so is each of its fields; an empty
    identifier string is falsy. *)
Definition getReservations (filters : option ReservationFilters.t) (w : World)
  : list Reservation.t :=
  let all := Store.getAll (reservations w) in
  let byStatus :=
    match filters ≫= ReservationFilters.status with
    | Some status =>
        List.filter (fun r => bool_decide (Reservation.status r = status)) all
    | None => all
    end in
  let byDate :=
    match filters ≫= ReservationFilters.date with
    | Some date => Store.findByDate hostOffset date (reservations w)
    | None => byStatus
    end in
  let tableId := orString (filters ≫= ReservationFilters.tableId) "" in
  let byTable :=
    if bool_decide (tableId <> "") then
      List.filter (fun r => bool_decide (Reservation.tableId r = Some tableId)) byDate
    else byDate in
  let customerId := orString (filters ≫= ReservationFilters.customerId) "" in
  let byCustomer :=
    if bool_decide (customerId <> "") then
      List.filter (fun r => bool_decide (Reservation.customerId r = customerId)) byTable
    else byTable in
  jsSort (fun a b => Reservation.startTime a - Reservation.startTime b) byCustomer.

Definition getTodaysReservations (now : ISODateTime) (w : World)
  : list Reservation.t :=
  Store.findByDate hostOffset now (reservations w).
End WithHostZone.

Definition getUpcomingReservations (hours : Z) (now : ISODateTime) (w : World)
  : list Reservation.t :=
  Store.findUpcoming hours now (reservations w).

End ReservationService.

(** ** services/walkInService.ts *)

Module WalkInResult.
(** [table] is [tableStore.getById(table.id)!]. *)
Record t := mk {
  reservation : Reservation.t;
  table : option Table.t;
  waiter : option Waiter.t }.
End WalkInResult.

Module WaitTime.
Record t := mk { minutes : Z; message : string }.
End WaitTime.

Module WalkInService.
Import Timezone.

(** The string values of [WalkInErrorCode]. *)
Definition INVALID_PARTY_SIZE := "INVALID_PARTY_SIZE".
Definition NO_AVAILABLE_TABLES := "NO_AVAILABLE_TABLES".
Definition INVALID_CUSTOMER_NAME := "INVALID_CUSTOMER_NAME".
Definition SYSTEM_ERROR := "SYSTEM_ERROR".

Definition getErrorMessage (code : string) : string :=
  if decide (code = INVALID_PARTY_SIZE) then "Invalid party size"
  else if decide (code = NO_AVAILABLE_TABLES)
    then "No tables currently available for walk-ins. Please wait or make a reservation."
  else if decide (code = INVALID_CUSTOMER_NAME) then "Customer name is required"
  else if decide (code = SYSTEM_ERROR) then "An error occurred processing the walk-in"
  else "An unknown error occurred".

Definition validateWalkInRequest (request : WalkInRequest.t) : Result unit :=
  if isBlank (WalkInRequest.customerName request) then
    failWith INVALID_CUSTOMER_NAME "Customer name is required"
  else if bool_decide (WalkInRequest.partySize request < 1) then
    failWith INVALID_PARTY_SIZE "Party size must be at least 1"
  else if bool_decide (20 < WalkInRequest.partySize request) then
    failWith INVALID_PARTY_SIZE
      "Party size cannot exceed 20. Please contact us for large groups."
  else succeedVoid.

Definition findBestTableForWalkIn (partySize : Z) (w : World) : option Table.t :=
  let availableTables := Store.findAvailableForPartySize partySize (tables w) in
  match availableTables with
  | [] => None
  | _ =>
      let sorted :=
        jsSort
          (fun a b =>
             let aExact := if decide (Table.capacity a = partySize) then 0 else 1 in
             let bExact := if decide (Table.capacity b = partySize) then 0 else 1 in
             if decide (aExact <> bExact) then aExact - bExact
             else Table.capacity a - Table.capacity b)
          availableTables in
      head sorted
  end.

Definition assignWaiterToTable (tableId : UUID) (now : ISODateTime) (w : World)
  : option Waiter.t * World :=
  match Store.findWithLeastTables (waiters w) with
  | Some waiter =>
      let w1 :=
        setWaiters (Store.assignTable (Waiter.id waiter) tableId now (waiters w)).2 w in
      (Store.getById (Waiter.id waiter) (waiters w1), w1)
  | None => (None, w)
  end.

(** The critical section of [handleWalkIn]. *)
Definition handleWalkInBody (request : WalkInRequest.t)
    (customerUuid reservationUuid : UUID) (now : ISODateTime) (w : World)
  : (string + WalkInResult.t) * World :=
  match findBestTableForWalkIn (WalkInRequest.partySize request) w with
  | None => (inl NO_AVAILABLE_TABLES, w)
  | Some table =>
      let '(customer, cs) :=
        Store.create
          (Customer.mk "" (WalkInRequest.customerName request) None None
             (Some "Walk-in customer") 0 0)
          customerUuid now (customers w) in
      let w1 := setCustomers cs w in
      let startTime := nowUTC now in
      let endTime := calculateEndTime startTime DEFAULT_DURATION_MINUTES in
      let '(waiter, w2) := assignWaiterToTable (Table.id table) now w1 in
      let '(reservation, rs) :=
        Store.create
          (Reservation.mk "" (Customer.id customer)
             (WalkInRequest.customerName request) (WalkInRequest.partySize request)
             (Some (Table.id table)) (Waiter.id <$> waiter)
             startTime endTime SEATED true DEFAULT_TIMEZONE
             (Some (orString (WalkInRequest.notes request) "Walk-in")) 0 0 1)
          reservationUuid now (reservations w2) in
      let w3 := setReservations rs w2 in
      let w4 :=
        setTables
          (Store.update (T := Table.t) (Table.id table)
             (TablePatch.ofStatus T_OCCUPIED) now (tables w3)).2 w3 in
      (inr (WalkInResult.mk reservation
              (Store.getById (Table.id table) (tables w4)) waiter), w4)
  end.

Definition handleWalkIn (request : WalkInRequest.t)
    (lockOwner customerUuid reservationUuid : UUID) (now : ISODateTime)
    (w : World) : Result WalkInResult.t * World :=
  let validation := validateWalkInRequest request in
  if negb (success validation) then
    (mkResult (success validation) None (error validation), w)
  else
    let lockId := "walkin:" +:+ pretty now in
    let '(result, w') :=
      Locking.withLock R_table lockId
        (handleWalkInBody request customerUuid reservationUuid now)
        Locking.DEFAULT_LOCK_TIMEOUT_MINUTES lockOwner now w in
    match WithLockResult.success result, WithLockResult.result result with
    | true, Some r => (succeed r, w')
    | _, _ =>
        let errorCode := orString (WithLockResult.error result) SYSTEM_ERROR in
        (failWith errorCode (getErrorMessage errorCode), w')
    end.

Module Accommodation.
Record t := mk { available : bool; tables : list Table.t }.
End Accommodation.


Definition getCurrentWalkIns (w : World) : list Reservation.t :=
  List.filter (fun r => bool_decide (Reservation.status r = SEATED))
    (Store.findWalkIns (reservations w)).

(** [Math.ceil(x / 60000)] on a whole number of milliseconds. *)
Definition ceilMinutes (x : Z) : Z := - ((- x) / 60000).

Definition getEstimatedWaitTime (partySize : Z) (now : ISODateTime) (w : World)
  : Result WaitTime.t :=
  let availableTables := Store.findAvailableForPartySize partySize (tables w) in
  if bool_decide (0 < length availableTables)%nat then
    succeed (WaitTime.mk 0 "Tables available now!")
  else
    let seatedReservations :=
      jsSort (fun a b => Reservation.endTime a - Reservation.endTime b)
        (List.filter
           (fun r =>
              match Store.getById (orString (Reservation.tableId r) "") (tables w) with
              | Some table => bool_decide (partySize <= Table.capacity table)
              | None => false
              end)
           (Store.findReservationsByStatus SEATED (reservations w))) in
    match seatedReservations with
    | [] =>
        succeed
          (WaitTime.mk (-1)
             "Unable to estimate wait time. All tables are occupied with no scheduled end time.")
    | nextAvailable :: _ =>
        let endTime := Reservation.endTime nextAvailable in
        let waitMinutes := Z.max 0 (ceilMinutes (endTime - now)) in
        succeed
          (WaitTime.mk waitMinutes
             (if bool_decide (waitMinutes <= 15) then "Short wait expected"
              else "Estimated wait: approximately " +:+ pretty waitMinutes
                   +:+ " minutes"))
    end.

Module WalkInStats.
Record t := mk { total : Z; currentlySeated : Z; completed : Z }.
End WalkInStats.

Definition getWalkInStats (hostOffset : Z) (now : ISODateTime) (w : World)
  : WalkInStats.t :=
  let todaysWalkIns :=
    List.filter Reservation.isWalkIn
      (Store.findByDate hostOffset now (reservations w)) in
  WalkInStats.mk
    (Z.of_nat (length todaysWalkIns))
    (Z.of_nat
       (length (List.filter (fun r => bool_decide (Reservation.status r = SEATED))
                  todaysWalkIns)))
    (Z.of_nat
       (length (List.filter (fun r => bool_decide (Reservation.status r = COMPLETED))
                  todaysWalkIns))).

End WalkInService.

(** ** services/availabilityService.ts *)

Module AvailabilityService.
Import Timezone.

Definition SLOT_DURATION_MINUTES : Z := 30.
Definition OPERATING_HOURS_START : Z := 11.
Definition OPERATING_HOURS_END : Z := 22.

Definition isTableAvailable (tableId : UUID) (startTime endTime : ISODateTime)
    (w : World) : bool :=
  match Store.getById tableId (tables w) with
  | None => false
  | Some table =>
      if bool_decide (Table.status table = T_OUT_OF_SERVICE) then false
      else
        let overlappingReservations :=
          List.filter
            (fun r =>
               bool_decide (Reservation.tableId r = Some tableId)
               && bool_decide (Reservation.status r <> CANCELLED)
               && bool_decide (Reservation.status r <> COMPLETED)
               && bool_decide (Reservation.status r <> NO_SHOW))
            (Store.findByTimeRange startTime endTime (reservations w)) in
        bool_decide (length overlappingReservations = 0%nat)
  end.

Definition slotFor (table : Table.t) (startTime endTime : ISODateTime)
  : AvailabilitySlot.t :=
  AvailabilitySlot.mk (Table.id table) (Table.number table) (Table.capacity table)
    startTime endTime true.




(** [d.setUTCHours(h, 0, 0, 0)] *)
Definition setUTCHours (d : ISODateTime) (h : Z) : ISODateTime :=
  d / msPerDay * msPerDay + h * 3600000.

(** The slots pushed for one slot start: one per suitable table that is
    free, in the order of [suitableTables]. *)
Definition slotsAt (suitableTables : list Table.t) (slotStart slotEnd : ISODateTime)
    (w : World) : list AvailabilitySlot.t :=
  map (fun table => slotFor table slotStart slotEnd)
    (List.filter (fun table => isTableAvailable (Table.id table) slotStart slotEnd w)
       suitableTables).

(** The [while (currentSlot < operatingEnd)] loop of [getAvailableSlots];
    the result is what the loop pushes onto [slots]. *)
Equations? slotLoop (suitableTables : list Table.t) (durationMinutes : Z)
    (now : ISODateTime) (w : World) (operatingEnd currentSlot : ISODateTime)
  : list AvailabilitySlot.t by wf (Z.to_nat (operatingEnd - currentSlot)) lt :=
  slotLoop suitableTables durationMinutes now w operatingEnd currentSlot :=
    match decide (currentSlot < operatingEnd) with
    | right _ => []
    | left _ =>
        (if bool_decide (now < currentSlot)
         then slotsAt suitableTables currentSlot
                (addMinutes currentSlot durationMinutes) w
         else [])
        ++ slotLoop suitableTables durationMinutes now w operatingEnd
             (addMinutes currentSlot SLOT_DURATION_MINUTES)
    end.
Proof.
  unfold addMinutes, SLOT_DURATION_MINUTES, msPerMinute. lia.
Qed.

Section WithTimeZoneData.
Variable tzdata : string -> option (Z -> Z).

(** [timezone] and [durationMinutes] have default values, used when the
    argument is [undefined]. *)
Definition getAvailableSlots (date : ISODateTime) (partySize : Z)
    (timezone : option string) (durationMinutes : option Z)
    (now : ISODateTime) (w : World) : Result (list AvailabilitySlot.t) :=
  let timezone := default DEFAULT_TIMEZONE timezone in
  let durationMinutes := default DEFAULT_DURATION_MINUTES durationMinutes in
  if negb (isValidTimezone tzdata timezone) then
    failWith "INVALID_TIMEZONE" ("Invalid timezone: " +:+ timezone)
  else if bool_decide (partySize < 1) || bool_decide (20 < partySize) then
    failWith "INVALID_PARTY_SIZE" "Party size must be between 1 and 20"
  else
    match getDayBoundsInTimezone tzdata date timezone with
    | None => failWith "INVALID_TIMEZONE" ("Invalid timezone: " +:+ timezone)
    | Some (dayStart, dayEnd) =>
        let suitableTables :=
          List.filter (fun t => bool_decide (Table.status t <> T_OUT_OF_SERVICE))
            (Store.findByCapacity partySize (tables w)) in
        match suitableTables with
        | [] => succeed []
        | _ =>
            let operatingStart := setUTCHours dayStart OPERATING_HOURS_START in
            let operatingEnd := setUTCHours dayStart OPERATING_HOURS_END in
            succeed
              (slotLoop suitableTables durationMinutes now w operatingEnd
                 operatingStart)
        end
    end.
End WithTimeZoneData.

Module Preferences.
Record t := mk {
  section : option string;
  nearWindow : option bool;
  quiet : option bool }.
End Preferences.


(** [new Date(t).getUTCHours()] *)
Definition getUTCHours (t : ISODateTime) : Z := t mod msPerDay / 3600000.

Module AvailabilitySummary.
(** An entry of [peakHours] is the pair of its [hour] and its [bookings]. *)
Record t := mk {
  totalTables : Z;
  availableNow : Z;
  bookedSlots : Z;
  peakHours : list (Z * Z) }.
End AvailabilitySummary.

(** [hourlyBookings] is an object with integer keys, which [Object.entries]
    lists in ascending order: an association list with its keys in that
    order. This is [if (hourlyBookings[startHour] !== undefined)
    hourlyBookings[startHour]++]. *)
Definition increment (startHour : Z) (hourlyBookings : list (Z * Z)) : list (Z * Z) :=
  map (fun entry => if decide (entry.1 = startHour) then (entry.1, entry.2 + 1) else entry)
    hourlyBookings.

Section WithTimeZoneData.
Variable tzdata : string -> option (Z -> Z).

(** [timezone] has a default value, used when the argument is
    [undefined]. The zone is checked first, so the day bounds exist when
    they are asked for. *)
Definition getAvailabilitySummary (date : ISODateTime) (timezone : option string)
    (w : World) : Result AvailabilitySummary.t :=
  let timezone := default DEFAULT_TIMEZONE timezone in
  if negb (isValidTimezone tzdata timezone) then
    failWith "INVALID_TIMEZONE" ("Invalid timezone: " +:+ timezone)
  else
    let allTables :=
      List.filter (fun t => bool_decide (Table.status t <> T_OUT_OF_SERVICE))
        (Store.getAll (tables w)) in
    let availableNow := Z.of_nat (length (Store.findAvailable (tables w))) in
    match getDayBoundsInTimezone tzdata date timezone with
    | None => failWith "INVALID_TIMEZONE" ("Invalid timezone: " +:+ timezone)
    | Some (dayStart, dayEnd) =>
        let dayReservations :=
          List.filter
            (fun r => bool_decide (Reservation.status r <> CANCELLED)
                      && bool_decide (Reservation.status r <> NO_SHOW))
            (Store.findByTimeRange dayStart dayEnd (reservations w)) in
        let hours :=
          seqZ OPERATING_HOURS_START (OPERATING_HOURS_END - OPERATING_HOURS_START + 1) in
        let hourlyBookings :=
          foldl
            (fun bookings reservation =>
               increment (getUTCHours (Reservation.startTime reservation)) bookings)
            (map (fun h => (h, 0)) hours) dayReservations in
        let peakHours := take 3 (jsSort (fun a b => b.2 - a.2) hourlyBookings) in
        succeed
          (AvailabilitySummary.mk (Z.of_nat (length allTables)) availableNow
             (Z.of_nat (length dayReservations)) peakHours)
    end.
End WithTimeZoneData.

End AvailabilityService.

(** * Specification vocabulary *)

(** The transition table of the reservation state machine, as the
    specification gives it. *)
Inductive AllowedTransition : ReservationStatus -> ReservationStatus -> Prop :=
| pending_confirmed : AllowedTransition PENDING CONFIRMED
| pending_cancelled : AllowedTransition PENDING CANCELLED
| confirmed_seated : AllowedTransition CONFIRMED SEATED
| confirmed_cancelled : AllowedTransition CONFIRMED CANCELLED
| confirmed_no_show : AllowedTransition CONFIRMED NO_SHOW
| seated_completed : AllowedTransition SEATED COMPLETED.

(** A reservation that still claims its table: neither cancelled, nor
    completed, nor a no-show. *)
Definition isActive (r : Reservation.t) : bool :=
  bool_decide (Reservation.status r <> CANCELLED)
  && bool_decide (Reservation.status r <> COMPLETED)
  && bool_decide (Reservation.status r <> NO_SHOW).

(** Invariant (a): two active reservations stored under different
    identifiers for one table never have overlapping intervals. *)
Definition NoDoubleBooking (w : World) : Prop :=
  forall k1 k2 r1 r2 table,
    k1 <> k2 ->
    Store.getById k1 (reservations w) = Some r1 ->
    Store.getById k2 (reservations w) = Some r2 ->
    Reservation.tableId r1 = Some table ->
    Reservation.tableId r2 = Some table ->
    isActive r1 = true -> isActive r2 = true ->
    Timezone.doTimeRangesOverlap
      (Reservation.startTime r1) (Reservation.endTime r1)
      (Reservation.startTime r2) (Reservation.endTime r2) = false.

(** * Fixtures *)

(** A small time zone database: UTC, and Tokyo at a constant nine hours
    ahead of UTC (Japan has no daylight saving time). *)
Definition sampleZones (tz : string) : option (Z -> Z) :=
  if decide (tz = "UTC") then Some (fun _ => 0)
  else if decide (tz = "Asia/Tokyo") then Some (fun _ => 9 * 3600000)
  else None.



(** The tables of [initializeSampleData]: numbers 1 to 10, four of capacity
    2, three of capacity 4 and three of capacity 6, all AVAILABLE; the
    identifiers stand for the ones [uuidv4()] would give, and the stores
    are filled at instant 0. *)
Definition seedTables : JsMap.t Table.t :=
  foldl
    (fun items i =>
       (Store.create
          (Table.mk "" i
             (if decide (i <= 4) then 2 else if decide (i <= 7) then 4 else 6)
             T_AVAILABLE
             (Some (if decide (i <= 5) then "Main" else "Patio")) 0 0)
          ("table-" +:+ pretty i) 0 items).2)
    [] [1; 2; 3; 4; 5; 6; 7; 8; 9; 10].

(** The waiters of [initializeSampleData]. *)
Definition seedWaiters : JsMap.t Waiter.t :=
  foldl
    (fun items iw =>
       (Store.create (Waiter.mk "" iw.2 W_AVAILABLE [] 0 0)
          ("waiter-" +:+ pretty iw.1) 0 items).2)
    [] [(1, "Alice"); (2, "Bob"); (3, "Charlie"); (4, "Diana")].

Definition seedWorld : World := mkWorld [] seedTables seedWaiters [] ∅ [].

(** 2025-06-15T16:00:00.000Z *)
Definition sampleNow : Z := 1750003200000.

(** Every seeded table OCCUPIED and no reservation at all, as in the
    walk-in tests that fill the restaurant. *)
Definition occupiedWorld : World :=
  setTables
    (foldl
       (fun items t =>
          (Store.update (T := Table.t) (Table.id t)
             (TablePatch.ofStatus T_OCCUPIED) 0 items).2)
       seedTables (Store.getAll seedTables))
    seedWorld.

(** A table that a party of [partySize] could take now. *)
Definition freeTable (partySize : Z) (w : World) (t : Table.t) : Prop :=
  t ∈ Store.getAll (tables w)
  /\ Table.status t = T_AVAILABLE /\ partySize <= Table.capacity t.

(** A SEATED reservation on a table large enough for [partySize]. *)
Definition seatedAtFittingTable (partySize : Z) (w : World) (r : Reservation.t) : Prop :=
  r ∈ Store.getAll (reservations w)
  /\ Reservation.status r = SEATED
  /\ exists table,
       Store.getById (orString (Reservation.tableId r) "") (tables w) = Some table
       /\ partySize <= Table.capacity table.

(** One stored reservation, for a party of two at table-1, an hour after
    [sampleNow]. *)
Definition sampleReservation : Reservation.t :=
  Reservation.mk "r1" "c1" "Ada" 2 (Some "table-1") None
    (sampleNow + 3600000) (sampleNow + 3600000 + 5400000)
    CONFIRMED false "UTC" None sampleNow sampleNow 1.

Definition sampleReservations : JsMap.t Reservation.t := [("r1", sampleReservation)].

(** The lock-map key of a requested resource and of a lock. *)
Definition resourceKey (r : ResourceType * string) : string :=
  Locking.getLockKey r.1 r.2.

Definition lockKeyOf (lock : ResourceLock.t) : string :=
  Locking.getLockKey (ResourceLock.resourceType lock) (ResourceLock.resourceId lock).

(** The resource is locked by somebody else and the lock has not expired. *)
Definition heldByOther (owner : string) (now : Z)
    (locks : gmap string ResourceLock.t) (r : ResourceType * string) : Prop :=
  exists l, locks !! resourceKey r = Some l
            /\ now < ResourceLock.expiresAt l /\ ResourceLock.lockedBy l <> owner.

(** A comparator for the fixtures: code-unit order, with which every
    locale's [localeCompare] agrees on the keys "table:1" and "table:2". *)
Definition codeUnitCompare (a b : string) : Z :=
  match Stdlib.Strings.String.compare a b with
  | Lt => -1
  | Eq => 0
  | Gt => 1
  end.

(** Owner A holds table 1 and owner B holds table 2, both until a minute
    after [sampleNow]. *)
Definition heldLocks : gmap string ResourceLock.t :=
  <["table:1" := ResourceLock.mk R_table "1" "A" sampleNow (sampleNow + 60000)]>
    (<["table:2" := ResourceLock.mk R_table "2" "B" sampleNow (sampleNow + 60000)]> ∅).

(** Every table is stored under its own identifier, as [create] and
    [update] keep it. *)
Definition TablesKeyed (w : World) : Prop :=
  forall k t, Store.getById k (tables w) = Some t -> Table.id t = k.

(** A scenario on the seeded restaurant. Ada books a table for two, an
    hour from now (table 1, 17:00 to 18:30); Bob books a table for two,
    three hours from now (table 1 again, 19:00 to 20:30). *)
Definition adaRequest : CreateReservationRequest.t :=
  CreateReservationRequest.mk "Ada" None None 2
    (TimeInstant (sampleNow + 60 * 60000)) None None None None.

Definition bobRequest : CreateReservationRequest.t :=
  CreateReservationRequest.mk "Bob" None None 2
    (TimeInstant (sampleNow + 180 * 60000)) None None None None.

Definition bookedWorld : World :=
  let w1 :=
    (ReservationService.createReservation sampleZones adaRequest
       "owner-1" "c-1" "r-1" sampleNow seedWorld).2 in
  (ReservationService.createReservation sampleZones bobRequest
     "owner-2" "c-2" "r-2" sampleNow w1).2.

(** A minute later Ada cancels; five seconds after that the timer of the
    cancellation runs and table 1 is AVAILABLE again, with Bob's
    reservation still on it. *)
Definition cancelledWorld : World :=
  ReservationService.fireTimer (sampleNow + 65000)
    (ReservationService.cancelReservation "r-1" 1 (sampleNow + 60000) bookedWorld).2.

(** At 18:00 a party of two walks in. *)
Definition walkInRequest : WalkInRequest.t := WalkInRequest.mk "Cy" 2 None.

Definition walkInOutcome : Result WalkInResult.t * World :=
  WalkInService.handleWalkIn walkInRequest "owner-3" "c-3" "r-3"
    (sampleNow + 120 * 60000) cancelledWorld.

(** A window is blocked for a table by an active reservation of that table
    whose time range overlaps it. *)
Definition blocks (tableId : string) (startTime endTime : Z) (r : Reservation.t) : Prop :=
  Reservation.tableId r = Some tableId
  /\ isActive r = true
  /\ Timezone.doTimeRangesOverlap startTime endTime
       (Reservation.startTime r) (Reservation.endTime r) = true.

(** A [Map] holds one entry per key. *)
Definition UniqueKeys {V : Type} (m : JsMap.t V) : Prop := NoDup m.*1.

(** [customerStore.findByPhone(request.customerPhone || '') ||
    customerStore.findByEmail(request.customerEmail || '')] in
    [createReservation]. *)
Definition knownCustomer (request : CreateReservationRequest.t) (w : World)
  : option Customer.t :=
  match Store.findByPhone
          (orString (CreateReservationRequest.customerPhone request) "") (customers w) with
  | Some c => Some c
  | None =>
      Store.findByEmail
        (orString (CreateReservationRequest.customerEmail request) "") (customers w)
  end.

(** * Verification *)

(** ** The ordered map *)

Module JsMapFacts.
Section Facts.
Context {V : Type}.
Implicit Types (m : JsMap.t V) (k : string) (v : V).

Lemma get_set_eq k v m : JsMap.get k (JsMap.set k v m) = Some v.
Proof.
  induction m as [|[k' v'] r IH]; simpl.
  - by rewrite decide_True.
  - destruct (decide (k' = k)) as [->|Hne]; simpl.
    + by rewrite decide_True.
    + by rewrite decide_False.
Qed.

Lemma get_set_ne k k' v m : k <> k' -> JsMap.get k' (JsMap.set k v m) = JsMap.get k' m.
Proof.
  intros Hne. induction m as [|[k0 v0] r IH]; simpl.
  - by rewrite decide_False.
  - destruct (decide (k0 = k)) as [->|Hne0]; simpl.
    + by rewrite !decide_False.
    + destruct (decide (k0 = k')); [done|apply IH].
Qed.

Lemma get_set k k' v m :
  JsMap.get k' (JsMap.set k v m) = if decide (k = k') then Some v else JsMap.get k' m.
Proof.
  destruct (decide (k = k')) as [->|Hne];
    [apply get_set_eq | by apply get_set_ne].
Qed.

Lemma get_Some_values k v m : JsMap.get k m = Some v -> v ∈ JsMap.values m.
Proof.
  induction m as [|[k' v'] r IH]; simpl; [done|].
  destruct (decide (k' = k)).
  - intros [= ->]. apply list_elem_of_here.
  - intros Hr. apply list_elem_of_further, IH, Hr.
Qed.

Lemma values_set k v m x :
  x ∈ JsMap.values (JsMap.set k v m) -> x = v \/ x ∈ JsMap.values m.
Proof.
  induction m as [|[k' v'] r IH]; simpl.
  - intros Hx. apply list_elem_of_singleton in Hx. by left.
  - destruct (decide (k' = k)); simpl; intros Hx.
    + apply elem_of_cons in Hx as [->|Hx]; [by left|].
      right. by apply list_elem_of_further.
    + apply elem_of_cons in Hx as [->|Hx].
      * right. apply list_elem_of_here.
      * destruct (IH Hx) as [->|Hin]; [by left|].
        right. by apply list_elem_of_further.
Qed.
End Facts.
End JsMapFacts.

(** ** C4: acquireLock *)

Section AcquireLock.
Import Locking.
Implicit Types (locks : gmap string ResourceLock.t) (owner : string).

Lemma acquireLock_fails_iff rt id owner ttl now locks :
  LockResult.success (acquireLock rt id owner ttl now locks).1 = false <->
  exists l, locks !! getLockKey rt id = Some l
            /\ now < ResourceLock.expiresAt l /\ ResourceLock.lockedBy l <> owner.
Proof.
  unfold acquireLock.
  destruct (locks !! getLockKey rt id) as [l|] eqn:Hl; simpl.
  - destruct (bool_decide (now < ResourceLock.expiresAt l)) eqn:He;
      destruct (bool_decide (ResourceLock.lockedBy l <> owner)) eqn:Ho; simpl;
      try apply bool_decide_eq_true in He; try apply bool_decide_eq_false in He;
      try apply bool_decide_eq_true in Ho; try apply bool_decide_eq_false in Ho;
      split; try done; try (intros (l' & [= <-] & ? & ?); done).
    intros _. by exists l.
  - split; [done|]. by intros (l & ? & _).
Qed.

Lemma acquireLock_success_state rt id owner ttl now locks :
  LockResult.success (acquireLock rt id owner ttl now locks).1 = true ->
  (acquireLock rt id owner ttl now locks).2 =
    <[getLockKey rt id :=
        ResourceLock.mk rt id owner now (now + ttl * 60000)]> locks
  /\ LockResult.lock (acquireLock rt id owner ttl now locks).1 =
       Some (ResourceLock.mk rt id owner now (now + ttl * 60000)).
Proof.
  unfold acquireLock.
  destruct (locks !! getLockKey rt id) as [l|]; simpl; [|done].
  by destruct (_ && _).
Qed.

Lemma acquireLock_failure_state rt id owner ttl now locks :
  LockResult.success (acquireLock rt id owner ttl now locks).1 = false ->
  (acquireLock rt id owner ttl now locks).2 = locks.
Proof.
  unfold acquireLock.
  destruct (locks !! getLockKey rt id) as [l|]; simpl; [|done].
  by destruct (_ && _).
Qed.
End AcquireLock.

(** C4. For every lock map, [acquireLock] succeeds exactly when the key holds
    no lock that is still valid (its expiry is after [now]) or the lock it
    holds belongs to the caller; a failed call leaves the lock map as it
    was; a lock whose expiry is not after [now] never blocks anyone; and a
    lock taken at [now] for [ttl] minutes is open to every owner from
    [now + ttl] minutes on, while before that it refuses every other owner. *)
Theorem acquireLock_spec :
  forall (rt : ResourceType) (id owner : string) (ttl now : Z)
         (locks : gmap string ResourceLock.t),
    let key := Locking.getLockKey rt id in
    let res := Locking.acquireLock rt id owner ttl now locks in
    (LockResult.success res.1 = true <->
       (forall l, locks !! key = Some l -> ResourceLock.expiresAt l <= now)
       \/ (exists l, locks !! key = Some l /\ ResourceLock.lockedBy l = owner))
    /\ (LockResult.success res.1 = false -> res.2 = locks)
    /\ (forall l, locks !! key = Some l -> ResourceLock.expiresAt l <= now ->
          forall other,
            LockResult.success (Locking.acquireLock rt id other ttl now locks).1 = true)
    /\ (LockResult.success res.1 = true ->
          forall (other : string) (ttl' later : Z),
            (now + ttl * 60000 <= later ->
             LockResult.success
               (Locking.acquireLock rt id other ttl' later res.2).1 = true)
            /\ (later < now + ttl * 60000 -> other <> owner ->
                LockResult.success
                  (Locking.acquireLock rt id other ttl' later res.2).1 = false)).
Proof.
  intros rt id owner ttl now locks key res. subst key res.
  repeat split.
  - intros Hs.
    destruct (locks !! Locking.getLockKey rt id) as [l|] eqn:Hl; [|left; done].
    destruct (decide (ResourceLock.expiresAt l <= now)) as [He|He].
    + left. intros l' [= <-]. done.
    + right. exists l. split; [done|].
      destruct (decide (ResourceLock.lockedBy l = owner)) as [|Ho]; [done|].
      assert (LockResult.success
                (Locking.acquireLock rt id owner ttl now locks).1 = false) as Hf.
      { apply acquireLock_fails_iff. exists l. repeat split; [done|lia|done]. }
      congruence.
  - intros Hc.
    destruct (LockResult.success (Locking.acquireLock rt id owner ttl now locks).1)
      eqn:Hs; [done|].
    apply acquireLock_fails_iff in Hs as (l & Hl & He & Ho).
    destruct Hc as [Hc|(l' & Hl' & Ho')].
    + specialize (Hc l Hl). lia.
    + congruence.
  - apply acquireLock_failure_state.
  - intros l Hl He other.
    destruct (LockResult.success (Locking.acquireLock rt id other ttl now locks).1)
      eqn:Hs; [done|].
    apply acquireLock_fails_iff in Hs as (l' & Hl' & He' & _).
    assert (l' = l) by congruence. subst. lia.
  - intros Hle.
    apply acquireLock_success_state in H as [-> _].
    destruct (LockResult.success _) eqn:Hs; [done|].
    apply acquireLock_fails_iff in Hs as (l' & Hl' & He' & _).
    rewrite lookup_insert_eq in Hl'. injection Hl' as <-. simpl in He'. lia.
  - intros Hlt Hne.
    apply acquireLock_success_state in H as [-> _].
    apply acquireLock_fails_iff. eexists. rewrite lookup_insert_eq.
    split; [done|]. simpl. split; [lia|congruence].
Qed.

(** ** C10: BaseStore.update *)

Section BaseStoreUpdate.
Context {T : Type} `{Store.Entity T}.
Implicit Types (items : JsMap.t T).

Lemma update_missing id (updates : Store.Partial) now items :
  Store.getById id items = None -> Store.update id updates now items = (None, items).
Proof. unfold Store.update, Store.getById. by intros ->. Qed.

Lemma update_existing id (updates : Store.Partial) now items existing :
  Store.getById id items = Some existing ->
  Store.update id updates now items =
    (Some (Store.withMeta (Store.idOf existing) (Store.createdAtOf existing) now
             (Store.spread existing updates)),
     JsMap.set id
       (Store.withMeta (Store.idOf existing) (Store.createdAtOf existing) now
          (Store.spread existing updates)) items).
Proof. unfold Store.update, Store.getById. by intros ->. Qed.

Lemma update_other id id' (updates : Store.Partial) now items :
  id <> id' ->
  Store.getById id' (Store.update id updates now items).2 = Store.getById id' items.
Proof.
  intros Hne. unfold Store.update, Store.getById.
  destruct (JsMap.get id items); simpl; [|done].
  by apply JsMapFacts.get_set_ne.
Qed.
End BaseStoreUpdate.

(** C10. On the reservation store, for every record present under [id] and
    every patch (whatever it holds, its own [id], [createdAt] and
    [updatedAt] included), [update] returns and stores a record whose [id]
    and [createdAt] are those of the record before, whose [updatedAt] is
    the current instant, and whose every other field is the patch's value
    when the patch has that field and the old value otherwise; the records
    under other identifiers are the same as before. When nothing is stored
    under [id], [update] returns [undefined] and the store is unchanged. *)
Theorem update_frame :
  forall (items : JsMap.t Reservation.t) (id : string)
         (updates : ReservationPatch.t) (now : Z),
    match Store.getById id items with
    | None => Store.update (T := Reservation.t) id updates now items = (None, items)
    | Some existing =>
        exists updated,
          Store.update (T := Reservation.t) id updates now items
            = (Some updated, JsMap.set id updated items)
          /\ Store.getById id (JsMap.set id updated items) = Some updated
          /\ (forall id', id' <> id ->
                Store.getById id' (JsMap.set id updated items) = Store.getById id' items)
          /\ Reservation.id updated = Reservation.id existing
          /\ Reservation.createdAt updated = Reservation.createdAt existing
          /\ Reservation.updatedAt updated = now
          /\ Reservation.customerId updated =
               default (Reservation.customerId existing) (ReservationPatch.customerId updates)
          /\ Reservation.customerName updated =
               default (Reservation.customerName existing)
                 (ReservationPatch.customerName updates)
          /\ Reservation.partySize updated =
               default (Reservation.partySize existing) (ReservationPatch.partySize updates)
          /\ Reservation.tableId updated =
               default (Reservation.tableId existing) (ReservationPatch.tableId updates)
          /\ Reservation.waiterId updated =
               default (Reservation.waiterId existing) (ReservationPatch.waiterId updates)
          /\ Reservation.startTime updated =
               default (Reservation.startTime existing) (ReservationPatch.startTime updates)
          /\ Reservation.endTime updated =
               default (Reservation.endTime existing) (ReservationPatch.endTime updates)
          /\ Reservation.status updated =
               default (Reservation.status existing) (ReservationPatch.status updates)
          /\ Reservation.isWalkIn updated =
               default (Reservation.isWalkIn existing) (ReservationPatch.isWalkIn updates)
          /\ Reservation.timezone updated =
               default (Reservation.timezone existing) (ReservationPatch.timezone updates)
          /\ Reservation.notes updated =
               default (Reservation.notes existing) (ReservationPatch.notes updates)
          /\ Reservation.version updated =
               default (Reservation.version existing) (ReservationPatch.version updates)
    end.
Proof.
  intros items id updates now.
  destruct (Store.getById id items) as [existing|] eqn:Hget.
  - eexists. split; [by apply update_existing|].
    split; [apply JsMapFacts.get_set_eq|].
    split; [intros id' Hne; by apply JsMapFacts.get_set_ne|].
    simpl. repeat split.
  - by apply update_missing.
Qed.

(** The same frame on the table store. *)
Lemma update_table_frame (items : JsMap.t Table.t) id (updates : TablePatch.t) now existing :
  Store.getById id items = Some existing ->
  exists updated,
    Store.update (T := Table.t) id updates now items
      = (Some updated, JsMap.set id updated items)
    /\ Table.id updated = Table.id existing
    /\ Table.createdAt updated = Table.createdAt existing
    /\ Table.updatedAt updated = now
    /\ Table.number updated = default (Table.number existing) (TablePatch.number updates)
    /\ Table.capacity updated =
         default (Table.capacity existing) (TablePatch.capacity updates)
    /\ Table.status updated = default (Table.status existing) (TablePatch.status updates)
    /\ Table.section updated = default (Table.section existing) (TablePatch.section updates).
Proof.
  intros Hget. eexists. split; [by apply update_existing|]. simpl. repeat split.
Qed.

(** ** C2: the conditional update *)

(** C2. For a reservation stored under [id] and any patch: when
    [expectedVersion] differs from the stored version, [updateWithVersion]
    returns [null] and leaves the store exactly as it was, and
    [updateReservationStatus] (for a transition that is allowed) reports
    CONCURRENT_MODIFICATION and leaves the whole world as it was; when the
    versions are equal, [updateWithVersion] stores and returns the patched
    record, with version exactly [storedVersion + 1] (whatever version the
    patch itself carries), [updatedAt] refreshed to the current instant,
    [id] and [createdAt] kept, and the other records untouched. *)
Theorem updateWithVersion_spec :
  forall (items : JsMap.t Reservation.t) (id : string) (updates : ReservationPatch.t)
         (expectedVersion now : Z) (existing : Reservation.t),
    Store.getById id items = Some existing ->
    (Reservation.version existing <> expectedVersion ->
       Store.updateWithVersion id updates expectedVersion now items = (None, items)
       /\ forall (w : World) (newStatus : ReservationStatus),
            reservations w = items ->
            ReservationService.isValidStatusTransition
              (Reservation.status existing) newStatus = true ->
            exists msg,
              ReservationService.updateReservationStatus id newStatus expectedVersion now w
              = (failWith ReservationService.CONCURRENT_MODIFICATION msg, w))
    /\ (Reservation.version existing = expectedVersion ->
        exists updated,
          Store.updateWithVersion id updates expectedVersion now items
            = (Some updated, JsMap.set id updated items)
          /\ Store.getById id (JsMap.set id updated items) = Some updated
          /\ (forall id', id' <> id ->
                Store.getById id' (JsMap.set id updated items) = Store.getById id' items)
          /\ Reservation.version updated = Reservation.version existing + 1
          /\ Reservation.updatedAt updated = now
          /\ Reservation.id updated = Reservation.id existing
          /\ Reservation.createdAt updated = Reservation.createdAt existing
          /\ Reservation.status updated =
               default (Reservation.status existing) (ReservationPatch.status updates)
          /\ Reservation.tableId updated =
               default (Reservation.tableId existing) (ReservationPatch.tableId updates)
          /\ Reservation.waiterId updated =
               default (Reservation.waiterId existing) (ReservationPatch.waiterId updates)
          /\ Reservation.startTime updated =
               default (Reservation.startTime existing) (ReservationPatch.startTime updates)
          /\ Reservation.endTime updated =
               default (Reservation.endTime existing) (ReservationPatch.endTime updates)
          /\ Reservation.partySize updated =
               default (Reservation.partySize existing) (ReservationPatch.partySize updates)
          /\ Reservation.customerId updated =
               default (Reservation.customerId existing) (ReservationPatch.customerId updates)
          /\ Reservation.customerName updated =
               default (Reservation.customerName existing)
                 (ReservationPatch.customerName updates)
          /\ Reservation.isWalkIn updated =
               default (Reservation.isWalkIn existing) (ReservationPatch.isWalkIn updates)
          /\ Reservation.timezone updated =
               default (Reservation.timezone existing) (ReservationPatch.timezone updates)
          /\ Reservation.notes updated =
               default (Reservation.notes existing) (ReservationPatch.notes updates)).
Proof.
  intros items id updates expectedVersion now existing Hget. split.
  - intros Hne. split.
    + unfold Store.updateWithVersion. rewrite Hget. by rewrite decide_True.
    + intros w newStatus <- Hvalid. eexists.
      unfold ReservationService.updateReservationStatus.
      rewrite Hget, Hvalid. simpl.
      unfold Store.updateWithVersion. rewrite Hget, decide_True by done.
      by destruct w.
  - intros Heq. eexists. split.
    + unfold Store.updateWithVersion. rewrite Hget, decide_False by (intros ?; done).
      by apply update_existing.
    + split; [apply JsMapFacts.get_set_eq|].
      split; [intros id' Hne; by apply JsMapFacts.get_set_ne|].
      simpl. repeat split.
Qed.

(** ** C3: the reservation state machine *)

Lemma isValidStatusTransition_allowed from to :
  ReservationService.isValidStatusTransition from to = true <-> AllowedTransition from to.
Proof.
  split.
  - destruct from, to; intros Hv; try constructor; by vm_compute in Hv.
  - by destruct 1; vm_compute.
Qed.

Lemma updateReservationStatus_reservations id newStatus v now w :
  reservations (ReservationService.updateReservationStatus id newStatus v now w).2
  = match Store.getById id (reservations w) with
    | Some existing =>
        if ReservationService.isValidStatusTransition (Reservation.status existing) newStatus
        then (Store.updateWithVersion id (ReservationPatch.ofStatus newStatus) v now
                (reservations w)).2
        else reservations w
    | None => reservations w
    end.
Proof.
  unfold ReservationService.updateReservationStatus.
  destruct (Store.getById id (reservations w)) as [existing|]; [|done].
  destruct (ReservationService.isValidStatusTransition _ _); simpl; [|done].
  destruct (Store.updateWithVersion _ _ _ _ _) as [[updated|] rs]; simpl; [|done].
  repeat (case_match; simpl; try done).
Qed.

(** C3. Whatever the request, [updateReservationStatus] leaves every stored
    reservation in place with a status that is either unchanged or reached
    from the old one by an arrow of the transition table (PENDING to
    CONFIRMED or CANCELLED; CONFIRMED to SEATED, CANCELLED or NO_SHOW; SEATED
    to COMPLETED; nothing out of COMPLETED, CANCELLED and NO_SHOW); and when
    the reservation exists and the pair (current status, requested status) is
    not in the table, the call fails with INVALID_STATUS_TRANSITION and the
    world, reservations and tables included, is the one before the call. *)
Theorem updateReservationStatus_transitions :
  forall (id : string) (newStatus : ReservationStatus) (expectedVersion now : Z)
         (w : World),
    let res := ReservationService.updateReservationStatus id newStatus expectedVersion now w in
    (forall k r,
        Store.getById k (reservations w) = Some r ->
        exists r',
          Store.getById k (reservations res.2) = Some r'
          /\ (Reservation.status r' = Reservation.status r
              \/ AllowedTransition (Reservation.status r) (Reservation.status r')))
    /\ (forall existing,
          Store.getById id (reservations w) = Some existing ->
          ~ AllowedTransition (Reservation.status existing) newStatus ->
          res.2 = w
          /\ success res.1 = false
          /\ code <$> error res.1 = Some ReservationService.INVALID_STATUS_TRANSITION).
Proof.
  intros id newStatus v now w res. subst res. split.
  - intros k r Hr. rewrite updateReservationStatus_reservations.
    destruct (Store.getById id (reservations w)) as [existing|] eqn:Hex;
      [|exists r; by split; [|left]].
    destruct (ReservationService.isValidStatusTransition _ _) eqn:Hv;
      [|exists r; by split; [|left]].
    unfold Store.updateWithVersion. rewrite Hex.
    destruct (decide (Reservation.version existing <> v));
      [exists r; by split; [|left]|].
    rewrite (update_existing _ _ _ _ existing) by done. simpl.
    unfold Store.getById. rewrite JsMapFacts.get_set.
    destruct (decide (id = k)) as [->|Hne]; [|exists r; by split; [|left]].
    eexists. split; [done|]. right. simpl.
    apply isValidStatusTransition_allowed.
    unfold Store.getById in *. congruence.
  - intros existing Hex Hna.
    unfold ReservationService.updateReservationStatus. rewrite Hex.
    destruct (ReservationService.isValidStatusTransition _ _) eqn:Hv.
    + by apply isValidStatusTransition_allowed in Hv.
    + done.
Qed.

(** ** C6: day bounds *)

Section Calendar.
Import Timezone.




End Calendar.




Example toISOString_ex :
  Timezone.toISOString 1750003200000 = "2025-06-15T16:00:00.000Z".
Proof. vm_compute. reflexivity. Qed.

(** ** Sorting *)

Section JsSortFacts.
Context {A : Type} (cmp : A -> A -> Z).

Lemma sortInsert_elem x y (l : list A) : y ∈ sortInsert cmp x l <-> y = x \/ y ∈ l.
Proof.
  induction l as [|z r IH]; simpl.
  - rewrite list_elem_of_singleton. split; [by left|].
    intros [Hy|Hy]; [done|]. by apply elem_of_nil in Hy.
  - case_decide; rewrite !elem_of_cons; [done|]. rewrite IH. tauto.
Qed.

Lemma jsSort_elem y (l : list A) : y ∈ jsSort cmp l <-> y ∈ l.
Proof.
  induction l as [|x r IH]; simpl; [done|].
  rewrite sortInsert_elem, elem_of_cons, IH. done.
Qed.

Lemma jsSort_nil (l : list A) : jsSort cmp l = [] <-> l = [].
Proof.
  split; [|by intros ->].
  destruct l as [|x r]; [done|]. simpl.
  destruct (jsSort cmp r); simpl; [done|]. by case_decide.
Qed.
End JsSortFacts.

Section JsSortByKey.
Context {A : Type} (key : A -> Z).

(** With a comparator that subtracts keys, the first element of the sorted
    array has the least key. *)
Lemma sortInsert_least x (l : list A) :
  (forall h, head l = Some h -> forall y, y ∈ l -> key h <= key y) ->
  forall h, head (sortInsert (fun a b => key a - key b) x l) = Some h ->
            forall y, y ∈ sortInsert (fun a b => key a - key b) x l -> key h <= key y.
Proof.
  intros Hl h Hh y Hy. apply sortInsert_elem in Hy.
  destruct l as [|z r]; simpl in *.
  - injection Hh as <-. destruct Hy as [->|Hy]; [lia|]. by apply elem_of_nil in Hy.
  - specialize (Hl z eq_refl).
    case_decide; simpl in Hh; injection Hh as <-.
    + destruct Hy as [->|Hy]; [lia|]. specialize (Hl y Hy). lia.
    + destruct Hy as [->|Hy]; [lia|]. by apply Hl.
Qed.

Lemma jsSort_least (l : list A) h :
  head (jsSort (fun a b => key a - key b) l) = Some h ->
  forall y, y ∈ l -> key h <= key y.
Proof.
  intros Hh y Hy. apply (jsSort_elem (fun a b => key a - key b)) in Hy.
  revert h Hh y Hy. induction l as [|x r IH]; simpl; [done|].
  apply sortInsert_least. exact IH.
Qed.
End JsSortByKey.

(** ** C7: checkAvailability *)

(** What [checkAvailability] does for a zone the host knows, whatever the
    party size: it succeeds with one slot per table that
    [findAvailableTables] returns for the window from the start to the
    start plus the duration (90 minutes unless the request gives one), each
    marked available. *)
Lemma checkAvailability_valid_zone tzdata request w :
  Timezone.isValidTimezone tzdata
    (orString (AvailabilityRequest.timezone request) "UTC") = true ->
  let startTime := AvailabilityRequest.startTime request in
  let endTime :=
    startTime + orNumber (AvailabilityRequest.durationMinutes request) 90 * 60000 in
  ReservationService.checkAvailability tzdata request w
  = succeed
      (map (fun table =>
              AvailabilitySlot.mk (Table.id table) (Table.number table)
                (Table.capacity table) startTime endTime true)
           (ReservationService.findAvailableTables startTime endTime
              (AvailabilityRequest.partySize request) None w)).
Proof.
  intros Hvalid. unfold ReservationService.checkAvailability.
  unfold Timezone.DEFAULT_TIMEZONE. rewrite Hvalid. reflexivity.
Qed.

Lemma checkAvailability_invalid_zone tzdata request w :
  Timezone.isValidTimezone tzdata
    (orString (AvailabilityRequest.timezone request) "UTC") = false ->
  success (ReservationService.checkAvailability tzdata request w) = false
  /\ code <$> error (ReservationService.checkAvailability tzdata request w)
     = Some ReservationService.INVALID_TIMEZONE.
Proof.
  intros Hvalid. unfold ReservationService.checkAvailability.
  unfold Timezone.DEFAULT_TIMEZONE. rewrite Hvalid. done.
Qed.

(** The sibling [getAvailableSlots] of the availability service does
    reject a party size outside 1 to 20. *)
Lemma getAvailableSlots_rejects_party_size tzdata date partySize timezone
    durationMinutes now w :
  Timezone.isValidTimezone tzdata (default "UTC" timezone) = true ->
  partySize < 1 \/ 20 < partySize ->
  AvailabilityService.getAvailableSlots tzdata date partySize timezone
    durationMinutes now w
  = failWith "INVALID_PARTY_SIZE" "Party size must be between 1 and 20".
Proof.
  intros Hvalid Hsize. unfold AvailabilityService.getAvailableSlots.
  unfold Timezone.DEFAULT_TIMEZONE. rewrite Hvalid. simpl.
  destruct Hsize.
  - by rewrite bool_decide_eq_true_2.
  - rewrite (bool_decide_eq_true_2 (20 < partySize)) by done.
    by rewrite orb_true_r.
Qed.

(** C7 on the seeded tables. A request for a party of 0 is answered with
    success and a slot for each of the ten tables, and a request for a
    party of 21 with success and no slot: neither gets the party-size
    failure. A request for a party of 4 gets the three tables of capacity 4
    and then the three of capacity 6, as the specification's scenario says. *)
Theorem checkAvailability_party_size_unchecked :
  let ask n :=
    ReservationService.checkAvailability sampleZones
      (AvailabilityRequest.mk (sampleNow + 3600000) n None None) seedWorld in
  (success (ask 0) = true
   /\ map AvailabilitySlot.tableNumber <$> data (ask 0)
      = Some [1; 2; 3; 4; 5; 6; 7; 8; 9; 10]
   /\ error (ask 0) = None)
  /\ (success (ask 21) = true /\ data (ask 21) = Some [])
  /\ map AvailabilitySlot.tableCapacity <$> data (ask 4) = Some [4; 4; 4; 6; 6; 6]
  /\ map AvailabilitySlot.tableNumber <$> data (ask 4) = Some [5; 6; 7; 8; 9; 10].
Proof. vm_compute. repeat split. Qed.

(** ** C8: getEstimatedWaitTime *)

Lemma elem_of_List_filter {A} (f : A -> bool) (l : list A) x :
  x ∈ List.filter f l <-> x ∈ l /\ f x = true.
Proof. rewrite !list_elem_of_In. apply filter_In. Qed.

Lemma List_filter_nil {A} (f : A -> bool) (l : list A) :
  List.filter f l = [] -> forall x, x ∈ l -> f x = false.
Proof.
  intros Hnil x Hx. destruct (f x) eqn:Hf; [|done].
  assert (x ∈ List.filter f l) as Hin by by apply elem_of_List_filter.
  rewrite Hnil in Hin. by apply elem_of_nil in Hin.
Qed.

Lemma findAvailableForPartySize_elem partySize w t :
  t ∈ Store.findAvailableForPartySize partySize (tables w) <-> freeTable partySize w t.
Proof.
  unfold Store.findAvailableForPartySize, freeTable.
  rewrite elem_of_List_filter, andb_true_iff, !bool_decide_eq_true. tauto.
Qed.

Lemma seated_filter_elem partySize w r :
  r ∈ List.filter
        (fun r =>
           match Store.getById (orString (Reservation.tableId r) "") (tables w) with
           | Some table => bool_decide (partySize <= Table.capacity table)
           | None => false
           end)
        (Store.findReservationsByStatus SEATED (reservations w))
  <-> seatedAtFittingTable partySize w r.
Proof.
  unfold Store.findReservationsByStatus, seatedAtFittingTable.
  rewrite !elem_of_List_filter, bool_decide_eq_true.
  destruct (Store.getById _ (tables w)) as [table|].
  - rewrite bool_decide_eq_true. split.
    + intros [[? ?] ?]. eauto.
    + intros (? & ? & table' & [= <-] & ?). done.
  - split; [by intros [_ ?]|]. by intros (_ & _ & table' & ? & _).
Qed.

Lemma ceilMinutes_spec x :
  60000 * (WalkInService.ceilMinutes x - 1) < x <= 60000 * WalkInService.ceilMinutes x.
Proof.
  unfold WalkInService.ceilMinutes.
  pose proof (Z.div_mod (- x) 60000 ltac:(lia)).
  pose proof (Z.mod_pos_bound (- x) 60000 ltac:(lia)). lia.
Qed.

(** C8, as the code has it. [getEstimatedWaitTime] always succeeds. When
    some AVAILABLE table seats the party, the wait is 0 minutes. Otherwise,
    when some SEATED reservation sits at a table large enough, the wait is
    [max(0, c)] where [c] is the number of minutes from now to the earliest
    end time among those reservations, rounded up. Otherwise the result
    carries the number -1 in [minutes], a value no estimate takes, with
    the message that the wait cannot be estimated. *)
Theorem getEstimatedWaitTime_spec :
  forall (partySize now : Z) (w : World),
    let res := WalkInService.getEstimatedWaitTime partySize now w in
    success res = true /\ error res = None
    /\ ((exists t, freeTable partySize w t) -> WaitTime.minutes <$> data res = Some 0)
    /\ (~ (exists t, freeTable partySize w t) ->
        ((exists r, seatedAtFittingTable partySize w r) ->
         exists r c,
           seatedAtFittingTable partySize w r
           /\ (forall r', seatedAtFittingTable partySize w r' ->
                          Reservation.endTime r <= Reservation.endTime r')
           /\ 60000 * (c - 1) < Reservation.endTime r - now <= 60000 * c
           /\ WaitTime.minutes <$> data res = Some (Z.max 0 c))
        /\ (~ (exists r, seatedAtFittingTable partySize w r) ->
            data res =
              Some (WaitTime.mk (-1)
                      "Unable to estimate wait time. All tables are occupied with no scheduled end time."))).
Proof.
  intros partySize now w res. subst res.
  unfold WalkInService.getEstimatedWaitTime.
  destruct (Store.findAvailableForPartySize partySize (tables w)) as [|t ts] eqn:Hav;
    simpl.
  - set (eligible := List.filter _ (Store.findReservationsByStatus SEATED (reservations w))).
    assert (forall r, r ∈ eligible <-> seatedAtFittingTable partySize w r) as Hel
      by (intros r; apply seated_filter_elem).
    assert (~ (exists t, freeTable partySize w t)) as Hnone.
    { intros [t Ht]. apply findAvailableForPartySize_elem in Ht.
      rewrite Hav in Ht. by apply elem_of_nil in Ht. }
    destruct (jsSort _ eligible) as [|h rest] eqn:Hsort.
    + apply jsSort_nil in Hsort.
      split; [done|]. split; [done|]. split; [by intros ?|].
      intros _. split; [|done].
      intros [r Hr]. apply Hel in Hr. rewrite Hsort in Hr. by apply elem_of_nil in Hr.
    + assert (h ∈ eligible) as Hh.
      { apply (jsSort_elem (fun a b => Reservation.endTime a - Reservation.endTime b)).
        rewrite Hsort. apply list_elem_of_here. }
      split; [done|]. split; [done|]. split; [by intros ?|].
      intros _. split.
      * intros _. exists h, (WalkInService.ceilMinutes (Reservation.endTime h - now)).
        split; [by apply Hel|]. split.
        { intros r' Hr'. apply Hel in Hr'.
          apply (jsSort_least Reservation.endTime eligible); [by rewrite Hsort|done]. }
        split; [apply ceilMinutes_spec|done].
      * intros Hno. exfalso. apply Hno. exists h. by apply Hel.
  - assert (exists t, freeTable partySize w t) as Hfree.
    { exists t. apply findAvailableForPartySize_elem. rewrite Hav.
      apply list_elem_of_here. }
    split; [done|]. split; [done|]. split; [done|]. by intros ?.
Qed.

(** C8 as stated fails in its last case. With every seeded table OCCUPIED
    and no reservation stored, no table is free and nobody is seated, and
    the result is a success whose [minutes] field is the number -1. *)
Lemma getEstimatedWaitTime_counterexample :
  Store.findAvailableForPartySize 2 (tables occupiedWorld) = []
  /\ Store.findReservationsByStatus SEATED (reservations occupiedWorld) = []
  /\ WalkInService.getEstimatedWaitTime 2 sampleNow occupiedWorld
     = mkResult true
         (Some (WaitTime.mk (-1)
                  "Unable to estimate wait time. All tables are occupied with no scheduled end time."))
         None.
Proof. vm_compute. repeat split. Qed.

Lemma updateWithVersion_spec_witness :
  exists updated,
    Store.updateWithVersion "r1" (ReservationPatch.ofStatus SEATED) 1 (sampleNow + 1)
      sampleReservations
    = (Some updated, JsMap.set "r1" updated sampleReservations)
    /\ Reservation.version updated = 2
    /\ Reservation.status updated = SEATED.
Proof.
  destruct (proj2 (updateWithVersion_spec sampleReservations "r1"
                     (ReservationPatch.ofStatus SEATED) 1 (sampleNow + 1)
                     sampleReservation eq_refl) eq_refl)
    as (u & Hu & _ & _ & Hv & _ & _ & _ & Hs & _).
  exists u. split; [exact Hu|]. split; [exact Hv|exact Hs].
Defined.

(** ** C9: getNextAvailableSlot *)

Lemma find_Some_split {A} (f : A -> bool) (l : list A) x :
  List.find f l = Some x ->
  exists before after,
    l = before ++ x :: after /\ f x = true /\ forall y, y ∈ before -> f y = false.
Proof.
  induction l as [|a r IH]; simpl; [done|].
  destruct (f a) eqn:Hfa.
  - intros [= ->]. exists [], r. split; [done|]. split; [done|].
    intros y Hy. by apply elem_of_nil in Hy.
  - intros Hr. destruct (IH Hr) as (before & after & -> & Hx & Hb).
    exists (a :: before), after. split; [done|]. split; [done|].
    intros y Hy. apply elem_of_cons in Hy as [->|Hy]; [done|by apply Hb].
Qed.

Lemma find_None_all {A} (f : A -> bool) (l : list A) :
  List.find f l = None -> forall y, y ∈ l -> f y = false.
Proof.
  intros Hnone y Hy. apply list_elem_of_In in Hy. by apply (find_none f l).
Qed.

Section SearchLoop.
Import AvailabilityService Timezone.
Variables (suitableTables : list Table.t) (durationMinutes : Z) (w : World).


End SearchLoop.




(** ** C5: acquireMultipleLocks *)

Section SortPermutation.
Context {A : Type} (cmp : A -> A -> Z).

Lemma sortInsert_perm x (l : list A) : sortInsert cmp x l ≡ₚ x :: l.
Proof.
  induction l as [|y r IH]; simpl; [done|].
  case_decide; [done|]. rewrite IH. apply perm_swap.
Qed.

Lemma jsSort_perm (l : list A) : jsSort cmp l ≡ₚ l.
Proof.
  induction l as [|x r IH]; simpl; [done|].
  rewrite sortInsert_perm. by rewrite IH.
Qed.

(** With a comparator that is total and transitive the result is in
    non-decreasing order. *)
Hypothesis cmp_total : forall a b, cmp a b <= 0 \/ cmp b a <= 0.
Hypothesis cmp_trans : forall a b c, cmp a b <= 0 -> cmp b c <= 0 -> cmp a c <= 0.

Lemma sortInsert_sorted x (l : list A) :
  StronglySorted (fun a b => cmp a b <= 0) l ->
  StronglySorted (fun a b => cmp a b <= 0) (sortInsert cmp x l).
Proof.
  induction 1 as [|y r Hr IH Hy]; simpl.
  - by repeat constructor.
  - case_decide as Hxy.
    + constructor; [by constructor|]. constructor; [done|].
      eapply Forall_impl; [exact Hy|]. intros z Hz. by eapply cmp_trans.
    + constructor; [done|].
      apply List.Forall_forall. intros z Hz.
      apply list_elem_of_In in Hz. apply sortInsert_elem in Hz.
      destruct Hz as [->|Hz].
      * destruct (cmp_total x y); [lia|done].
      * rewrite List.Forall_forall in Hy. by apply Hy, list_elem_of_In.
Qed.

Lemma jsSort_sorted (l : list A) :
  StronglySorted (fun a b => cmp a b <= 0) (jsSort cmp l).
Proof.
  induction l as [|x r IH]; simpl; [constructor|]. by apply sortInsert_sorted.
Qed.
End SortPermutation.

(** Membership in appended and consed lists, by propositional reasoning. *)
Ltac solve_elem :=
  repeat (rewrite ?elem_of_app, ?list_elem_of_singleton, ?elem_of_cons,
            ?elem_of_nil in * );
  tauto.

Section AcquireMultiple.
Import Locking.
Variables (owner : string) (ttl now : Z).
Implicit Types (locks : gmap string ResourceLock.t).

Lemma releaseLock_lookup lock locks k :
  (forall l, locks !! lockKeyOf lock = Some l -> ResourceLock.lockedBy l = owner) ->
  (releaseLock (ResourceLock.resourceType lock) (ResourceLock.resourceId lock)
     owner locks).2 !! k
  = if decide (k = lockKeyOf lock) then None else locks !! k.
Proof.
  intros Hown. unfold releaseLock. fold (lockKeyOf lock).
  destruct (locks !! lockKeyOf lock) as [l|] eqn:Hl; simpl.
  - rewrite bool_decide_eq_false_2 by (intros Hne; apply Hne; by apply Hown).
    simpl. case_decide as Hk; [subst; apply lookup_delete_eq|].
    by apply lookup_delete_ne.
  - case_decide; by subst.
Qed.

Lemma rollback_lookup acquiredLocks : forall locks,
  (forall lock l, lock ∈ acquiredLocks -> locks !! lockKeyOf lock = Some l ->
                  ResourceLock.lockedBy l = owner) ->
  forall k, rollback acquiredLocks owner locks !! k
            = if decide (k ∈ lockKeyOf <$> acquiredLocks) then None else locks !! k.
Proof.
  induction acquiredLocks as [|a acc IH]; intros locks Hown k.
  - done.
  - unfold rollback in *. cbn [foldl].
    set (locks2 := (releaseLock _ _ owner locks).2).
    assert (forall k, locks2 !! k = if decide (k = lockKeyOf a) then None else locks !! k)
      as Hl2.
    { intros k'. apply releaseLock_lookup. intros l. apply Hown, list_elem_of_here. }
    rewrite IH.
    + rewrite Hl2, fmap_cons.
      destruct (decide (k = lockKeyOf a)) as [->|Hne].
      * rewrite (decide_True (P := _ ∈ _ :: _)) by apply list_elem_of_here.
        by case_decide.
      * case_decide as Hin.
        -- rewrite decide_True; [done|]. by apply list_elem_of_further.
        -- rewrite decide_False; [done|]. rewrite elem_of_cons. tauto.
    + intros lock l Hin. rewrite Hl2. case_decide; [done|].
      apply Hown. by apply list_elem_of_further.
Qed.

Lemma heldByOther_same_key locks r r' :
  resourceKey r = resourceKey r' ->
  heldByOther owner now locks r -> heldByOther owner now locks r'.
Proof. unfold heldByOther. by intros ->. Qed.

Lemma acquireLock_result r locks :
  let res := acquireLock r.1 r.2 owner ttl now locks in
  (LockResult.success res.1 = false /\ heldByOther owner now locks r /\ res.2 = locks)
  \/ (LockResult.success res.1 = true /\ ~ heldByOther owner now locks r
      /\ LockResult.lock res.1 = Some (ResourceLock.mk r.1 r.2 owner now (now + ttl * 60000))
      /\ res.2 = <[resourceKey r :=
                     ResourceLock.mk r.1 r.2 owner now (now + ttl * 60000)]> locks).
Proof.
  intros res. subst res.
  destruct (LockResult.success (acquireLock r.1 r.2 owner ttl now locks).1) eqn:Hs.
  - right. split; [done|]. split.
    + intros Hheld. unfold heldByOther, resourceKey in Hheld.
      apply (acquireLock_fails_iff r.1 r.2 owner ttl now locks) in Hheld. congruence.
    + destruct (acquireLock_success_state _ _ _ _ _ _ Hs) as [-> ->]. done.
  - left. split; [done|]. split.
    + unfold heldByOther, resourceKey.
      by apply (acquireLock_fails_iff r.1 r.2 owner ttl now locks).
    + by apply acquireLock_failure_state.
Qed.

(** The loop fails exactly at the first resource held by somebody else, and
    then every key locked by the call so far is free again. *)
Lemma acquireEach_failure rs : forall acquiredLocks locks,
  (forall lock l, lock ∈ acquiredLocks -> locks !! lockKeyOf lock = Some l ->
                  ResourceLock.lockedBy l = owner) ->
  LockResult.success (acquireEach rs acquiredLocks owner ttl now locks).1 = false ->
  exists pre r post,
    rs = pre ++ r :: post
    /\ heldByOther owner now locks r
    /\ (forall p, p ∈ pre -> ~ heldByOther owner now locks p)
    /\ forall k,
         (acquireEach rs acquiredLocks owner ttl now locks).2 !! k
         = if decide (k ∈ (lockKeyOf <$> acquiredLocks) ++ (resourceKey <$> pre))
           then None else locks !! k.
Proof.
  induction rs as [|r rest IH]; intros acc locks Hown; simpl; [done|].
  destruct (acquireLock_result r locks) as [(Hs & Hheld & Hst)|(Hs & Hfree & Hlock & Hst)];
    destruct (acquireLock r.1 r.2 owner ttl now locks) as [result locks1]; simpl in *;
    rewrite Hs; simpl.
  - intros _. subst locks1. exists [], r, rest.
    split; [done|]. split; [done|].
    split; [intros p Hp; by apply elem_of_nil in Hp|].
    intros k. rewrite app_nil_r. by apply rollback_lookup.
  - rewrite Hlock. simpl. subst locks1.
    set (lock := ResourceLock.mk r.1 r.2 owner now (now + ttl * 60000)).
    intros Hfail.
    destruct (IH (acc ++ [lock]) (<[resourceKey r := lock]> locks)) as
      (pre & r' & post & -> & Hheld' & Hpre & Hmap); [|done|].
    { intros lk l Hin. apply elem_of_app in Hin as [Hin|Hin].
      - destruct (decide (resourceKey r = lockKeyOf lk)) as [Heq|Hne].
        + rewrite <- Heq, lookup_insert_eq. by intros [= <-].
        + rewrite lookup_insert_ne by done. by apply Hown.
      - apply list_elem_of_singleton in Hin as ->.
        change (lockKeyOf lock) with (resourceKey r).
        rewrite lookup_insert_eq. by intros [= <-]. }
    assert (forall x, resourceKey x <> resourceKey r ->
              heldByOther owner now (<[resourceKey r := lock]> locks) x
              <-> heldByOther owner now locks x) as Hsame.
    { intros x Hx. unfold heldByOther. by rewrite lookup_insert_ne. }
    assert (forall x, resourceKey x = resourceKey r ->
              ~ heldByOther owner now (<[resourceKey r := lock]> locks) x) as Hmine.
    { intros x Hx (l & Hl & _ & Hne). rewrite Hx, lookup_insert_eq in Hl.
      injection Hl as <-. done. }
    exists (r :: pre), r', post. split; [done|]. split.
    { destruct (decide (resourceKey r' = resourceKey r)) as [Heq|Hne].
      - by destruct (Hmine r' Heq).
      - by apply Hsame. }
    split.
    { intros p Hp. apply elem_of_cons in Hp as [->|Hp]; [done|].
      destruct (decide (resourceKey p = resourceKey r)) as [Heq|Hne].
      - intros Hh. apply Hfree. by apply (heldByOther_same_key _ p).
      - rewrite <- Hsame by done. by apply Hpre. }
    intros k. rewrite Hmap, fmap_app.
    change (lockKeyOf <$> [lock]) with [resourceKey r]. rewrite fmap_cons.
    destruct (decide (k = resourceKey r)) as [->|Hne].
    + rewrite !decide_True; [done|solve_elem..].
    + rewrite lookup_insert_ne by done.
      case_decide as Hin.
      * rewrite decide_True; [done|]. solve_elem.
      * rewrite decide_False; [done|]. solve_elem.
Qed.

(** When the loop succeeds nothing requested was held by somebody else, and
    every requested key now belongs to the caller until [now + ttl]. *)
Lemma acquireEach_success rs : forall acquiredLocks locks,
  LockResult.success (acquireEach rs acquiredLocks owner ttl now locks).1 = true ->
  (forall r, r ∈ rs -> ~ heldByOther owner now locks r)
  /\ (forall k, k ∉ resourceKey <$> rs ->
        (acquireEach rs acquiredLocks owner ttl now locks).2 !! k = locks !! k)
  /\ (forall r, r ∈ rs ->
        exists l, (acquireEach rs acquiredLocks owner ttl now locks).2 !! resourceKey r
                  = Some l
                  /\ ResourceLock.lockedBy l = owner
                  /\ ResourceLock.expiresAt l = now + ttl * 60000).
Proof.
  induction rs as [|r rest IH]; intros acc locks; simpl.
  { intros _. split; [intros r Hr; by apply elem_of_nil in Hr|].
    split; [done|]. intros r Hr. by apply elem_of_nil in Hr. }
  destruct (acquireLock_result r locks) as [(Hs & Hheld & Hst)|(Hs & Hfree & Hlock & Hst)];
    destruct (acquireLock r.1 r.2 owner ttl now locks) as [result locks1]; simpl in *;
    rewrite Hs; simpl; [done|].
  rewrite Hlock. simpl. subst locks1.
  set (lock := ResourceLock.mk r.1 r.2 owner now (now + ttl * 60000)).
  intros Hok. destruct (IH _ _ Hok) as (Hfree' & Hframe & Hmine).
  split; [|split].
  - intros x Hx. apply elem_of_cons in Hx as [->|Hx]; [done|].
    destruct (decide (resourceKey x = resourceKey r)) as [Heq|Hne].
    + intros Hh. apply Hfree. by apply (heldByOther_same_key _ x).
    + intros Hh. apply (Hfree' x Hx). unfold heldByOther in *.
      by rewrite lookup_insert_ne.
  - intros k Hk. apply not_elem_of_cons in Hk as [Hne Hk].
    rewrite Hframe by exact Hk. by rewrite lookup_insert_ne.
  - intros x Hx. apply elem_of_cons in Hx as [->|Hx]; [|by apply Hmine].
    destruct (decide (resourceKey r ∈ resourceKey <$> rest)) as [Hin|Hnin].
    + apply list_elem_of_fmap in Hin as (y & Hy & Hin).
      destruct (Hmine y Hin) as (l & Hl & Hrest).
      rewrite <- Hy in Hl. by exists l.
    + rewrite Hframe by done. rewrite lookup_insert_eq. by exists lock.
Qed.
End AcquireMultiple.

(** C5, as the code has it. [acquireMultipleLocks] takes the requested
    resources in the order that sorting their "type:id" keys with
    [localeCompare] gives (a rearrangement of the request, non-decreasing
    when the comparator is total and transitive) and locks them one by one.
    It fails exactly when some requested resource is held by another owner
    under a lock that has not expired. On failure, with [pre] the resources
    before the first such one: every key of [pre] is free afterwards,
    whatever it held before the call (nothing, an expired lock, or a lock
    of the caller's own), and every other key holds what it held before.
    On success every requested key belongs to the caller until
    [now + ttl] minutes, and the other keys are untouched. *)
Theorem acquireMultipleLocks_rollback :
  forall (localeCompare : string -> string -> Z)
         (resources : list (ResourceType * string)) (owner : string) (ttl now : Z)
         (locks : gmap string ResourceLock.t),
    let sorted := Locking.sortResources localeCompare resources in
    let res := Locking.acquireMultipleLocks localeCompare resources owner ttl now locks in
    sorted ≡ₚ resources
    /\ ((forall a b, localeCompare a b <= 0 \/ localeCompare b a <= 0) ->
        (forall a b c, localeCompare a b <= 0 -> localeCompare b c <= 0 ->
                       localeCompare a c <= 0) ->
        StronglySorted
          (fun a b => localeCompare (resourceKey a) (resourceKey b) <= 0) sorted)
    /\ (LockResult.success res.1 = false <->
        exists r, r ∈ resources /\ heldByOther owner now locks r)
    /\ (LockResult.success res.1 = false ->
        exists pre r post,
          sorted = pre ++ r :: post
          /\ heldByOther owner now locks r
          /\ (forall p, p ∈ pre -> ~ heldByOther owner now locks p)
          /\ forall k, res.2 !! k
                       = if decide (k ∈ resourceKey <$> pre) then None else locks !! k)
    /\ (LockResult.success res.1 = true ->
        (forall k, k ∉ resourceKey <$> resources -> res.2 !! k = locks !! k)
        /\ forall r, r ∈ resources ->
             exists l, res.2 !! resourceKey r = Some l
                       /\ ResourceLock.lockedBy l = owner
                       /\ ResourceLock.expiresAt l = now + ttl * 60000).
Proof.
  intros localeCompare resources owner ttl now locks sorted res.
  assert (sorted ≡ₚ resources) as Hperm by apply jsSort_perm.
  assert (forall r, r ∈ sorted <-> r ∈ resources) as Hmem
    by (intros r; by rewrite Hperm).
  assert (LockResult.success res.1 = false ->
          exists pre r post,
            sorted = pre ++ r :: post
            /\ heldByOther owner now locks r
            /\ (forall p, p ∈ pre -> ~ heldByOther owner now locks p)
            /\ forall k, res.2 !! k
                         = if decide (k ∈ resourceKey <$> pre) then None else locks !! k)
    as Hfail.
  { intros Hf.
    destruct (acquireEach_failure owner ttl now sorted [] locks) as
      (pre & r & post & Hs & Hheld & Hpre & Hmap); [|exact Hf|].
    { intros lock l Hin. by apply elem_of_nil in Hin. }
    by exists pre, r, post. }
  split; [done|]. split.
  { intros Htotal Htrans.
    apply (jsSort_sorted
             (fun a b => localeCompare (resourceKey a) (resourceKey b))); eauto. }
  split; [|split; [done|]].
  - split.
    + intros Hf. destruct (Hfail Hf) as (pre & r & post & Hs & Hheld & _).
      exists r. split; [|done]. apply Hmem. rewrite Hs. solve_elem.
    + intros (r & Hr & Hheld).
      destruct (LockResult.success res.1) eqn:Hs; [|done]. exfalso.
      destruct (acquireEach_success owner ttl now sorted [] locks Hs) as (Hfree & _).
      apply (Hfree r); [by apply Hmem|done].
  - intros Hs.
    destruct (acquireEach_success owner ttl now sorted [] locks Hs) as (_ & Hframe & Hmine).
    split.
    + intros k Hk. apply Hframe. intros Hin. apply Hk.
      apply list_elem_of_fmap in Hin as (y & -> & Hy).
      apply list_elem_of_fmap. exists y. split; [done|]. by apply Hmem.
    + intros r Hr. apply Hmine. by apply Hmem.
Qed.

(** C5 as stated fails: a lock that the caller already held on a requested
    key does not survive a failed call. Owner A holds table 1 and owner B
    holds table 2, both locks valid; A asks for both. Table 1 is re-acquired
    first, table 2 is refused, and the rollback deletes A's lock on table 1,
    which existed before the call. B's lock is untouched. *)
Lemma acquireMultipleLocks_counterexample :
  let res :=
    Locking.acquireMultipleLocks codeUnitCompare [(R_table, "1"); (R_table, "2")]
      "A" 2 sampleNow heldLocks in
  heldLocks !! "table:1"
    = Some (ResourceLock.mk R_table "1" "A" sampleNow (sampleNow + 60000))
  /\ sampleNow < sampleNow + 60000
  /\ LockResult.success res.1 = false
  /\ res.2 !! "table:1" = None
  /\ res.2 !! "table:2" = heldLocks !! "table:2".
Proof. vm_compute. repeat split. Qed.

(** ** C1: no double booking *)

Section NoDoubleBookingFacts.
Import Timezone.

Lemma doTimeRangesOverlap_sym s1 e1 s2 e2 :
  doTimeRangesOverlap s1 e1 s2 e2 = doTimeRangesOverlap s2 e2 s1 e1.
Proof. unfold doTimeRangesOverlap. apply andb_comm. Qed.

(** The invariant only reads the reservation store. *)
Lemma NoDoubleBooking_ext w w' :
  reservations w' = reservations w -> NoDoubleBooking w -> NoDoubleBooking w'.
Proof. unfold NoDoubleBooking. by intros ->. Qed.

(** Storing a reservation that overlaps no active reservation of its table
    under another identifier keeps the invariant. *)
Lemma NoDoubleBooking_set w w' newId new :
  reservations w' = JsMap.set newId new (reservations w) ->
  (forall k r table,
      k <> newId -> Store.getById k (reservations w) = Some r ->
      isActive new = true -> isActive r = true ->
      Reservation.tableId new = Some table -> Reservation.tableId r = Some table ->
      doTimeRangesOverlap (Reservation.startTime new) (Reservation.endTime new)
        (Reservation.startTime r) (Reservation.endTime r) = false) ->
  NoDoubleBooking w -> NoDoubleBooking w'.
Proof.
  intros Hset Hnew Hinv k1 k2 r1 r2 table Hne H1 H2 Ht1 Ht2 Ha1 Ha2.
  rewrite Hset in H1, H2. unfold Store.getById in *.
  rewrite JsMapFacts.get_set in H1, H2.
  destruct (decide (newId = k1)) as [E1|Hk1]; destruct (decide (newId = k2)) as [E2|Hk2].
  - congruence.
  - injection H1 as <-. by apply (Hnew k2 r2 table).
  - injection H2 as <-. rewrite doTimeRangesOverlap_sym. by apply (Hnew k1 r1 table).
  - by apply (Hinv k1 k2 r1 r2 table).
Qed.

(** A table that [findAvailableTables] returns has no active reservation
    overlapping the window. *)
Lemma findAvailableTables_free startTime endTime partySize w t :
  t ∈ ReservationService.findAvailableTables startTime endTime partySize None w ->
  forall r, r ∈ Store.getAll (reservations w) -> isActive r = true ->
            Reservation.tableId r = Some (Table.id t) ->
            doTimeRangesOverlap startTime endTime
              (Reservation.startTime r) (Reservation.endTime r) = false.
Proof.
  unfold ReservationService.findAvailableTables. intros Ht r Hr Hact Htab.
  apply jsSort_elem, elem_of_List_filter in Ht as [_ Hnone].
  apply bool_decide_eq_true, length_zero_iff_nil in Hnone.
  destruct (doTimeRangesOverlap _ _ _ _) eqn:Hov; [|done]. exfalso.
  assert (r ∈ @nil Reservation.t) as Hin; [|by apply elem_of_nil in Hin].
  rewrite <- Hnone. apply elem_of_List_filter. split; [|by apply bool_decide_eq_true].
  apply elem_of_List_filter. split.
  - unfold Store.findByTimeRange. apply elem_of_List_filter. split; [done|].
    unfold doTimeRangesOverlap in Hov. by rewrite andb_comm.
  - unfold isActive in Hact. by rewrite Hact.
Qed.
End NoDoubleBookingFacts.

Section Preservation.
Import Timezone ReservationService.

Lemma TablesKeyed_ext w w' : tables w' = tables w -> TablesKeyed w -> TablesKeyed w'.
Proof. unfold TablesKeyed. by intros ->. Qed.

(** [tableStore.update] keeps every table under its own identifier. *)
Lemma TablesKeyed_update w w' id (updates : TablePatch.t) now :
  tables w' = (Store.update (T := Table.t) id updates now (tables w)).2 ->
  TablesKeyed w -> TablesKeyed w'.
Proof.
  intros Ht Hk k t. rewrite Ht. unfold Store.update, Store.getById.
  destruct (JsMap.get id (tables w)) as [existing|] eqn:Hex; simpl; [|apply Hk].
  rewrite JsMapFacts.get_set. case_decide as Hid; [|apply Hk].
  intros [= <-]. simpl. subst k. by apply Hk.
Qed.

(** The table that [createReservation] settles on is one that
    [findAvailableTables] returned, up to the record stored under its id. *)
Lemma selectTable_available request startTime endTime w t :
  TablesKeyed w ->
  selectTable request startTime endTime w = inr t ->
  exists t',
    t' ∈ findAvailableTables startTime endTime
           (CreateReservationRequest.partySize request) None w
    /\ Table.id t' = Table.id t.
Proof.
  intros Hkeyed. unfold selectTable.
  set (preferredTableId := orString _ "").
  set (available := findAvailableTables _ _ _ _ _).
  assert (available = [] \/ exists first rest, available = first :: rest) as Hcases
    by (destruct available; eauto).
  destruct (bool_decide (preferredTableId <> "")).
  - destruct (Store.getById preferredTableId (tables w)) as [preferred|] eqn:Hpref;
      [|done].
    destruct (List.find _ available) as [t'|] eqn:Hfind.
    + intros [= <-]. apply find_some in Hfind as [Hin Hid].
      apply bool_decide_eq_true in Hid. exists t'.
      split; [by apply list_elem_of_In|]. rewrite Hid. symmetry. by apply Hkeyed.
    + destruct Hcases as [->|(first & rest & ->)]; [done|].
      intros [= <-]. exists first. split; [apply list_elem_of_here|done].
  - destruct Hcases as [->|(first & rest & ->)]; [done|].
    intros [= <-]. exists first. split; [apply list_elem_of_here|done].
Qed.

Lemma createReservationBody_effect request startTime endTime timezone
    customerUuid reservationUuid now w :
  let out :=
    createReservationBody request startTime endTime timezone customerUuid
      reservationUuid now w in
  match selectTable request startTime endTime w with
  | inl thrown => out = (inl thrown, w)
  | inr t =>
      exists new,
        reservations out.2 = JsMap.set reservationUuid new (reservations w)
        /\ Reservation.tableId new = Some (Table.id t)
        /\ Reservation.startTime new = startTime
        /\ Reservation.endTime new = endTime
        /\ Reservation.status new = CONFIRMED
        /\ out.1 = inr new
        /\ tables out.2
           = (Store.update (T := Table.t) (Table.id t)
                (TablePatch.ofStatus T_RESERVED) now (tables w)).2
  end.
Proof.
  unfold createReservationBody.
  destruct (selectTable request startTime endTime w) as [thrown|t]; [done|].
  destruct (match Store.findByPhone _ _ with Some c => Some c | None => _ end)
    as [c|]; simpl;
    destruct (Store.findWithLeastTables _) as [wt|]; simpl;
    eexists; repeat split.
Qed.

(** C1 for [createReservation]: whatever the request and whatever the
    outcome, the invariant holds afterwards when it held before. *)
Lemma createReservation_preserves tzdata request lockOwner customerUuid
    reservationUuid now w :
  TablesKeyed w -> NoDoubleBooking w ->
  NoDoubleBooking
    (createReservation tzdata request lockOwner customerUuid reservationUuid now w).2
  /\ TablesKeyed
       (createReservation tzdata request lockOwner customerUuid reservationUuid now w).2.
Proof.
  intros Hkeyed Hinv. unfold createReservation.
  destruct (success (validateCreateRequest tzdata request now)); [|done].
  destruct (CreateReservationRequest.startTime request) as [| |startTime]; [done..|].
  unfold Locking.withLock.
  destruct (Locking.acquireLock _ _ _ _ _ _) as [lockResult locks1].
  destruct (LockResult.success lockResult); simpl; [|done].
  set (w0 := setLocks locks1 w).
  assert (NoDoubleBooking w0) as Hinv0 by by apply (NoDoubleBooking_ext w).
  assert (TablesKeyed w0) as Hkeyed0 by by apply (TablesKeyed_ext w).
  set (endTime := calculateEndTime startTime _).
  set (timezone := orString _ DEFAULT_TIMEZONE).
  pose proof (createReservationBody_effect request startTime endTime timezone
                customerUuid reservationUuid now w0) as Heff.
  pose proof (selectTable_available request startTime endTime w0) as Hsel.
  destruct (createReservationBody _ _ _ _ _ _ _ w0) as [outcome w1]. simpl in Heff.
  assert (NoDoubleBooking w1 /\ TablesKeyed w1) as [Hinv1 Hkeyed1].
  { destruct (selectTable request startTime endTime w0) as [thrown|t].
    - injection Heff as _ <-. done.
    - destruct Heff as (new & Hrs & Htab & Hs & He & _ & _ & Htables).
      destruct (Hsel t Hkeyed0 eq_refl) as (t' & Hin & Hid).
      split; [|by apply (TablesKeyed_update w0 w1 _ _ _ Htables)].
      apply (NoDoubleBooking_set w0 w1 reservationUuid new Hrs); [|done].
      intros k r table _ Hr _ Hact Hnew Hrt. rewrite Hs, He.
      apply (findAvailableTables_free _ _ _ _ _ Hin).
      + by apply (JsMapFacts.get_Some_values k).
      + done.
      + congruence. }
  destruct outcome; simpl;
    (split; [by apply (NoDoubleBooking_ext w1)|by apply (TablesKeyed_ext w1)]).
Qed.

(** C1 for [updateReservationStatus]. *)
Lemma updateReservationStatus_preserves id newStatus expectedVersion now w :
  TablesKeyed w -> NoDoubleBooking w ->
  NoDoubleBooking (updateReservationStatus id newStatus expectedVersion now w).2
  /\ TablesKeyed (updateReservationStatus id newStatus expectedVersion now w).2.
Proof.
  intros Hkeyed Hinv. split.
  - pose proof (updateReservationStatus_reservations id newStatus expectedVersion now w)
      as Hrs.
    destruct (Store.getById id (reservations w)) as [existing|] eqn:Hex;
      [|by apply (NoDoubleBooking_ext w)].
    destruct (isValidStatusTransition (Reservation.status existing) newStatus) eqn:Hv;
      [|by apply (NoDoubleBooking_ext w)].
    unfold Store.updateWithVersion in Hrs. rewrite Hex in Hrs.
    destruct (decide (Reservation.version existing <> expectedVersion));
      [by apply (NoDoubleBooking_ext w)|].
    rewrite (update_existing _ _ _ _ existing Hex) in Hrs. simpl in Hrs.
    eapply (NoDoubleBooking_set w _ id); [exact Hrs| |done].
    simpl. intros k r table Hne Hr _ Hact Ht Hrt.
    apply (Hinv id k existing r table); try done.
    apply isValidStatusTransition_allowed in Hv.
    unfold isActive. destruct (Reservation.status existing); try done; inversion Hv.
  - unfold updateReservationStatus.
    destruct (Store.getById id (reservations w)) as [existing|]; [|done].
    destruct (isValidStatusTransition _ _); simpl; [|done].
    destruct (Store.updateWithVersion _ _ _ _ _) as [[updated|] rs]; simpl; [|done].
    repeat case_match; simpl; try done;
      by eapply (TablesKeyed_update (setReservations rs w)).
Qed.

(** C1 for the deferred table release. *)
Lemma fireTimer_preserves now w :
  TablesKeyed w -> NoDoubleBooking w ->
  NoDoubleBooking (fireTimer now w) /\ TablesKeyed (fireTimer now w).
Proof.
  intros Hkeyed Hinv. unfold fireTimer.
  destruct (timers w) as [|tableId rest]; [done|].
  split; [done|]. by eapply (TablesKeyed_update w).
Qed.
End Preservation.

Lemma TablesKeyed_Forall w :
  Forall (fun kv => Table.id kv.2 = kv.1) (tables w) -> TablesKeyed w.
Proof.
  unfold TablesKeyed, Store.getById. generalize (tables w).
  induction 1 as [|[k0 t0] r Hkv Hr IH]; intros k t; simpl; [done|].
  case_decide; [|by apply IH]. intros [= <-]. by subst.
Qed.

Lemma seedWorld_invariant : NoDoubleBooking seedWorld /\ TablesKeyed seedWorld.
Proof.
  split.
  - intros k1 k2 r1 r2 table _ Hr1. done.
  - apply TablesKeyed_Forall. vm_compute. repeat constructor.
Qed.

(** The world in which the walk-in arrives is reached from the seeded one
    by two bookings, a cancellation and the timer, so the invariant holds
    in it. *)
Lemma cancelledWorld_invariant : NoDoubleBooking cancelledWorld /\ TablesKeyed cancelledWorld.
Proof.
  destruct seedWorld_invariant as [H0 K0].
  destruct (createReservation_preserves sampleZones adaRequest
              "owner-1" "c-1" "r-1" sampleNow seedWorld K0 H0) as [H1 K1].
  destruct (createReservation_preserves sampleZones bobRequest
              "owner-2" "c-2" "r-2" sampleNow _ K1 H1) as [H2 K2].
  destruct (updateReservationStatus_preserves "r-1" CANCELLED 1 (sampleNow + 60000)
              _ K2 H2) as [H3 K3].
  exact (fireTimer_preserves (sampleNow + 65000) _ K3 H3).
Qed.

(** C1 fails for [handleWalkIn]. In [cancelledWorld] the invariant holds,
    table 1 is AVAILABLE and carries Bob's CONFIRMED reservation for 19:00
    to 20:30. The walk-in at 18:00 succeeds, is seated at table 1 from
    18:00 to 19:30, and the two active reservations of table 1 overlap:
    the invariant no longer holds. *)
Theorem handleWalkIn_double_books :
  NoDoubleBooking cancelledWorld
  /\ Table.status <$> Store.getById "table-1" (tables cancelledWorld) = Some T_AVAILABLE
  /\ success walkInOutcome.1 = true
  /\ (exists booked seated,
        Store.getById "r-2" (reservations walkInOutcome.2) = Some booked
        /\ Store.getById "r-3" (reservations walkInOutcome.2) = Some seated
        /\ Reservation.status booked = CONFIRMED
        /\ Reservation.status seated = SEATED
        /\ Reservation.isWalkIn seated = true
        /\ Reservation.tableId booked = Some "table-1"
        /\ Reservation.tableId seated = Some "table-1"
        /\ Reservation.startTime booked = sampleNow + 180 * 60000
        /\ Reservation.endTime booked = sampleNow + 270 * 60000
        /\ Reservation.startTime seated = sampleNow + 120 * 60000
        /\ Reservation.endTime seated = sampleNow + 210 * 60000
        /\ Timezone.doTimeRangesOverlap
             (Reservation.startTime booked) (Reservation.endTime booked)
             (Reservation.startTime seated) (Reservation.endTime seated) = true)
  /\ ~ NoDoubleBooking walkInOutcome.2.
Proof.
  split; [apply cancelledWorld_invariant|].
  split; [by vm_compute|]. split; [by vm_compute|].
  assert (exists booked seated,
            Store.getById "r-2" (reservations walkInOutcome.2) = Some booked
            /\ Store.getById "r-3" (reservations walkInOutcome.2) = Some seated
            /\ Reservation.status booked = CONFIRMED
            /\ Reservation.status seated = SEATED
            /\ Reservation.isWalkIn seated = true
            /\ Reservation.tableId booked = Some "table-1"
            /\ Reservation.tableId seated = Some "table-1"
            /\ Reservation.startTime booked = sampleNow + 180 * 60000
            /\ Reservation.endTime booked = sampleNow + 270 * 60000
            /\ Reservation.startTime seated = sampleNow + 120 * 60000
            /\ Reservation.endTime seated = sampleNow + 210 * 60000
            /\ Timezone.doTimeRangesOverlap
                 (Reservation.startTime booked) (Reservation.endTime booked)
                 (Reservation.startTime seated) (Reservation.endTime seated) = true)
    as Hpair.
  { eexists _, _.
    split; [vm_compute; reflexivity|]. split; [vm_compute; reflexivity|].
    repeat split; vm_compute; reflexivity. }
  split; [exact Hpair|].
  destruct Hpair as (booked & seated & Hb & Hs & Hsb & Hss & _ & Htb & Hts & _ & _ & _ & _ & Hov).
  intros Hinv.
  assert (Timezone.doTimeRangesOverlap
            (Reservation.startTime booked) (Reservation.endTime booked)
            (Reservation.startTime seated) (Reservation.endTime seated) = false) as Hno.
  { refine (Hinv "r-2" "r-3" booked seated "table-1" _ Hb Hs Htb Hts _ _).
    - discriminate.
    - unfold isActive. rewrite Hsb. reflexivity.
    - unfold isActive. rewrite Hss. reflexivity. }
  congruence.
Qed.

(** * Further properties *)

(** ** utils/locking.ts *)

(** X1. [releaseLock] answers [true] exactly when the key holds no lock or
    holds the caller's lock; a refusal leaves the lock map as it was; after
    an accepted release the key is free and every other key holds what it
    held; and releasing again gives the same answer and the same map. *)
Theorem releaseLock_spec :
  forall (rt : ResourceType) (id owner : string) (locks : gmap string ResourceLock.t),
    let key := Locking.getLockKey rt id in
    let res := Locking.releaseLock rt id owner locks in
    (res.1 = true <->
       locks !! key = None
       \/ exists l, locks !! key = Some l /\ ResourceLock.lockedBy l = owner)
    /\ (res.1 = false -> res.2 = locks)
    /\ (res.1 = true ->
        res.2 !! key = None /\ forall k, k <> key -> res.2 !! k = locks !! k)
    /\ Locking.releaseLock rt id owner res.2 = res.
Proof.
  intros rt id owner locks key res. subst res. unfold Locking.releaseLock.
  fold key. destruct (locks !! key) as [l|] eqn:Hl; simpl.
  - destruct (decide (ResourceLock.lockedBy l = owner)) as [Ho|Ho].
    + rewrite bool_decide_eq_false_2 by (intros Hn; by apply Hn). simpl.
      split; [split; [intros _; right; by exists l|done]|].
      split; [done|]. split.
      * intros _. split; [apply lookup_delete_eq|].
        intros k Hk. by apply lookup_delete_ne.
      * by rewrite lookup_delete_eq.
    + rewrite bool_decide_eq_true_2 by done. simpl.
      split; [split; [done|]|].
      * intros [Hn|(l' & [= <-] & Hl')]; done.
      * split; [done|]. split; [done|].
        rewrite Hl. by rewrite bool_decide_eq_true_2.
  - split; [split; [by left|done]|]. split; [done|]. split; [done|].
    by rewrite Hl.
Qed.

(** X2. [isLocked] answers [true] exactly when the key holds a lock whose
    expiry is after [now]. It never touches another key; it leaves the map
    alone when it answers [true]; when it answers [false] the key is free
    afterwards (an expired entry is evicted), and then [acquireLock]
    succeeds for every owner. *)
Theorem isLocked_spec :
  forall (rt : ResourceType) (id : string) (now : Z)
         (locks : gmap string ResourceLock.t),
    let key := Locking.getLockKey rt id in
    let res := Locking.isLocked rt id now locks in
    (res.1 = true <->
       exists l, locks !! key = Some l /\ now < ResourceLock.expiresAt l)
    /\ (forall k, k <> key -> res.2 !! k = locks !! k)
    /\ (res.1 = true -> res.2 = locks)
    /\ (res.1 = false ->
        res.2 !! key = None
        /\ forall owner ttl,
             LockResult.success (Locking.acquireLock rt id owner ttl now locks).1 = true).
Proof.
  intros rt id now locks key res. subst res. unfold Locking.isLocked. fold key.
  destruct (locks !! key) as [l|] eqn:Hl; simpl.
  - destruct (decide (ResourceLock.expiresAt l <= now)) as [He|He].
    + rewrite bool_decide_eq_true_2 by done. simpl.
      split; [split; [done|]|].
      { intros (l' & [= <-] & Hlt). lia. }
      split; [intros k Hk; by apply lookup_delete_ne|]. split; [done|].
      intros _. split; [apply lookup_delete_eq|]. intros owner ttl.
      destruct (LockResult.success _) eqn:Hs; [done|].
      apply acquireLock_fails_iff in Hs as (l' & Hl' & Hlt & _).
      fold key in Hl'. assert (l' = l) by congruence. subst. lia.
    + rewrite bool_decide_eq_false_2 by done. simpl.
      split; [split; [intros _; exists l; split; [done|lia]|done]|].
      split; [done|]. split; done.
  - split; [split; [done|by intros (l & ? & _)]|]. split; [done|]. split; [done|].
    intros _. split; [done|]. intros owner ttl.
    destruct (LockResult.success _) eqn:Hs; [done|].
    apply acquireLock_fails_iff in Hs as (l' & Hl' & _). fold key in Hl'. congruence.
Qed.

(** X3. [withLock], for a body that leaves the lock map alone. When the
    key is held by another owner under an unexpired lock, the body is not
    run and the world is unchanged. Otherwise the body runs in the world
    where the key is locked by the caller until [now + ttl] minutes; on
    both exits (a returned value, a thrown error) the key is free
    afterwards and the result carries the value or the error message; and
    while the body runs, a [withLock] on the same key by any other owner
    before the lock's expiry does not run its body. *)
Theorem withLock_scoped :
  forall (T : Type) (rt : ResourceType) (id : string)
         (fn : World -> (string + T) * World) (ttl : Z) (owner : string) (now : Z)
         (w : World),
    (forall w0, locks (fn w0).2 = locks w0) ->
    let key := Locking.getLockKey rt id in
    let res := Locking.withLock rt id fn ttl owner now w in
    let held :=
      setLocks (<[key := ResourceLock.mk rt id owner now (now + ttl * 60000)]> (locks w))
        w in
    (heldByOther owner now (locks w) (rt, id) ->
       res.2 = w /\ WithLockResult.success res.1 = false
       /\ WithLockResult.result res.1 = None)
    /\ (~ heldByOther owner now (locks w) (rt, id) ->
        res.2 = setLocks (delete key (locks w)) (fn held).2
        /\ res.1 = match (fn held).1 with
                   | inr v => WithLockResult.mk true (Some v) None
                   | inl msg => WithLockResult.mk false None (Some msg)
                   end
        /\ forall (T' : Type) (fn' : World -> (string + T') * World)
                  (ttl' : Z) (other : string) (later : Z),
             other <> owner -> later < now + ttl * 60000 ->
             (Locking.withLock rt id fn' ttl' other later held).2 = held
             /\ WithLockResult.success
                  (Locking.withLock rt id fn' ttl' other later held).1 = false).
Proof.
  intros T rt id fn ttl owner now w Hframe key res held.
  assert (forall (T' : Type) (fn' : World -> (string + T') * World) ttl' other later w',
            heldByOther other later (locks w') (rt, id) ->
            (Locking.withLock rt id fn' ttl' other later w').2 = w'
            /\ WithLockResult.success
                 (Locking.withLock rt id fn' ttl' other later w').1 = false
            /\ WithLockResult.result
                 (Locking.withLock rt id fn' ttl' other later w').1 = None) as Hblocked.
  { intros T' fn' ttl' other later w' Hheld. unfold Locking.withLock.
    destruct (acquireLock_result other ttl' later (rt, id) (locks w'))
      as [(Hs & _ & Hst)|(_ & Hfree & _)]; [|done].
    simpl in Hs, Hst.
    destruct (Locking.acquireLock rt id other ttl' later (locks w')) as [lr l1].
    simpl in *. rewrite Hs. simpl. subst l1. by destruct w'. }
  split; [by apply Hblocked|].
  intros Hfree. subst res. unfold Locking.withLock.
  destruct (acquireLock_result owner ttl now (rt, id) (locks w))
    as [(_ & Hheld & _)|(Hs & _ & _ & Hst)]; [done|].
  simpl in Hs, Hst. change (resourceKey (rt, id)) with key in Hst.
  destruct (Locking.acquireLock rt id owner ttl now (locks w)) as [lr l1].
  simpl in Hs, Hst. rewrite Hs. simpl. subst l1. fold held.
  assert (locks (fn held).2 = locks held) as Hl by apply Hframe.
  destruct (fn held) as [outcome w1]. simpl in *.
  assert ((Locking.releaseLock rt id owner (locks w1)).2 = delete key (locks w)) as Hrel.
  { unfold Locking.releaseLock. fold key. rewrite Hl, lookup_insert_eq. simpl.
    rewrite bool_decide_eq_false_2 by (intros Hn; by apply Hn). simpl.
    apply delete_insert_eq. }
  rewrite Hrel. split; [by destruct outcome|]. split; [by destruct outcome|].
  intros T' fn' ttl' other later Hne Hlt.
  destruct (Hblocked T' fn' ttl' other later held) as (H1 & H2 & _); [|done].
  eexists. simpl. change (resourceKey (rt, id)) with key. rewrite lookup_insert_eq.
  split; [done|]. simpl. split; [lia|congruence].
Qed.

Lemma withLock_scoped_witness :
  (Locking.withLock R_table "table-1" (fun w0 => (inr 7, w0)) 2 "owner-1" sampleNow
     seedWorld).2 = seedWorld.
Proof.
  assert (~ heldByOther "owner-1" sampleNow (locks seedWorld) (R_table, "table-1")) as Hfree.
  { intros (l & Hl & _). vm_compute in Hl. discriminate. }
  destruct (proj2 (withLock_scoped Z R_table "table-1" (fun w0 => (inr 7, w0)) 2
                     "owner-1" sampleNow seedWorld (fun w0 => eq_refl)) Hfree)
    as (Hw & _).
  rewrite Hw. vm_compute. reflexivity.
Defined.

(** X4. [cleanupExpiredLocks] keeps exactly the locks whose expiry is after
    [now]; the number it returns lies between 0 and the number of locks,
    and is 0 exactly when no lock had expired; a second sweep at the same
    instant removes nothing. *)
Theorem cleanupExpiredLocks_spec :
  forall (now : Z) (locks : gmap string ResourceLock.t),
    let res := Locking.cleanupExpiredLocks now locks in
    (forall k l, res.2 !! k = Some l <->
                 locks !! k = Some l /\ now < ResourceLock.expiresAt l)
    /\ 0 <= res.1 <= Locking.getLockCount locks
    /\ (res.1 = 0 <->
        forall k l, locks !! k = Some l -> now < ResourceLock.expiresAt l)
    /\ Locking.cleanupExpiredLocks now res.2 = (0, res.2).
Proof.
  intros now locks res. subst res. unfold Locking.cleanupExpiredLocks. simpl.
  set (P := fun kl : string * ResourceLock.t => now < ResourceLock.expiresAt kl.2).
  pose proof (map_size_filter P locks) as Hle.
  split; [intros k l; apply (map_lookup_filter_Some P)|].
  split; [unfold Locking.getLockCount; lia|]. split.
  - split.
    + intros Hz k l Hl.
      assert (filter P locks = locks) as Heq.
      { apply map_subseteq_size_eq; [apply map_filter_subseteq|lia]. }
      rewrite <- Heq in Hl. by apply (map_lookup_filter_Some P) in Hl as [_ ?].
    + intros Hall. rewrite (map_filter_id P locks); [lia|].
      intros k l Hl. by apply (Hall k l).
  - rewrite (map_filter_id P (filter P locks)).
    + f_equal. lia.
    + intros k l Hl. by apply (map_lookup_filter_Some P) in Hl as [_ ?].
Qed.

Section ReleaseMultiple.
Variable owner : string.

Lemma releaseMultipleLocks_lookup rs : forall (locks : gmap string ResourceLock.t),
  (forall r l, r ∈ rs -> locks !! resourceKey r = Some l ->
               ResourceLock.lockedBy l = owner) ->
  forall k, Locking.releaseMultipleLocks rs owner locks !! k
            = if decide (k ∈ resourceKey <$> rs) then None else locks !! k.
Proof.
  induction rs as [|r rest IH]; intros locks Hown k; [done|].
  unfold Locking.releaseMultipleLocks in *. cbn [foldl].
  set (locks2 := (Locking.releaseLock r.1 r.2 owner locks).2).
  assert (forall k, locks2 !! k = if decide (k = resourceKey r) then None else locks !! k)
    as Hl2.
  { intros k'.
    apply (releaseLock_lookup owner (ResourceLock.mk r.1 r.2 "" 0 0) locks k').
    intros l. apply Hown, list_elem_of_here. }
  rewrite IH.
  - rewrite Hl2, fmap_cons.
    destruct (decide (k = resourceKey r)) as [->|Hne].
    + rewrite (decide_True (P := _ ∈ _ :: _)) by apply list_elem_of_here.
      by case_decide.
    + case_decide as Hin.
      * rewrite decide_True; [done|]. by apply list_elem_of_further.
      * rewrite decide_False; [done|]. rewrite elem_of_cons. tauto.
  - intros x l Hin. rewrite Hl2. case_decide; [done|].
    apply Hown. by apply list_elem_of_further.
Qed.
End ReleaseMultiple.

(** X5. Acquiring a set of resources and then releasing the same set: when
    [acquireMultipleLocks] succeeds, [releaseMultipleLocks] for the same
    resources and owner leaves every requested key free and every other key
    as it was before the acquisition. *)
Theorem acquire_then_release_multiple :
  forall (localeCompare : string -> string -> Z)
         (resources : list (ResourceType * string)) (owner : string) (ttl now : Z)
         (locks : gmap string ResourceLock.t),
    LockResult.success
      (Locking.acquireMultipleLocks localeCompare resources owner ttl now locks).1 = true ->
    forall k,
      Locking.releaseMultipleLocks resources owner
        (Locking.acquireMultipleLocks localeCompare resources owner ttl now locks).2 !! k
      = if decide (k ∈ resourceKey <$> resources) then None else locks !! k.
Proof.
  intros localeCompare resources owner ttl now locks Hs k.
  unfold Locking.acquireMultipleLocks in *.
  set (sorted := Locking.sortResources localeCompare resources) in *.
  assert (forall r, r ∈ sorted <-> r ∈ resources) as Hmem
    by (intros r; apply jsSort_elem).
  destruct (acquireEach_success owner ttl now sorted [] locks Hs) as (_ & Hframe & Hmine).
  rewrite releaseMultipleLocks_lookup.
  - case_decide as Hin; [done|]. apply Hframe. intros Hk. apply Hin.
    apply list_elem_of_fmap in Hk as (y & -> & Hy).
    apply list_elem_of_fmap. exists y. split; [done|]. by apply Hmem.
  - intros r l Hr Hl. destruct (Hmine r) as (l' & Hl' & Ho & _); [by apply Hmem|].
    congruence.
Qed.

Lemma acquire_then_release_multiple_witness :
  Locking.releaseMultipleLocks [(R_table, "2"); (R_table, "1")] "A"
    (Locking.acquireMultipleLocks codeUnitCompare [(R_table, "2"); (R_table, "1")]
       "A" 2 sampleNow ∅).2 !! "table:1"
  = None.
Proof.
  exact (acquire_then_release_multiple codeUnitCompare
           [(R_table, "2"); (R_table, "1")] "A" 2 sampleNow ∅ eq_refl "table:1").
Defined.

(** ** utils/timezone.ts *)

(** X6. The overlap test does not depend on the order of the two ranges;
    a range that starts exactly where another ends does not overlap it;
    and for two ranges that are not empty, the test is [true] exactly when
    some instant lies in both half-open ranges. *)
Theorem doTimeRangesOverlap_spec :
  forall s1 e1 s2 e2 : Z,
    Timezone.doTimeRangesOverlap s1 e1 s2 e2 = Timezone.doTimeRangesOverlap s2 e2 s1 e1
    /\ Timezone.doTimeRangesOverlap s1 e1 e1 e2 = false
    /\ (s1 < e1 -> s2 < e2 ->
        (Timezone.doTimeRangesOverlap s1 e1 s2 e2 = true <->
         exists t, s1 <= t < e1 /\ s2 <= t < e2)).
Proof.
  intros s1 e1 s2 e2. unfold Timezone.doTimeRangesOverlap.
  split; [apply andb_comm|]. split.
  - rewrite (bool_decide_eq_false_2 (e1 < e1)) by lia. apply andb_false_r.
  - intros H1 H2. rewrite andb_true_iff, !bool_decide_eq_true. split.
    + intros [Ha Hb]. exists (Z.max s1 s2). lia.
    + intros (t & Ht1 & Ht2). lia.
Qed.

(** ** data/store.ts: waiters *)

Lemma leastTables_least rest : forall first,
  Store.leastTables first rest ∈ first :: rest
  /\ forall w, w ∈ first :: rest ->
       (length (Waiter.assignedTables (Store.leastTables first rest))
        <= length (Waiter.assignedTables w))%nat.
Proof.
  unfold Store.leastTables.
  induction rest as [|x rest IH]; intros first; simpl.
  - split; [apply list_elem_of_here|].
    intros w Hw. apply list_elem_of_singleton in Hw as ->. lia.
  - case_decide as Hlt.
    + destruct (IH x) as [Hin Hmin]. split; [by apply list_elem_of_further|].
      intros w Hw. apply elem_of_cons in Hw as [->|Hw]; [|by apply Hmin].
      specialize (Hmin x (list_elem_of_here _ _)). lia.
    + destruct (IH first) as [Hin Hmin]. split.
      * apply elem_of_cons in Hin as [->|Hin]; [apply list_elem_of_here|].
        by do 2 apply list_elem_of_further.
      * intros w Hw. apply elem_of_cons in Hw as [->|Hw];
          [apply Hmin, list_elem_of_here|].
        apply elem_of_cons in Hw as [->|Hw].
        -- specialize (Hmin first (list_elem_of_here _ _)). lia.
        -- by apply Hmin, list_elem_of_further.
Qed.

(** X7. [findWithLeastTables] returns nothing only when no waiter is
    AVAILABLE or BUSY. When some waiter is AVAILABLE it returns an
    AVAILABLE waiter with the fewest assigned tables among the AVAILABLE
    ones; a BUSY waiter is returned only when none is AVAILABLE, and then
    it has the fewest assigned tables among the BUSY ones. A waiter on
    break or off duty is never returned. *)
Theorem findWithLeastTables_spec :
  forall items : JsMap.t Waiter.t,
    let among status (m : Waiter.t) :=
      m ∈ Store.getAll items /\ Waiter.status m = status
      /\ forall w, w ∈ Store.getAll items -> Waiter.status w = status ->
           (length (Waiter.assignedTables m) <= length (Waiter.assignedTables w))%nat in
    match Store.findWithLeastTables items with
    | None =>
        forall w, w ∈ Store.getAll items ->
                  Waiter.status w <> W_AVAILABLE /\ Waiter.status w <> W_BUSY
    | Some m =>
        ((exists w, w ∈ Store.getAll items /\ Waiter.status w = W_AVAILABLE) ->
         among W_AVAILABLE m)
        /\ (~ (exists w, w ∈ Store.getAll items /\ Waiter.status w = W_AVAILABLE) ->
            among W_BUSY m)
    end.
Proof.
  intros items among.
  assert (forall status w,
            w ∈ Store.findWaitersByStatus status items <->
            w ∈ Store.getAll items /\ Waiter.status w = status) as Hmem.
  { intros status w. unfold Store.findWaitersByStatus.
    by rewrite elem_of_List_filter, bool_decide_eq_true. }
  assert (forall status first rest,
            Store.findWaitersByStatus status items = first :: rest ->
            among status (Store.leastTables first rest)) as Hbest.
  { intros status first rest Heq.
    destruct (leastTables_least rest first) as [Hin Hmin].
    rewrite <- Heq in Hin, Hmin. apply Hmem in Hin as [Hin Hst].
    split; [done|]. split; [done|].
    intros w Hw Hs. apply Hmin. by apply Hmem. }
  unfold Store.findWithLeastTables.
  destruct (Store.findWaitersByStatus W_AVAILABLE items) as [|a available] eqn:Ha.
  - assert (~ (exists w, w ∈ Store.getAll items /\ Waiter.status w = W_AVAILABLE)) as Hno.
    { intros (w & Hw). apply Hmem in Hw. rewrite Ha in Hw. by apply elem_of_nil in Hw. }
    destruct (Store.findWaitersByStatus W_BUSY items) as [|b busy] eqn:Hb.
    + intros w Hw. split; intros Hs.
      * apply Hno. by exists w.
      * assert (w ∈ Store.findWaitersByStatus W_BUSY items) as Hin by by apply Hmem.
        rewrite Hb in Hin. by apply elem_of_nil in Hin.
    + split; [done|]. intros _. by apply Hbest.
  - split; [intros _; by apply Hbest|].
    intros Hno. exfalso. apply Hno. exists a. apply Hmem. rewrite Ha.
    apply list_elem_of_here.
Qed.

(** X8. Assigning a table to a waiter and taking it away again. For a
    waiter that is not stored both operations answer [false] and change
    nothing. For a stored waiter, [assignTable] answers [true] and the
    table is among the waiter's tables afterwards: the store is untouched
    when it already was, else the table is appended and the waiter is
    BUSY. A following [unassignTable] leaves the waiter with the tables
    held before the assignment minus that table, AVAILABLE when none is
    left and BUSY otherwise. No other waiter is touched. *)
Theorem assign_then_unassign :
  forall (items : JsMap.t Waiter.t) (waiterId tableId : string) (now later : Z),
    let assigned := Store.assignTable waiterId tableId now items in
    let unassigned := Store.unassignTable waiterId tableId later assigned.2 in
    (Store.getById waiterId items = None ->
       assigned = (false, items)
       /\ Store.unassignTable waiterId tableId later items = (false, items))
    /\ (forall waiter,
          Store.getById waiterId items = Some waiter ->
          assigned.1 = true /\ unassigned.1 = true
          /\ (tableId ∈ Waiter.assignedTables waiter -> assigned.2 = items)
          /\ (exists w1,
                Store.getById waiterId assigned.2 = Some w1
                /\ tableId ∈ Waiter.assignedTables w1
                /\ (tableId ∉ Waiter.assignedTables waiter ->
                    Waiter.assignedTables w1 = Waiter.assignedTables waiter ++ [tableId]
                    /\ Waiter.status w1 = W_BUSY))
          /\ (exists w2,
                Store.getById waiterId unassigned.2 = Some w2
                /\ Waiter.assignedTables w2
                   = List.filter (fun t => negb (bool_decide (t = tableId)))
                       (Waiter.assignedTables waiter)
                /\ (tableId ∉ Waiter.assignedTables w2)
                /\ Waiter.status w2
                   = (if decide (Waiter.assignedTables w2 = []) then W_AVAILABLE
                      else W_BUSY)
                /\ Waiter.id w2 = Waiter.id waiter
                /\ Waiter.name w2 = Waiter.name waiter)
          /\ forall other, other <> waiterId ->
               Store.getById other unassigned.2 = Store.getById other items).
Proof.
  intros items waiterId tableId now later assigned unassigned.
  subst unassigned assigned. split.
  - intros Hnone. unfold Store.assignTable, Store.unassignTable. by rewrite Hnone.
  - intros waiter Hw.
    assert (forall (its : JsMap.t Waiter.t) wt,
              Store.getById waiterId its = Some wt ->
              let newTables :=
                List.filter (fun t => negb (bool_decide (t = tableId)))
                  (Waiter.assignedTables wt) in
              Store.unassignTable waiterId tableId later its
              = (true,
                 JsMap.set waiterId
                   (Waiter.mk (Waiter.id wt) (Waiter.name wt)
                      (match newTables with [] => W_AVAILABLE | _ => W_BUSY end)
                      newTables (Waiter.createdAt wt) later) its)) as Hun.
    { intros its wt Hwt. unfold Store.unassignTable. rewrite Hwt.
      by rewrite (update_existing _ _ _ _ wt Hwt). }
    assert (forall l : list string,
              tableId ∉ List.filter (fun t => negb (bool_decide (t = tableId))) l)
      as Hgone.
    { intros l Hin. apply elem_of_List_filter in Hin as [_ Hin].
      by rewrite bool_decide_eq_true_2 in Hin. }
    assert (forall l : list string,
              (match l with [] => W_AVAILABLE | _ => W_BUSY end)
              = if decide (l = []) then W_AVAILABLE else W_BUSY) as Hst
      by (by intros [|? ?]).
    unfold Store.assignTable. rewrite Hw.
    destruct (decide (tableId ∈ Waiter.assignedTables waiter)) as [Hin|Hnin].
    + rewrite bool_decide_eq_true_2 by done. simpl.
      rewrite (Hun items waiter Hw). simpl.
      split; [done|]. split; [done|]. split; [done|].
      split; [exists waiter; by split; [|split]|].
      split.
      * eexists. split; [apply JsMapFacts.get_set_eq|]. simpl.
        split; [done|]. split; [apply Hgone|]. split; [apply Hst|done].
      * intros other Hne. by apply JsMapFacts.get_set_ne.
    + rewrite bool_decide_eq_false_2 by done.
      rewrite (update_existing _ _ _ _ waiter Hw). simpl.
      set (w1 := Waiter.mk (Waiter.id waiter) (Waiter.name waiter) W_BUSY
                   (Waiter.assignedTables waiter ++ [tableId])
                   (Waiter.createdAt waiter) now).
      assert (Store.getById waiterId (JsMap.set waiterId w1 items) = Some w1) as H1
        by apply JsMapFacts.get_set_eq.
      rewrite (Hun _ w1 H1). simpl.
      assert (List.filter (fun t => negb (bool_decide (t = tableId)))
                (Waiter.assignedTables waiter ++ [tableId])
              = List.filter (fun t => negb (bool_decide (t = tableId)))
                  (Waiter.assignedTables waiter)) as Hf.
      { rewrite List.filter_app. simpl. rewrite bool_decide_eq_true_2 by done.
        simpl. apply app_nil_r. }
      split; [done|]. split; [done|]. split; [done|].
      split.
      { exists w1. split; [done|]. split; [|done]. simpl.
        apply elem_of_app. right. apply list_elem_of_here. }
      split.
      * eexists. split; [apply JsMapFacts.get_set_eq|]. simpl. rewrite Hf.
        split; [done|]. split; [apply Hgone|]. split; [apply Hst|done].
      * intros other Hne. unfold Store.getById.
        rewrite !JsMapFacts.get_set_ne by done. done.
Qed.

(** ** Table availability: reservationService.ts and availabilityService.ts *)

Lemma List_filter_nil_iff {A} (f : A -> bool) (l : list A) :
  List.filter f l = [] <-> forall x, x ∈ l -> f x = false.
Proof.
  split; [apply List_filter_nil|].
  induction l as [|a l IH]; intros Hall; simpl; [done|].
  rewrite (Hall a (list_elem_of_here _ _)). apply IH.
  intros x Hx. by apply Hall, list_elem_of_further.
Qed.

Lemma StronglySorted_impl {A} (R S : A -> A -> Prop) (l : list A) :
  (forall a b, R a b -> S a b) -> StronglySorted R l -> StronglySorted S l.
Proof.
  intros HRS. induction 1 as [|a l Hl IH Hall]; constructor; [done|].
  eapply List.Forall_impl; [|exact Hall]. apply HRS.
Qed.

Lemma isTableAvailable_true tableId startTime endTime w :
  AvailabilityService.isTableAvailable tableId startTime endTime w = true <->
  exists t,
    Store.getById tableId (tables w) = Some t
    /\ Table.status t <> T_OUT_OF_SERVICE
    /\ forall r, r ∈ Store.getAll (reservations w) -> ~ blocks tableId startTime endTime r.
Proof.
  unfold AvailabilityService.isTableAvailable.
  destruct (Store.getById tableId (tables w)) as [t|]; [|split; [done|by intros (? & ? & _)]].
  assert (forall r,
            r ∈ Store.findByTimeRange startTime endTime (reservations w) <->
            r ∈ Store.getAll (reservations w)
            /\ Timezone.doTimeRangesOverlap startTime endTime
                 (Reservation.startTime r) (Reservation.endTime r) = true) as Hrange.
  { intros r. unfold Store.findByTimeRange, Timezone.doTimeRangesOverlap.
    rewrite elem_of_List_filter. by rewrite andb_comm. }
  case_bool_decide as Hst.
  - split; [done|]. by intros (t' & [= <-] & Hne & _).
  - rewrite bool_decide_eq_true, length_zero_iff_nil, List_filter_nil_iff. split.
    + intros Hnone. exists t. split; [done|]. split; [done|].
      intros r Hr (Htab & Hact & Hov).
      specialize (Hnone r (proj2 (Hrange r) (conj Hr Hov))).
      unfold isActive in Hact. rewrite <- !andb_assoc in Hnone.
      rewrite (bool_decide_eq_true_2 _ Htab) in Hnone. simpl in Hnone.
      rewrite andb_assoc in Hnone. congruence.
    + intros (t' & _ & _ & Hfree) r Hr. apply Hrange in Hr as [Hr Hov].
      destruct (bool_decide (Reservation.tableId r = Some tableId)) eqn:Htab; [|done].
      apply bool_decide_eq_true in Htab. simpl.
      destruct (bool_decide (Reservation.status r <> CANCELLED)
                && bool_decide (Reservation.status r <> COMPLETED)
                && bool_decide (Reservation.status r <> NO_SHOW)) eqn:Hact; [|done].
      exfalso. by apply (Hfree r Hr).
Qed.

Lemma findAvailableTables_elem startTime endTime partySize exclude w t :
  t ∈ ReservationService.findAvailableTables startTime endTime partySize exclude w <->
  t ∈ Store.getAll (tables w)
  /\ partySize <= Table.capacity t
  /\ Table.status t <> T_OUT_OF_SERVICE
  /\ forall r, r ∈ Store.getAll (reservations w) ->
               blocks (Table.id t) startTime endTime r ->
               Some (Reservation.id r) = exclude.
Proof.
  unfold ReservationService.findAvailableTables.
  rewrite jsSort_elem, !elem_of_List_filter.
  unfold Store.findByCapacity. rewrite elem_of_List_filter, !bool_decide_eq_true.
  rewrite length_zero_iff_nil, List_filter_nil_iff.
  split.
  - intros [[[Hin Hcap] Hst] Hnone]. do 3 (split; [done|]).
    intros r Hr (Htab & Hact & Hov).
    destruct (decide (Some (Reservation.id r) = exclude)) as [|Hex]; [done|].
    exfalso.
    assert (bool_decide (Reservation.tableId r = Some (Table.id t)) = false) as Hf.
    { apply Hnone. apply elem_of_List_filter. split.
      - unfold Store.findByTimeRange. apply elem_of_List_filter. split; [done|].
        unfold Timezone.doTimeRangesOverlap in Hov. by rewrite andb_comm.
      - unfold isActive in Hact. rewrite Hact. by apply bool_decide_eq_true. }
    by apply bool_decide_eq_false in Hf.
  - intros (Hin & Hcap & Hst & Hfree). split; [done|].
    intros r Hr. apply elem_of_List_filter in Hr as [Hr Hkeep].
    unfold Store.findByTimeRange in Hr. apply elem_of_List_filter in Hr as [Hr Hov].
    apply andb_true_iff in Hkeep as [Hact Hex]. apply bool_decide_eq_true in Hex.
    apply bool_decide_eq_false. intros Htab. apply Hex, (Hfree r Hr).
    split; [done|]. split; [done|].
    unfold Timezone.doTimeRangesOverlap. by rewrite andb_comm.
Qed.

(** X9. [findAvailableTables] returns exactly the stored tables that seat
    the party, are not out of service and have no active reservation
    (other than the excluded one) overlapping the window; it lists them by
    ascending capacity, each as often as the store holds it. *)
Theorem findAvailableTables_spec :
  forall (startTime endTime partySize : Z) (exclude : option string) (w : World),
    let found :=
      ReservationService.findAvailableTables startTime endTime partySize exclude w in
    (forall t,
        t ∈ found <->
        t ∈ Store.getAll (tables w)
        /\ partySize <= Table.capacity t
        /\ Table.status t <> T_OUT_OF_SERVICE
        /\ forall r, r ∈ Store.getAll (reservations w) ->
                     blocks (Table.id t) startTime endTime r ->
                     Some (Reservation.id r) = exclude)
    /\ StronglySorted (fun a b => Table.capacity a <= Table.capacity b) found
    /\ (length found <= length (Store.getAll (tables w)))%nat.
Proof.
  intros startTime endTime partySize exclude w found. subst found.
  split; [intros t; apply findAvailableTables_elem|].
  unfold ReservationService.findAvailableTables. split.
  - eapply StronglySorted_impl; [|apply jsSort_sorted].
    + simpl. intros a b. lia.
    + intros a b. lia.
    + intros a b c. lia.
  - rewrite (Permutation_length (jsSort_perm _ _)).
    etransitivity; [apply List.filter_length_le|].
    etransitivity; [apply List.filter_length_le|].
    unfold Store.findByCapacity. apply List.filter_length_le.
Qed.

(** X10. For a table stored under its own identifier that seats the
    party, [isTableAvailable] and [findAvailableTables] agree: the
    availability check answers [true] exactly when the table is among the
    tables found for the same window. An unknown table identifier is never
    available. *)
Theorem isTableAvailable_agrees :
  forall (t : Table.t) (startTime endTime partySize : Z) (w : World),
    Store.getById (Table.id t) (tables w) = Some t ->
    partySize <= Table.capacity t ->
    (AvailabilityService.isTableAvailable (Table.id t) startTime endTime w = true <->
     t ∈ ReservationService.findAvailableTables startTime endTime partySize None w)
    /\ forall unknown,
         Store.getById unknown (tables w) = None ->
         AvailabilityService.isTableAvailable unknown startTime endTime w = false.
Proof.
  intros t startTime endTime partySize w Hget Hcap. split.
  - rewrite isTableAvailable_true.
    rewrite findAvailableTables_elem. split.
    + intros (t' & Hget' & Hst & Hfree). assert (t' = t) as -> by congruence.
      split; [by apply (JsMapFacts.get_Some_values (Table.id t))|].
      do 2 (split; [done|]). intros r Hr Hb. by destruct (Hfree r Hr).
    + intros (_ & _ & Hst & Hfree). exists t. do 2 (split; [done|]).
      intros r Hr Hb. by specialize (Hfree r Hr Hb).
  - intros unknown Hnone. unfold AvailabilityService.isTableAvailable. by rewrite Hnone.
Qed.

Lemma isTableAvailable_agrees_witness :
  (AvailabilityService.isTableAvailable "table-1" (sampleNow + 3600000)
     (sampleNow + 9000000) seedWorld = true <->
   Table.mk "table-1" 1 2 T_AVAILABLE (Some "Main") 0 0
     ∈ ReservationService.findAvailableTables (sampleNow + 3600000)
         (sampleNow + 9000000) 2 None seedWorld)
  /\ forall unknown,
       Store.getById unknown (tables seedWorld) = None ->
       AvailabilityService.isTableAvailable unknown (sampleNow + 3600000)
         (sampleNow + 9000000) seedWorld = false.
Proof.
  apply (isTableAvailable_agrees (Table.mk "table-1" 1 2 T_AVAILABLE (Some "Main") 0 0)
           (sampleNow + 3600000) (sampleNow + 9000000) 2 seedWorld).
  - vm_compute. reflexivity.
  - simpl. lia.
Defined.

Lemma jsSort_head_least {A} (cmp : A -> A -> Z) (l : list A) h :
  (forall a b, cmp a b <= 0 \/ cmp b a <= 0) ->
  (forall a b c, cmp a b <= 0 -> cmp b c <= 0 -> cmp a c <= 0) ->
  head (jsSort cmp l) = Some h ->
  h ∈ l /\ forall y, y ∈ l -> cmp h y <= 0.
Proof.
  intros Htotal Htrans Hhead.
  pose proof (jsSort_sorted cmp Htotal Htrans l) as Hsorted.
  pose proof (fun y => jsSort_elem cmp y l) as Helem.
  destruct (jsSort cmp l) as [|h' tl]; [done|]. injection Hhead as ->.
  split; [apply Helem, list_elem_of_here|].
  intros y Hy. apply Helem, elem_of_cons in Hy as [->|Hy].
  - by destruct (Htotal h h).
  - apply StronglySorted_inv in Hsorted as [_ Hall].
    rewrite List.Forall_forall in Hall. by apply Hall, list_elem_of_In.
Qed.

Section SlotLoop.
Import AvailabilityService Timezone.
Variables (suitableTables : list Table.t) (durationMinutes now : Z) (w : World).

End SlotLoop.




(** ** Choosing a table: walkInService.ts and availabilityService.ts *)

(** X12. [findBestTableForWalkIn] finds nothing exactly when no stored
    table is AVAILABLE with room for the party; otherwise it returns such a
    table of the smallest capacity there is among them (a table of exactly
    the party's size when one is free). *)
Theorem findBestTableForWalkIn_spec :
  forall (partySize : Z) (w : World),
    match WalkInService.findBestTableForWalkIn partySize w with
    | None => forall t, ~ freeTable partySize w t
    | Some best =>
        freeTable partySize w best
        /\ forall t, freeTable partySize w t -> Table.capacity best <= Table.capacity t
    end.
Proof.
  intros partySize w. unfold WalkInService.findBestTableForWalkIn.
  pose proof (findAvailableForPartySize_elem partySize w) as Hfree.
  destruct (Store.findAvailableForPartySize partySize (tables w)) as [|t0 rest] eqn:Hav.
  - intros t Ht. apply Hfree in Ht. by apply elem_of_nil in Ht.
  - set (cmp := fun a b : Table.t => _).
    destruct (head (jsSort cmp (t0 :: rest))) as [best|] eqn:Hhead.
    + apply jsSort_head_least in Hhead as [Hin Hleast].
      * split; [by apply Hfree|]. intros t Ht.
        pose proof Ht as (_ & _ & Hcap). apply Hfree in Ht.
        apply Hfree in Hin as (_ & _ & Hcapb).
        specialize (Hleast t Ht). unfold cmp in Hleast.
        repeat case_decide; lia.
      * intros a b. unfold cmp. repeat case_decide; lia.
      * intros a b c. unfold cmp. repeat case_decide; lia.
    + exfalso. destruct (jsSort cmp (t0 :: rest)) eqn:Hs; [|done].
      by apply jsSort_nil in Hs.
Qed.


(** ** Creating a reservation: reservationService.ts *)

Lemma withLock_cases {T : Type} rt id (fn : World -> (string + T) * World)
    ttl owner now w :
  let key := Locking.getLockKey rt id in
  let held :=
    setLocks (<[key := ResourceLock.mk rt id owner now (now + ttl * 60000)]> (locks w))
      w in
  (exists l,
      locks w !! key = Some l
      /\ now < ResourceLock.expiresAt l /\ ResourceLock.lockedBy l <> owner
      /\ Locking.withLock rt id fn ttl owner now w
         = (WithLockResult.mk false None
              (Some ("Resource is locked by another process until " +:+
                     Timezone.toISOString (ResourceLock.expiresAt l))), w))
  \/ (~ heldByOther owner now (locks w) (rt, id)
      /\ Locking.withLock rt id fn ttl owner now w
         = (match (fn held).1 with
            | inr v => WithLockResult.mk true (Some v) None
            | inl msg => WithLockResult.mk false None (Some msg)
            end,
            setLocks (Locking.releaseLock rt id owner (locks (fn held).2)).2
              (fn held).2)).
Proof.
  intros key held. unfold Locking.withLock, Locking.acquireLock. fold key.
  assert (forall lock : ResourceLock.t,
             lock = ResourceLock.mk rt id owner now (now + ttl * 60000) ->
             ~ heldByOther owner now (locks w) (rt, id) ->
             (let '(outcome, w1) := fn (setLocks (<[key := lock]> (locks w)) w) in
              let w2 :=
                setLocks (Locking.releaseLock rt id owner (locks w1)).2 w1 in
              match outcome with
              | inr result => (WithLockResult.mk true (Some result) None, w2)
              | inl msg => (WithLockResult.mk false None (Some msg), w2)
              end)
             = (match (fn held).1 with
                | inr v => WithLockResult.mk true (Some v) None
                | inl msg => WithLockResult.mk false None (Some msg)
                end,
                setLocks (Locking.releaseLock rt id owner (locks (fn held).2)).2
                  (fn held).2)) as Hrun.
  { intros lock -> _. fold held. destruct (fn held) as [[msg|v] w1]; done. }
  destruct (locks w !! key) as [l|] eqn:Hl.
  - destruct (bool_decide (now < ResourceLock.expiresAt l)
              && bool_decide (ResourceLock.lockedBy l <> owner)) eqn:Hb.
    + left. apply andb_true_iff in Hb as [Hexp Hown%bool_decide_eq_true].
      apply bool_decide_eq_true in Hexp. exists l. simpl. by destruct w.
    + right.
      assert (~ heldByOther owner now (locks w) (rt, id)) as Hfree.
      { intros (l' & Hl' & Hexp & Hown). change (resourceKey (rt, id)) with key in Hl'.
        assert (l' = l) as -> by congruence.
        rewrite bool_decide_eq_true_2, bool_decide_eq_true_2 in Hb by done. done. }
      split; [done|]. simpl. by apply Hrun.
  - right.
    assert (~ heldByOther owner now (locks w) (rt, id)) as Hfree.
    { intros (l' & Hl' & _). change (resourceKey (rt, id)) with key in Hl'. congruence. }
    split; [done|]. simpl. by apply Hrun.
Qed.

Lemma releaseLock_own rt id owner lock (locks : gmap string ResourceLock.t) :
  ResourceLock.lockedBy lock = owner ->
  (Locking.releaseLock rt id owner (<[Locking.getLockKey rt id := lock]> locks)).2
  = delete (Locking.getLockKey rt id) locks.
Proof.
  intros Hown. unfold Locking.releaseLock. rewrite lookup_insert_eq.
  rewrite bool_decide_eq_false_2 by (intros Hn; by apply Hn). simpl.
  apply delete_insert_eq.
Qed.

Lemma validateCreateRequest_success tzdata request now :
  success (ReservationService.validateCreateRequest tzdata request now) = true <->
  1 <= CreateReservationRequest.partySize request <= 20
  /\ isBlank (CreateReservationRequest.customerName request) = false
  /\ exists startTime,
       CreateReservationRequest.startTime request = TimeInstant startTime
       /\ now < startTime
       /\ (orString (CreateReservationRequest.timezone request) "" = ""
           \/ Timezone.isValidTimezone tzdata
                (orString (CreateReservationRequest.timezone request) "") = true).
Proof.
  unfold ReservationService.validateCreateRequest, Timezone.isFutureDateTime.
  case_bool_decide as Hlow; [split; [done|intros (? & ? & ?); lia]|].
  case_bool_decide as Hhigh; [split; [done|intros (? & ? & ?); lia]|].
  destruct (isBlank _); [split; [done|by intros (? & ? & ?)]|].
  destruct (CreateReservationRequest.startTime request) as [| |startTime];
    try (split; [done|by intros (_ & _ & ? & ? & _)]).
  set (tz := orString _ "").
  destruct (decide (tz = "")) as [Htz|Htz].
  - rewrite (bool_decide_eq_true_2 _ Htz). simpl.
    case_bool_decide as Hfut; simpl.
    + split; [|done]. intros _. split; [lia|]. split; [done|]. exists startTime. eauto.
    + split; [done|]. intros (_ & _ & s & [= <-] & Hs & _). lia.
  - rewrite (bool_decide_eq_false_2 _ Htz). simpl.
    destruct (Timezone.isValidTimezone tzdata tz) eqn:Hz; simpl.
    + case_bool_decide as Hfut; simpl.
      * split; [|done]. intros _. split; [lia|]. split; [done|]. exists startTime. eauto.
      * split; [done|]. intros (_ & _ & s & [= <-] & Hs & _). lia.
    + split; [done|]. intros (_ & _ & s & _ & _ & [Hzone|Hzone]); done.
Qed.



Lemma selectTable_thrown request startTime endTime w thrown :
  ReservationService.selectTable request startTime endTime w = inl thrown ->
  thrown = ReservationService.TABLE_NOT_FOUND
  \/ thrown = ReservationService.NO_AVAILABILITY.
Proof.
  unfold ReservationService.selectTable.
  destruct (bool_decide (orString _ "" <> "")).
  - destruct (Store.getById _ (tables w)); [|intros [= <-]; by left].
    destruct (List.find _ _); [done|].
    destruct (ReservationService.findAvailableTables _ _ _ _ _); [|done].
    intros [= <-]. by right.
  - destruct (ReservationService.findAvailableTables _ _ _ _ _); [|done].
    intros [= <-]. by right.
Qed.

Lemma createReservationBody_created request startTime endTime timezone
    customerUuid reservationUuid now w t :
  ReservationService.selectTable request startTime endTime w = inr t ->
  exists w',
    let customerId :=
      match knownCustomer request w with
      | Some c => Customer.id c
      | None => customerUuid
      end in
    let new :=
      Reservation.mk reservationUuid customerId
        (CreateReservationRequest.customerName request)
        (CreateReservationRequest.partySize request)
        (Some (Table.id t))
        (Waiter.id <$> Store.findWithLeastTables (waiters w))
        startTime endTime CONFIRMED false timezone
        (CreateReservationRequest.notes request) now now 1 in
    ReservationService.createReservationBody request startTime endTime timezone
      customerUuid reservationUuid now w = (inr new, w')
    /\ reservations w' = JsMap.set reservationUuid new (reservations w)
    /\ tables w'
       = (Store.update (T := Table.t) (Table.id t)
            (TablePatch.ofStatus T_RESERVED) now (tables w)).2
    /\ locks w' = locks w
    /\ timers w' = timers w
    /\ customers w'
       = match knownCustomer request w with
         | Some _ => customers w
         | None =>
             JsMap.set customerUuid
               (Customer.mk customerUuid (CreateReservationRequest.customerName request)
                  (CreateReservationRequest.customerPhone request)
                  (CreateReservationRequest.customerEmail request) None now now)
               (customers w)
         end
    /\ waiters w'
       = match Store.findWithLeastTables (waiters w) with
         | Some waiter =>
             (Store.assignTable (Waiter.id waiter) (Table.id t) now (waiters w)).2
         | None => waiters w
         end.
Proof.
  intros Hsel. unfold ReservationService.createReservationBody. rewrite Hsel.
  fold (knownCustomer request w).
  destruct (knownCustomer request w) as [c|]; simpl;
    destruct (Store.findWithLeastTables (waiters w)) as [wt|]; simpl;
    eexists; repeat split.
Qed.

Lemma createReservation_cases tzdata request lockOwner customerUuid reservationUuid
    now w :
  let validation := ReservationService.validateCreateRequest tzdata request now in
  let res :=
    ReservationService.createReservation tzdata request lockOwner customerUuid
      reservationUuid now w in
  (success validation = false /\ res = (mkResult false None (error validation), w))
  \/ exists startTime,
       CreateReservationRequest.startTime request = TimeInstant startTime
       /\ success validation = true
       /\ let endTime :=
            startTime
            + orNumber (CreateReservationRequest.durationMinutes request) 90 * 60000 in
          let timezone := orString (CreateReservationRequest.timezone request) "UTC" in
          let lockId := "timeslot:" +:+ Timezone.toISOString startTime in
          let key := Locking.getLockKey R_timeslot lockId in
          (exists l,
              locks w !! key = Some l
              /\ now < ResourceLock.expiresAt l /\ ResourceLock.lockedBy l <> lockOwner
              /\ res = (failWith
                          ("Resource is locked by another process until " +:+
                           Timezone.toISOString (ResourceLock.expiresAt l))
                          "An unknown error occurred", w))
          \/ (~ heldByOther lockOwner now (locks w) (R_timeslot, lockId)
              /\ ((exists thrown,
                      ReservationService.selectTable request startTime endTime w
                        = inl thrown
                      /\ res = (failWith thrown (ReservationService.getErrorMessage thrown),
                                setLocks (delete key (locks w)) w))
                  \/ (exists t w',
                         ReservationService.selectTable request startTime endTime w = inr t
                         /\ let new :=
                              Reservation.mk reservationUuid
                                (match knownCustomer request w with
                                 | Some c => Customer.id c
                                 | None => customerUuid
                                 end)
                                (CreateReservationRequest.customerName request)
                                (CreateReservationRequest.partySize request)
                                (Some (Table.id t))
                                (Waiter.id <$> Store.findWithLeastTables (waiters w))
                                startTime endTime CONFIRMED false timezone
                                (CreateReservationRequest.notes request) now now 1 in
                            res = (mkResult true (Some new) None, w')
                            /\ reservations w' = JsMap.set reservationUuid new (reservations w)
                            /\ tables w'
                               = (Store.update (T := Table.t) (Table.id t)
                                    (TablePatch.ofStatus T_RESERVED) now (tables w)).2
                            /\ locks w' = delete key (locks w)
                            /\ timers w' = timers w
                            /\ customers w'
                               = match knownCustomer request w with
                                 | Some _ => customers w
                                 | None =>
                                     JsMap.set customerUuid
                                       (Customer.mk customerUuid
                                          (CreateReservationRequest.customerName request)
                                          (CreateReservationRequest.customerPhone request)
                                          (CreateReservationRequest.customerEmail request)
                                          None now now)
                                       (customers w)
                                 end
                            /\ waiters w'
                               = match Store.findWithLeastTables (waiters w) with
                                 | Some waiter =>
                                     (Store.assignTable (Waiter.id waiter) (Table.id t)
                                        now (waiters w)).2
                                 | None => waiters w
                                 end))).
Proof.
  intros validation res. subst res. unfold ReservationService.createReservation.
  fold validation.
  destruct (success validation) eqn:Hv; [|left; by destruct (CreateReservationRequest.startTime request)].
  pose proof (proj1 (validateCreateRequest_success tzdata request now) Hv)
    as (_ & _ & startTime & Hstart & _).
  rewrite Hstart. right. exists startTime. split; [done|]. split; [done|].
  change Timezone.DEFAULT_TIMEZONE with "UTC".
  change (Timezone.calculateEndTime startTime
            (orNumber (CreateReservationRequest.durationMinutes request)
               Timezone.DEFAULT_DURATION_MINUTES))
    with (startTime
          + orNumber (CreateReservationRequest.durationMinutes request) 90 * 60000).
  set (endTime := startTime + _ * 60000).
  set (timezone := orString _ "UTC").
  set (lockId := "timeslot:" +:+ Timezone.toISOString startTime).
  set (key := Locking.getLockKey R_timeslot lockId).
  set (body := ReservationService.createReservationBody request startTime endTime
                 timezone customerUuid reservationUuid now).
  destruct (withLock_cases R_timeslot lockId body Locking.DEFAULT_LOCK_TIMEOUT_MINUTES
              lockOwner now w) as [(l & Hl & Hexp & Hown & ->)|[Hfree ->]].
  - left. exists l. do 3 (split; [done|]). simpl.
    reflexivity.
  - right. split; [done|].
    set (held := setLocks _ w).
    destruct (ReservationService.selectTable request startTime endTime w)
      as [thrown|t] eqn:Hsel.
    + left. exists thrown. split; [done|].
      assert (body held = (inl thrown, held)) as ->.
      { unfold body, ReservationService.createReservationBody.
        change (ReservationService.selectTable request startTime endTime held)
          with (ReservationService.selectTable request startTime endTime w).
        by rewrite Hsel. }
      destruct (selectTable_thrown _ _ _ _ _ Hsel) as [-> | ->]; simpl; fold key;
        by rewrite (releaseLock_own R_timeslot lockId lockOwner).
    + right.
      destruct (createReservationBody_created request startTime endTime timezone
                  customerUuid reservationUuid now held t Hsel)
        as (w' & Hbody & Hrs & Htabs & Hlocks & Htimers & Hcs & Hws).
      exists t.
      fold body in Hbody. rewrite Hbody. simpl.
      eexists. split; [done|]. simpl. split; [reflexivity|].
      split; [exact Hrs|]. split; [exact Htabs|].
      split; [|split; [exact Htimers|split; [exact Hcs|exact Hws]]].
      rewrite Hlocks. simpl. fold key.
      by rewrite (releaseLock_own R_timeslot lockId lockOwner).
Qed.


(** X14. The table a reservation gets. [TABLE_NOT_FOUND] is thrown
    exactly for a preferred table that is not stored, [NO_AVAILABILITY]
    exactly when no table is available and the preferred one, if any, is
    stored; no other error is thrown. The preferred table is taken when a
    table with its identifier is among the available ones; when it is
    stored but not available, or none is asked for, the first available
    table is taken, which has the smallest capacity of them. *)
Theorem selectTable_spec :
  forall (request : CreateReservationRequest.t) (startTime endTime : Z) (w : World),
    let available :=
      ReservationService.findAvailableTables startTime endTime
        (CreateReservationRequest.partySize request) None w in
    let preferredId := orString (CreateReservationRequest.preferredTableId request) "" in
    match ReservationService.selectTable request startTime endTime w with
    | inl thrown =>
        (thrown = ReservationService.TABLE_NOT_FOUND
         /\ preferredId <> "" /\ Store.getById preferredId (tables w) = None)
        \/ (thrown = ReservationService.NO_AVAILABILITY
            /\ available = []
            /\ (preferredId = "" \/ Store.getById preferredId (tables w) <> None))
    | inr t =>
        (preferredId <> ""
         /\ Store.getById preferredId (tables w) = Some t
         /\ exists t', t' ∈ available /\ Table.id t' = preferredId)
        \/ (head available = Some t
            /\ (preferredId = ""
                \/ (Store.getById preferredId (tables w) <> None
                    /\ forall t', t' ∈ available -> Table.id t' <> preferredId))
            /\ forall t', t' ∈ available -> Table.capacity t <= Table.capacity t')
    end.
Proof.
  intros request startTime endTime w available preferredId.
  assert (forall t, head available = Some t ->
                    forall t', t' ∈ available -> Table.capacity t <= Table.capacity t')
    as Hsmallest.
  { intros t Hhead t' Ht'.
    unfold available, ReservationService.findAvailableTables in Hhead, Ht'.
    apply jsSort_elem in Ht'.
    by apply (jsSort_least Table.capacity _ _ Hhead). }
  unfold ReservationService.selectTable. fold preferredId available.
  case_bool_decide as Hpref.
  - destruct (Store.getById preferredId (tables w)) as [preferred|] eqn:Hget;
      [|left; done].
    destruct (List.find _ available) as [t'|] eqn:Hfind.
    + left. split; [done|]. split; [done|].
      apply find_some in Hfind as [Hin Hid%bool_decide_eq_true].
      exists t'. split; [by apply list_elem_of_In|done].
    + assert (forall t', t' ∈ available -> Table.id t' <> preferredId) as Hnone.
      { intros t' Ht'. apply (find_None_all _ _ Hfind) in Ht'.
        by apply bool_decide_eq_false in Ht'. }
      destruct available as [|first rest] eqn:Hav.
      * right. split; [done|]. split; [done|]. by right.
      * right. split; [done|]. split; [by right|]. by apply Hsmallest.
  - destruct available as [|first rest] eqn:Hav.
    + right. split; [done|]. split; [done|]. by left.
    + right. split; [done|]. split; [by left|]. by apply Hsmallest.
Qed.




(** ** Seating a walk-in: walkInService.ts *)











(** ** Changing a reservation's status: reservationService.ts *)

Lemma setReservations_same w : setReservations (reservations w) w = w.
Proof. by destruct w. Qed.

Lemma updateReservationStatus_cases id newStatus expectedVersion now w :
  let res :=
    ReservationService.updateReservationStatus id newStatus expectedVersion now w in
  (Store.getById id (reservations w) = None
   /\ res.2 = w /\ success res.1 = false /\ data res.1 = None
   /\ code <$> error res.1 = Some ReservationService.RESERVATION_NOT_FOUND)
  \/ exists existing,
       Store.getById id (reservations w) = Some existing
       /\ ((ReservationService.isValidStatusTransition
              (Reservation.status existing) newStatus = false
            /\ res.2 = w /\ success res.1 = false /\ data res.1 = None
            /\ code <$> error res.1 = Some ReservationService.INVALID_STATUS_TRANSITION)
           \/ (ReservationService.isValidStatusTransition
                 (Reservation.status existing) newStatus = true
               /\ Reservation.version existing <> expectedVersion
               /\ res.2 = w /\ success res.1 = false /\ data res.1 = None
               /\ code <$> error res.1 = Some ReservationService.CONCURRENT_MODIFICATION)
           \/ (ReservationService.isValidStatusTransition
                 (Reservation.status existing) newStatus = true
               /\ Reservation.version existing = expectedVersion
               /\ let updated :=
                    Reservation.mk (Reservation.id existing)
                      (Reservation.customerId existing)
                      (Reservation.customerName existing)
                      (Reservation.partySize existing)
                      (Reservation.tableId existing)
                      (Reservation.waiterId existing)
                      (Reservation.startTime existing)
                      (Reservation.endTime existing)
                      newStatus
                      (Reservation.isWalkIn existing)
                      (Reservation.timezone existing)
                      (Reservation.notes existing)
                      (Reservation.createdAt existing) now
                      (Reservation.version existing + 1) in
                  let tableId := orString (Reservation.tableId existing) "" in
                  let ended := bool_decide (newStatus ∈ [COMPLETED; CANCELLED; NO_SHOW]) in
                  res.1 = succeed updated
                  /\ reservations res.2 = JsMap.set id updated (reservations w)
                  /\ tables res.2
                     = (if bool_decide (tableId <> "") then
                          if bool_decide (newStatus = SEATED) then
                            (Store.update (T := Table.t) tableId
                               (TablePatch.ofStatus T_OCCUPIED) now (tables w)).2
                          else if ended then
                            (Store.update (T := Table.t) tableId
                               (TablePatch.ofStatus T_CLEANING) now (tables w)).2
                          else tables w
                        else tables w)
                  /\ timers res.2
                     = (if bool_decide (tableId <> "") && ended
                        then timers w ++ [tableId] else timers w)
                  /\ customers res.2 = customers w
                  /\ waiters res.2 = waiters w
                  /\ locks res.2 = locks w)).
Proof.
  intros res. subst res. unfold ReservationService.updateReservationStatus.
  destruct (Store.getById id (reservations w)) as [existing|] eqn:Hex; [|by left].
  right. exists existing. split; [done|].
  destruct (ReservationService.isValidStatusTransition _ _) eqn:Hv; [|by left].
  right. simpl negb. cbv iota.
  unfold Store.updateWithVersion. rewrite Hex.
  destruct (decide (Reservation.version existing <> expectedVersion)) as [Hne|Heq].
  - left. do 2 (split; [done|]). simpl. by rewrite setReservations_same.
  - right. apply dec_stable in Heq. do 2 (split; [done|]).
    rewrite (update_existing _ _ _ _ existing Hex). simpl.
    split; [done|].
    destruct (bool_decide (orString (Reservation.tableId existing) "" <> ""));
      [|done].
    apply isValidStatusTransition_allowed in Hv.
    destruct Hv; simpl; done.
Qed.


(** X19. [updateReservationStatus] succeeds exactly when the reservation
    is stored, the transition is allowed and the expected version is the
    stored one. A failure changes nothing at all and carries one of three
    codes. A success stores and returns the reservation with the new
    status and the version raised by one, every other field but the
    modification time kept; no other reservation, no customer, waiter or
    lock changes. If the reservation has a table, only that table's record
    changes: it becomes OCCUPIED on SEATED, CLEANING on COMPLETED, CANCELLED
    and NO_SHOW (and then one release of that table is scheduled), and
    stays as it is on CONFIRMED. *)
Theorem updateReservationStatus_outcome :
  forall (id : string) (newStatus : ReservationStatus) (expectedVersion now : Z)
         (w : World),
    let res :=
      ReservationService.updateReservationStatus id newStatus expectedVersion now w in
    (success res.1 = true <->
       exists existing,
         Store.getById id (reservations w) = Some existing
         /\ AllowedTransition (Reservation.status existing) newStatus
         /\ Reservation.version existing = expectedVersion)
    /\ (success res.1 = false ->
        res.2 = w /\ data res.1 = None
        /\ exists c,
             code <$> error res.1 = Some c
             /\ c ∈ [ReservationService.RESERVATION_NOT_FOUND;
                     ReservationService.INVALID_STATUS_TRANSITION;
                     ReservationService.CONCURRENT_MODIFICATION])
    /\ (success res.1 = true ->
        exists existing updated,
          Store.getById id (reservations w) = Some existing
          /\ data res.1 = Some updated /\ error res.1 = None
          /\ ReservationService.getReservation id res.2 = succeed updated
          /\ Reservation.status updated = newStatus
          /\ Reservation.version updated = expectedVersion + 1
          /\ Reservation.updatedAt updated = now
          /\ updated
             = Reservation.mk (Reservation.id existing) (Reservation.customerId existing)
                 (Reservation.customerName existing) (Reservation.partySize existing)
                 (Reservation.tableId existing) (Reservation.waiterId existing)
                 (Reservation.startTime existing) (Reservation.endTime existing)
                 (Reservation.status updated) (Reservation.isWalkIn existing)
                 (Reservation.timezone existing) (Reservation.notes existing)
                 (Reservation.createdAt existing) (Reservation.updatedAt updated)
                 (Reservation.version updated)
          /\ (forall k, k <> id ->
                Store.getById k (reservations res.2) = Store.getById k (reservations w))
          /\ customers res.2 = customers w
          /\ waiters res.2 = waiters w
          /\ locks res.2 = locks w
          /\ (orString (Reservation.tableId existing) "" = "" ->
              tables res.2 = tables w /\ timers res.2 = timers w)
          /\ forall tableId,
               Reservation.tableId existing = Some tableId -> tableId <> "" ->
               (forall k, k <> tableId ->
                  Store.getById k (tables res.2) = Store.getById k (tables w))
               /\ Table.status <$> Store.getById tableId (tables res.2)
                  = (fun t =>
                       match newStatus with
                       | SEATED => T_OCCUPIED
                       | COMPLETED | CANCELLED | NO_SHOW => T_CLEANING
                       | _ => Table.status t
                       end) <$> Store.getById tableId (tables w)
               /\ timers res.2
                  = match newStatus with
                    | COMPLETED | CANCELLED | NO_SHOW => timers w ++ [tableId]
                    | _ => timers w
                    end).
Proof.
  intros id newStatus expectedVersion now w res.
  pose proof (updateReservationStatus_cases id newStatus expectedVersion now w) as Hcases.
  fold res in Hcases. simpl in Hcases.
  assert (forall tableId (status : TableStatus),
             Table.status
               <$> Store.getById tableId
                     (Store.update (T := Table.t) tableId (TablePatch.ofStatus status)
                        now (tables w)).2
             = (fun _ => status) <$> Store.getById tableId (tables w)) as Hset.
  { intros tableId status.
    destruct (Store.getById tableId (tables w)) as [t|] eqn:Ht.
    - rewrite (update_existing _ _ _ _ t Ht). simpl.
      unfold Store.getById. by rewrite JsMapFacts.get_set_eq.
    - rewrite (update_missing _ _ _ _ Ht). simpl. by rewrite Ht. }
  destruct Hcases as [(Hnone & Hw & Hs & Hd & Hc)
                     |(existing & Hex & [(Hv & Hw & Hs & Hd & Hc)
                                        |[(Hv & Hne & Hw & Hs & Hd & Hc)
                                         |(Hv & Heq & Hok)]])].
  - split; [|split].
    + rewrite Hs. split; [done|]. intros (e & He & _). congruence.
    + intros _. do 2 (split; [done|]). eexists. split; [done|]. solve_elem.
    + by rewrite Hs.
  - split; [|split].
    + rewrite Hs. split; [done|]. intros (e & He & Hal & _).
      assert (e = existing) as -> by congruence.
      apply isValidStatusTransition_allowed in Hal. congruence.
    + intros _. do 2 (split; [done|]). eexists. split; [done|]. solve_elem.
    + by rewrite Hs.
  - split; [|split].
    + rewrite Hs. split; [done|]. intros (e & He & _ & Hver). congruence.
    + intros _. do 2 (split; [done|]). eexists. split; [done|]. solve_elem.
    + by rewrite Hs.
  - destruct Hok as (Hres & Hrs & Htabs & Htimers & Hcs & Hws & Hls).
    apply isValidStatusTransition_allowed in Hv.
    split; [|split].
    + rewrite Hres. split; [|done]. intros _. by exists existing.
    + by rewrite Hres.
    + intros _. exists existing. eexists. split; [done|]. rewrite Hres. simpl.
      do 2 (split; [reflexivity|]).
      split.
      { unfold ReservationService.getReservation, Store.getById.
        by rewrite Hrs, JsMapFacts.get_set_eq. }
      split; [done|]. split; [by rewrite Heq|]. do 2 (split; [done|]).
      split.
      { intros k Hk. unfold Store.getById. by rewrite Hrs, JsMapFacts.get_set_ne. }
      do 3 (split; [done|]).
      split.
      { intros Hnone. rewrite Htabs, Htimers.
        by rewrite (bool_decide_eq_false_2 _ (fun H => H Hnone)). }
      intros tableId Htab Hne.
      assert (orString (Reservation.tableId existing) "" = tableId) as Hor.
      { rewrite Htab. unfold orString. by rewrite decide_False. }
      rewrite Hor in Htabs, Htimers.
      rewrite (bool_decide_eq_true_2 _ Hne) in Htabs, Htimers.
      rewrite Htabs, Htimers.
      destruct Hv; simpl;
        (split; [intros k Hk; by (try apply update_other)|]);
        (split; [|done]); try apply Hset.
      all: by destruct (Store.getById tableId (tables w)).
Qed.

(** X20. A stale version never wins. After a successful status change made
    with version [v], any further change of the same reservation that
    still presents [v] fails and changes nothing, whatever status it asks
    for and whenever it comes. *)
Theorem updateReservationStatus_stale :
  forall (id : string) (first second : ReservationStatus) (v now later : Z)
         (w : World),
    let res := ReservationService.updateReservationStatus id first v now w in
    let res' := ReservationService.updateReservationStatus id second v later res.2 in
    success res.1 = true ->
    success res'.1 = false /\ data res'.1 = None /\ res'.2 = res.2
    /\ exists c,
         code <$> error res'.1 = Some c
         /\ c ∈ [ReservationService.INVALID_STATUS_TRANSITION;
                 ReservationService.CONCURRENT_MODIFICATION].
Proof.
  intros id first second v now later w res res' Hs.
  pose proof (updateReservationStatus_cases id first v now w) as Hcases.
  fold res in Hcases. simpl in Hcases.
  destruct Hcases as [(_ & _ & Hf & _)
                     |(existing & Hex & [(_ & _ & Hf & _)
                                        |[(_ & _ & _ & Hf & _)
                                         |(Hv & Heq & Hres & Hrs & _)]])];
    try congruence.
  pose proof (updateReservationStatus_cases id second v later res.2) as Hcases'.
  fold res' in Hcases'. simpl in Hcases'.
  assert (exists updated,
             Store.getById id (reservations res.2) = Some updated
             /\ Reservation.version updated = v + 1) as (updated & Hup & Hver).
  { eexists. unfold Store.getById. rewrite Hrs, JsMapFacts.get_set_eq.
    split; [done|]. simpl. by rewrite Heq. }
  destruct Hcases' as [(Hnone & _)
                      |(e & He & [(_ & Hw & Hf & Hd & Hc)
                                 |[(_ & _ & Hw & Hf & Hd & Hc)
                                  |(_ & Hstale & _)]])].
  - congruence.
  - do 3 (split; [done|]). eexists. split; [done|]. solve_elem.
  - do 3 (split; [done|]). eexists. split; [done|]. solve_elem.
  - assert (e = updated) as -> by congruence. lia.
Qed.

Lemma updateReservationStatus_stale_witness :
  success
    (ReservationService.updateReservationStatus "r-1" COMPLETED 1 (sampleNow + 120000)
       (ReservationService.updateReservationStatus "r-1" SEATED 1 (sampleNow + 60000)
          bookedWorld).2).1 = false.
Proof.
  apply (updateReservationStatus_stale "r-1" SEATED COMPLETED 1 (sampleNow + 60000)
           (sampleNow + 120000) bookedWorld).
  vm_compute. reflexivity.
Defined.

(** X21. The release of a table. When a reservation with a stored table
    ends (COMPLETED, CANCELLED or NO_SHOW) while no release is pending, the
    table is CLEANING until the scheduled release runs and AVAILABLE after
    it; the release changes no other table and no reservation, and leaves
    no release pending. *)
Theorem table_release_cycle :
  forall (id : string) (newStatus : ReservationStatus) (v now later : Z) (w : World)
         (existing : Reservation.t) (tableId : string) (table : Table.t),
    Store.getById id (reservations w) = Some existing ->
    Reservation.version existing = v ->
    AllowedTransition (Reservation.status existing) newStatus ->
    newStatus ∈ [COMPLETED; CANCELLED; NO_SHOW] ->
    Reservation.tableId existing = Some tableId -> tableId <> "" ->
    Store.getById tableId (tables w) = Some table ->
    timers w = [] ->
    let ended := (ReservationService.updateReservationStatus id newStatus v now w).2 in
    let released := ReservationService.fireTimer later ended in
    Table.status <$> Store.getById tableId (tables ended) = Some T_CLEANING
    /\ timers ended = [tableId]
    /\ Table.status <$> Store.getById tableId (tables released) = Some T_AVAILABLE
    /\ timers released = []
    /\ (forall k, k <> tableId ->
          Store.getById k (tables released) = Store.getById k (tables w))
    /\ reservations released = reservations ended
    /\ ReservationService.fireTimer later released = released.
Proof.
  intros id newStatus v now later w existing tableId table Hex Hver Hal Hend Htab Hne
    Htable Htimers ended released.
  pose proof (updateReservationStatus_cases id newStatus v now w) as Hcases.
  simpl in Hcases. subst released ended.
  set (ended := (ReservationService.updateReservationStatus id newStatus v now w).2)
    in *.
  apply isValidStatusTransition_allowed in Hal.
  destruct Hcases as [(Hnone & _)
                     |(e & He & [(Hv & _)|[(_ & Hstale & _)|(_ & _ & Hok)]])];
    try congruence.
  assert (e = existing) as -> by congruence.
  destruct Hok as (_ & Hrs & Htabs & Htim & _).
  assert (orString (Reservation.tableId existing) "" = tableId) as Hor.
  { rewrite Htab. unfold orString. by rewrite decide_False. }
  rewrite Hor in Htabs, Htim.
  rewrite (bool_decide_eq_true_2 _ Hne), (bool_decide_eq_true_2 _ Hend) in Htabs, Htim.
  assert (newStatus <> SEATED) as Hns.
  { intros ->. repeat (apply elem_of_cons in Hend as [Hend|Hend]; [discriminate|]).
    by apply elem_of_nil in Hend. }
  rewrite (bool_decide_eq_false_2 _ Hns) in Htabs.
  simpl in Htim. rewrite Htimers in Htim. simpl in Htim.
  rewrite (update_existing _ _ _ _ table Htable) in Htabs. simpl in Htabs.
  assert (Store.getById tableId (tables ended)
          = Some (Table.mk (Table.id table) (Table.number table) (Table.capacity table)
                    T_CLEANING (Table.section table) (Table.createdAt table) now))
    as Hcleaning.
  { unfold Store.getById. by rewrite Htabs, JsMapFacts.get_set_eq. }
  split; [by rewrite Hcleaning|]. split; [done|].
  unfold ReservationService.fireTimer. rewrite Htim.
  rewrite (update_existing _ _ _ _ _ Hcleaning). simpl.
  split; [unfold Store.getById; by rewrite JsMapFacts.get_set_eq|].
  split; [done|].
  split; [|done].
  intros k Hk. unfold Store.getById.
  rewrite JsMapFacts.get_set_ne by done. rewrite Htabs.
  by rewrite JsMapFacts.get_set_ne.
Qed.

Lemma table_release_cycle_witness :
  Table.status <$> Store.getById "table-1" (tables cancelledWorld) = Some T_AVAILABLE.
Proof.
  refine (proj1 (proj2 (proj2
            (table_release_cycle "r-1" CANCELLED 1 (sampleNow + 60000) (sampleNow + 65000)
               bookedWorld
               (Reservation.mk "r-1" "c-1" "Ada" 2 (Some "table-1") (Some "waiter-1")
                  (sampleNow + 60 * 60000) (sampleNow + 150 * 60000) CONFIRMED false
                  "UTC" None sampleNow sampleNow 1)
               "table-1"
               (Table.mk "table-1" 1 2 T_RESERVED (Some "Main") 0 sampleNow)
               _ _ _ _ _ _ _ _)))).
  - vm_compute. reflexivity.
  - reflexivity.
  - constructor.
  - solve_elem.
  - reflexivity.
  - discriminate.
  - vm_compute. reflexivity.
  - vm_compute. reflexivity.
Defined.

(** ** Listing reservations: store.ts, reservationService.ts, walkInService.ts *)

Lemma findByDate_elem hostOffset date items r :
  r ∈ Store.findByDate hostOffset date items <->
  r ∈ Store.getAll items
  /\ Reservation.startTime r < Store.setHours hostOffset date 0 0 0 0 + 86399999
  /\ Store.setHours hostOffset date 0 0 0 0 < Reservation.endTime r.
Proof.
  unfold Store.findByDate, Store.findByTimeRange.
  rewrite elem_of_List_filter, andb_true_iff, !bool_decide_eq_true.
  unfold Store.setHours, Timezone.msPerDay. split; intros (? & ? & ?); repeat split; try done; lia.
Qed.


(** X23. [getReservations] lists stored reservations only, sorted by
    ascending start time. With a date filter the list is that of
    [findByDate] and the status filter has no effect; without one, a given
    status is required. A non-empty table or customer filter is always
    required. Without filters every stored reservation is listed once. *)
Theorem getReservations_spec :
  forall (hostOffset : Z) (filters : option ReservationService.ReservationFilters.t)
         (w : World),
    let listed := ReservationService.getReservations hostOffset filters w in
    let status := filters ≫= ReservationService.ReservationFilters.status in
    let date := filters ≫= ReservationService.ReservationFilters.date in
    let tableId :=
      orString (filters ≫= ReservationService.ReservationFilters.tableId) "" in
    let customerId :=
      orString (filters ≫= ReservationService.ReservationFilters.customerId) "" in
    (forall r,
        r ∈ listed <->
        r ∈ Store.getAll (reservations w)
        /\ match date, status with
           | Some d, _ => r ∈ Store.findByDate hostOffset d (reservations w)
           | None, Some s => Reservation.status r = s
           | None, None => True
           end
        /\ (tableId <> "" -> Reservation.tableId r = Some tableId)
        /\ (customerId <> "" -> Reservation.customerId r = customerId))
    /\ StronglySorted
         (fun a b => Reservation.startTime a <= Reservation.startTime b) listed
    /\ (forall d status',
          date = Some d ->
          ReservationService.getReservations hostOffset
            (Some (ReservationService.ReservationFilters.mk status' date
                     (filters ≫= ReservationService.ReservationFilters.tableId)
                     (filters ≫= ReservationService.ReservationFilters.customerId))) w
          = listed)
    /\ ReservationService.getReservations hostOffset None w
       ≡ₚ Store.getAll (reservations w).
Proof.
  intros hostOffset filters w listed status date tableId customerId.
  subst listed. unfold ReservationService.getReservations.
  fold status date tableId customerId.
  split; [|split; [|split]].
  - intros r. rewrite jsSort_elem.
    assert (forall (l : list Reservation.t) P,
               (r ∈ l <-> r ∈ Store.getAll (reservations w) /\ P) ->
               (r ∈ (if bool_decide (customerId <> "") then
                       List.filter
                         (fun r => bool_decide (Reservation.customerId r = customerId))
                         (if bool_decide (tableId <> "") then
                            List.filter
                              (fun r => bool_decide (Reservation.tableId r = Some tableId)) l
                          else l)
                     else
                       if bool_decide (tableId <> "") then
                         List.filter
                           (fun r => bool_decide (Reservation.tableId r = Some tableId)) l
                       else l)
                <-> r ∈ Store.getAll (reservations w) /\ P
                    /\ (tableId <> "" -> Reservation.tableId r = Some tableId)
                    /\ (customerId <> "" -> Reservation.customerId r = customerId)))
      as Hrest.
    { intros l P Hl.
      repeat case_bool_decide; rewrite ?elem_of_List_filter, ?bool_decide_eq_true, Hl;
        tauto. }
    destruct date as [d|]; [|destruct status as [s|]]; apply Hrest.
    + rewrite findByDate_elem. tauto.
    + rewrite elem_of_List_filter, bool_decide_eq_true. tauto.
    + tauto.
  - eapply StronglySorted_impl; [|apply jsSort_sorted].
    + simpl. intros a b. lia.
    + intros a b. lia.
    + intros a b c. lia.
  - intros d status' Hd. rewrite Hd. simpl.
    fold tableId customerId. done.
  - simpl. apply jsSort_perm.
Qed.


Lemma filter_length_nested {A} (f g h : A -> bool) (l : list A) :
  (length (List.filter f (List.filter g (List.filter h l)))
   <= length (List.filter f (List.filter g l)))%nat.
Proof.
  induction l as [|a l IH]; simpl; [done|].
  destruct (h a); simpl; destruct (g a); simpl; try destruct (f a); simpl; lia.
Qed.

Lemma filter_length_disjoint {A} (f g : A -> bool) (l : list A) :
  (forall x, f x = true -> g x = true -> False) ->
  (length (List.filter f l) + length (List.filter g l) <= length l)%nat.
Proof.
  intros Hdis. induction l as [|a l IH]; simpl; [done|].
  destruct (f a) eqn:Hf, (g a) eqn:Hg; simpl; try lia.
  by destruct (Hdis a).
Qed.

(** X24. The walk-in statistics of today never count a reservation twice:
    the seated and the completed walk-ins together are at most the total,
    which is at most the number of stored reservations. The seated count is
    at most the number of current walk-ins, and the total is zero exactly
    when no reservation listed for today is a walk-in. *)
Theorem getWalkInStats_bounds :
  forall (hostOffset now : Z) (w : World),
    let stats := WalkInService.getWalkInStats hostOffset now w in
    0 <= WalkInService.WalkInStats.currentlySeated stats
    /\ 0 <= WalkInService.WalkInStats.completed stats
    /\ WalkInService.WalkInStats.currentlySeated stats
       + WalkInService.WalkInStats.completed stats
       <= WalkInService.WalkInStats.total stats
    /\ WalkInService.WalkInStats.total stats <= Store.count (reservations w)
    /\ WalkInService.WalkInStats.currentlySeated stats
       <= Z.of_nat (length (WalkInService.getCurrentWalkIns w))
    /\ (WalkInService.WalkInStats.total stats = 0 <->
        forall r, r ∈ ReservationService.getTodaysReservations hostOffset now w ->
                  Reservation.isWalkIn r = false).
Proof.
  intros hostOffset now w stats. subst stats. unfold WalkInService.getWalkInStats.
  simpl.
  set (today := Store.findByDate hostOffset now (reservations w)).
  split; [lia|]. split; [lia|]. split.
  { pose proof (filter_length_disjoint
                  (fun r => bool_decide (Reservation.status r = SEATED))
                  (fun r => bool_decide (Reservation.status r = COMPLETED))
                  (List.filter Reservation.isWalkIn today)) as Hdis.
    assert (forall x : Reservation.t,
               bool_decide (Reservation.status x = SEATED) = true ->
               bool_decide (Reservation.status x = COMPLETED) = true -> False) as Hno.
    { intros x Hs%bool_decide_eq_true Hc%bool_decide_eq_true. congruence. }
    specialize (Hdis Hno). lia. }
  split.
  { unfold Store.count, JsMap.size.
    pose proof (List.filter_length_le Reservation.isWalkIn today) as H1.
    assert (length today <= length (reservations w))%nat as H2.
    { unfold today, Store.findByDate, Store.findByTimeRange, Store.getAll, JsMap.values.
      etransitivity; [apply List.filter_length_le|]. by rewrite length_map. }
    lia. }
  split.
  { unfold WalkInService.getCurrentWalkIns, Store.findWalkIns, today, Store.findByDate,
      Store.findByTimeRange.
    apply inj_le, filter_length_nested. }
  unfold ReservationService.getTodaysReservations. fold today.
  split.
  - intros Hz. assert (List.filter Reservation.isWalkIn today = []) as Hnil.
    { apply length_zero_iff_nil. lia. }
    intros r Hr. by apply (List_filter_nil _ _ Hnil).
  - intros Hall. apply List_filter_nil_iff in Hall. by rewrite Hall.
Qed.

(** X25. [findUpcoming] never lists a reservation that started before
    [now], that starts more than [hours] hours ahead, or that is CANCELLED
    or COMPLETED; it lists every other stored one (a NO_SHOW one too). A
    negative number of hours lists nothing, and a larger number of hours
    never loses a reservation. *)
Theorem findUpcoming_spec :
  forall (hours now : Z) (items : JsMap.t Reservation.t),
    (forall r,
        r ∈ Store.findUpcoming hours now items <->
        r ∈ Store.getAll items
        /\ now <= Reservation.startTime r <= now + hours * 3600000
        /\ Reservation.status r <> CANCELLED
        /\ Reservation.status r <> COMPLETED)
    /\ (hours < 0 -> Store.findUpcoming hours now items = [])
    /\ (forall hours' r,
          hours <= hours' ->
          r ∈ Store.findUpcoming hours now items ->
          r ∈ Store.findUpcoming hours' now items)
    /\ (forall w, ReservationService.getUpcomingReservations hours now w
                  = Store.findUpcoming hours now (reservations w)).
Proof.
  intros hours now items.
  assert (forall h r,
             r ∈ Store.findUpcoming h now items <->
             r ∈ Store.getAll items
             /\ now <= Reservation.startTime r <= now + h * 3600000
             /\ Reservation.status r <> CANCELLED
             /\ Reservation.status r <> COMPLETED) as Hmem.
  { intros h r. unfold Store.findUpcoming.
    rewrite elem_of_List_filter, !andb_true_iff, !bool_decide_eq_true.
    split; intros Hr; repeat split; try tauto; lia. }
  split; [apply Hmem|]. split; [|split; [|done]].
  - intros Hneg. apply List_filter_nil_iff. intros r _.
    rewrite <- !andb_assoc.
    destruct (bool_decide (now <= Reservation.startTime r)) eqn:H1; [|done].
    apply bool_decide_eq_true in H1.
    rewrite (bool_decide_eq_false_2 (Reservation.startTime r <= _)) by lia. done.
  - intros hours' r Hle. rewrite !Hmem. intros (? & ? & ?). repeat split; try tauto; nia.
Qed.

(** X26. [findActiveByTable] finds nothing exactly when every reservation
    of the table is COMPLETED, CANCELLED or NO_SHOW, and then a stored
    table that is not out of service is available for every window.
    Otherwise it returns the first PENDING, CONFIRMED or SEATED reservation
    of the table in insertion order, and the table is unavailable for
    every window that overlaps it. *)
Theorem findActiveByTable_spec :
  forall (tableId : string) (w : World),
    match Store.findActiveByTable tableId (reservations w) with
    | None =>
        (forall r, r ∈ Store.getAll (reservations w) ->
                   Reservation.tableId r = Some tableId ->
                   Reservation.status r ∈ [COMPLETED; CANCELLED; NO_SHOW])
        /\ forall table startTime endTime,
             Store.getById tableId (tables w) = Some table ->
             Table.status table <> T_OUT_OF_SERVICE ->
             AvailabilityService.isTableAvailable tableId startTime endTime w = true
    | Some r =>
        Reservation.tableId r = Some tableId
        /\ Reservation.status r ∈ [PENDING; CONFIRMED; SEATED]
        /\ (exists before after,
               Store.getAll (reservations w) = before ++ r :: after
               /\ forall r', r' ∈ before -> Reservation.tableId r' = Some tableId ->
                             Reservation.status r' ∈ [COMPLETED; CANCELLED; NO_SHOW])
        /\ forall startTime endTime,
             Timezone.doTimeRangesOverlap startTime endTime
               (Reservation.startTime r) (Reservation.endTime r) = true ->
             AvailabilityService.isTableAvailable tableId startTime endTime w = false
    end.
Proof.
  intros tableId w. unfold Store.findActiveByTable.
  assert (forall r : Reservation.t,
             bool_decide (Reservation.tableId r = Some tableId)
             && bool_decide (Reservation.status r ∈ [PENDING; CONFIRMED; SEATED]) = false ->
             Reservation.tableId r = Some tableId ->
             Reservation.status r ∈ [COMPLETED; CANCELLED; NO_SHOW]
             /\ isActive r = false) as Hdone.
  { intros r Hf Htab. rewrite (bool_decide_eq_true_2 _ Htab) in Hf. simpl in Hf.
    apply bool_decide_eq_false in Hf. unfold isActive. revert Hf.
    destruct (Reservation.status r); simpl; intros Hf;
      try (exfalso; apply Hf;
           repeat first [apply list_elem_of_here | apply list_elem_of_further]; fail);
      (split; [|done]);
      repeat first [apply list_elem_of_here | apply list_elem_of_further]. }
  destruct (List.find _ _) as [r|] eqn:Hfind.
  - apply find_Some_split in Hfind as (before & after & Hall & Hr & Hbefore).
    apply andb_true_iff in Hr as [Htab%bool_decide_eq_true Hst%bool_decide_eq_true].
    split; [done|]. split; [done|]. split.
    { exists before, after. split; [done|]. intros r' Hr' Htab'.
      by apply Hdone; [apply Hbefore|]. }
    intros startTime endTime Hov.
    destruct (AvailabilityService.isTableAvailable tableId startTime endTime w) eqn:Hav;
      [|done].
    exfalso. apply isTableAvailable_true in Hav as (t & _ & _ & Hfree).
    apply (Hfree r).
    + rewrite Hall. apply elem_of_app. right. apply list_elem_of_here.
    + split; [done|]. split; [|done]. unfold isActive. revert Hst.
      destruct (Reservation.status r); simpl; try done; intros Hst; exfalso;
        repeat (apply elem_of_cons in Hst as [Hst|Hst]; [discriminate|]);
        by apply elem_of_nil in Hst.
  - pose proof (find_None_all _ _ Hfind) as Hnone. split.
    + intros r Hr Htab. by apply Hdone; [apply Hnone|].
    + intros table startTime endTime Hget Hst. apply isTableAvailable_true.
      exists table. do 2 (split; [done|]). intros r Hr (Htab & Hact & _).
      destruct (Hdone r (Hnone r Hr) Htab) as [_ Hin]. congruence.
Qed.

(** ** The availability summary: availabilityService.ts *)

Lemma StronglySorted_app_elem {A} (R : A -> A -> Prop) (l1 l2 : list A) :
  StronglySorted R (l1 ++ l2) ->
  StronglySorted R l1 /\ forall x y, x ∈ l1 -> y ∈ l2 -> R x y.
Proof.
  induction l1 as [|a l1 IH]; simpl; intros Hs.
  - split; [constructor|]. by intros x y ?%elem_of_nil.
  - apply StronglySorted_inv in Hs as [Hs Hall]. destruct (IH Hs) as [Hs1 Hcross].
    rewrite List.Forall_forall in Hall.
    split.
    + constructor; [done|]. apply List.Forall_forall. intros x Hx. apply Hall.
      apply in_or_app. by left.
    + intros x y Hx Hy. apply elem_of_cons in Hx as [->|Hx]; [|by apply Hcross].
      apply Hall, in_or_app. right. by apply list_elem_of_In.
Qed.

Lemma map_pair_keys {A B} (f : A -> B) (l : list A) :
  (map (fun h => (h, f h)) l).*1 = l.
Proof. induction l as [|h l IH]; [done|]. simpl in *. by f_equal. Qed.

Section HourlyBookings.
Context {R : Type} (key : R -> Z).

(** The tally of the loop: every listed hour ends with its initial count
    plus the number of reservations that start in it. *)
Lemma increment_tally (rs : list R) : forall (hours : list Z) (c : Z -> Z),
  foldl (fun bookings r => AvailabilityService.increment (key r) bookings)
    (map (fun h => (h, c h)) hours) rs
  = map (fun h =>
           (h, c h + Z.of_nat (length (List.filter (fun r => bool_decide (key r = h)) rs))))
      hours.
Proof.
  induction rs as [|r rs IH]; intros hours c; simpl.
  - apply map_ext. intros h. f_equal. lia.
  - assert (AvailabilityService.increment (key r) (map (fun h => (h, c h)) hours)
            = map (fun h => (h, (fun h => c h + if decide (h = key r) then 1 else 0) h))
                hours) as ->.
    { unfold AvailabilityService.increment. rewrite map_map. apply map_ext.
      intros h. simpl. case_decide; f_equal; lia. }
    rewrite IH. apply map_ext. intros h. f_equal.
    destruct (decide (h = key r)) as [->|Hne].
    + rewrite bool_decide_eq_true_2 by done. simpl. lia.
    + rewrite bool_decide_eq_false_2 by done. lia.
Qed.
End HourlyBookings.

(** X27. For a known zone [getAvailabilitySummary] succeeds. The tables
    AVAILABLE now are at most the tables in service, which are at most the
    stored tables. The booked slots count the reservations overlapping the
    day that are neither CANCELLED nor NO_SHOW. The peak hours are three
    different hours from 11 to 22, each with the number of those
    reservations that start in that UTC hour, listed by descending number,
    and no other hour from 11 to 22 has more bookings than any of them. For
    an unknown zone it fails with INVALID_TIMEZONE. *)
Theorem getAvailabilitySummary_spec :
  forall (tzdata : string -> option (Z -> Z)) (date : Z) (timezone : option string)
         (w : World),
    let res := AvailabilityService.getAvailabilitySummary tzdata date timezone w in
    (Timezone.isValidTimezone tzdata (default "UTC" timezone) = false ->
     success res = false /\ data res = None
     /\ code <$> error res = Some "INVALID_TIMEZONE")
    /\ (Timezone.isValidTimezone tzdata (default "UTC" timezone) = true ->
        exists dayStart dayEnd summary,
          Timezone.getDayBoundsInTimezone tzdata date (default "UTC" timezone)
            = Some (dayStart, dayEnd)
          /\ res = succeed summary
          /\ let booked :=
               List.filter
                 (fun r => bool_decide (Reservation.status r <> CANCELLED)
                           && bool_decide (Reservation.status r <> NO_SHOW))
                 (Store.findByTimeRange dayStart dayEnd (reservations w)) in
             let startingAt (h : Z) :=
               Z.of_nat
                 (length
                    (List.filter
                       (fun r =>
                          bool_decide
                            (AvailabilityService.getUTCHours (Reservation.startTime r) = h))
                       booked)) in
             let peak := AvailabilityService.AvailabilitySummary.peakHours summary in
             0 <= AvailabilityService.AvailabilitySummary.availableNow summary
               <= AvailabilityService.AvailabilitySummary.totalTables summary
             /\ AvailabilityService.AvailabilitySummary.totalTables summary
                <= Store.count (tables w)
             /\ AvailabilityService.AvailabilitySummary.bookedSlots summary
                = Z.of_nat (length booked)
             /\ length peak = 3%nat
             /\ NoDup peak.*1
             /\ (forall h b, (h, b) ∈ peak -> 11 <= h <= 22 /\ b = startingAt h)
             /\ StronglySorted (fun a b => b.2 <= a.2) peak
             /\ (forall h b' h',
                   11 <= h <= 22 -> h ∉ peak.*1 -> (h', b') ∈ peak ->
                   startingAt h <= b')).
Proof.
  intros tzdata date timezone w res. subst res.
  unfold AvailabilityService.getAvailabilitySummary.
  change Timezone.DEFAULT_TIMEZONE with "UTC".
  split.
  { intros ->. done. }
  intros Hvalid. rewrite Hvalid. simpl negb. cbv iota.
  destruct (Timezone.getDayBoundsInTimezone tzdata date (default "UTC" timezone))
    as [[dayStart dayEnd]|] eqn:Hbounds.
  2:{ unfold Timezone.getDayBoundsInTimezone in Hbounds.
      unfold Timezone.isValidTimezone in Hvalid.
      destruct (tzdata (default "UTC" timezone)); [|done].
      by destruct (Timezone.formatDateParts _ _) as [[? ?] ?]. }
  exists dayStart, dayEnd. eexists. split; [done|]. split; [reflexivity|].
  cbv zeta.
  cbn [AvailabilityService.AvailabilitySummary.peakHours
         AvailabilityService.AvailabilitySummary.totalTables
         AvailabilityService.AvailabilitySummary.availableNow
         AvailabilityService.AvailabilitySummary.bookedSlots].
  set (booked := List.filter _ (Store.findByTimeRange dayStart dayEnd (reservations w))).
  set (hours := seqZ _ _).
  set (startingAt := fun h : Z =>
         Z.of_nat
           (length
              (List.filter
                 (fun r =>
                    bool_decide
                      (AvailabilityService.getUTCHours (Reservation.startTime r) = h))
                 booked))).
  pose proof (increment_tally
                (fun r => AvailabilityService.getUTCHours (Reservation.startTime r))
                booked hours (fun _ => 0)) as Htally.
  cbv beta in Htally. rewrite Htally. clear Htally.
  change (map (fun h => (h, _)) hours) with (map (fun h => (h, startingAt h)) hours).
  set (bookings := map (fun h => (h, startingAt h)) hours).
  set (cmp := fun a b : Z * Z => b.2 - a.2).
  set (sorted := jsSort cmp bookings).
  assert (forall h, h ∈ hours <-> 11 <= h <= 22) as Hhours.
  { intros h. unfold hours. rewrite elem_of_seqZ.
    unfold AvailabilityService.OPERATING_HOURS_START,
      AvailabilityService.OPERATING_HOURS_END. lia. }
  assert (NoDup hours) as Hnodup by apply NoDup_seqZ.
  assert (length hours = 12%nat) as Hlen by (unfold hours; by rewrite length_seqZ).
  assert (forall h b, (h, b) ∈ bookings <-> h ∈ hours /\ b = startingAt h) as Hbook.
  { intros h b. unfold bookings. rewrite list_elem_of_In, in_map_iff. split.
    - intros (h' & [= <- <-] & Hin). split; [by apply list_elem_of_In|done].
    - intros [Hin ->]. exists h. split; [done|by apply list_elem_of_In]. }
  assert (sorted ≡ₚ bookings) as Hperm by apply jsSort_perm.
  assert (StronglySorted (fun a b => cmp a b <= 0) sorted) as Hsorted.
  { apply jsSort_sorted; unfold cmp; intros; lia. }
  rewrite <- (take_drop 3 sorted) in Hsorted.
  apply StronglySorted_app_elem in Hsorted as [Hpeak Hcross].
  assert (bookings.*1 = hours) as Hkeys by apply map_pair_keys.
  split.
  { split; [lia|]. apply inj_le. unfold Store.findAvailable, Store.findByStatus.
    clear. induction (Store.getAll (tables w)) as [|t l IH]; simpl; [done|].
    destruct (decide (Table.status t = T_AVAILABLE)) as [Hs|Hs].
    - rewrite bool_decide_eq_true_2 by done.
      rewrite bool_decide_eq_true_2 by (rewrite Hs; done). simpl. lia.
    - rewrite (bool_decide_eq_false_2 _ Hs). case_bool_decide; simpl; lia. }
  split.
  { unfold Store.count, JsMap.size, Store.getAll, JsMap.values. apply inj_le.
    etransitivity; [apply List.filter_length_le|]. by rewrite length_map. }
  split; [done|].
  split.
  { rewrite length_take. rewrite (Permutation_length Hperm).
    unfold bookings. rewrite length_map, Hlen. done. }
  split.
  { assert (NoDup sorted.*1) as Hnd.
    { rewrite Hperm, Hkeys. done. }
    rewrite <- (take_drop 3 sorted), fmap_app in Hnd.
    by apply NoDup_app in Hnd as [Hnd _]. }
  split.
  { intros h b Hin.
    assert ((h, b) ∈ sorted) as Hs.
    { rewrite <- (take_drop 3 sorted). apply elem_of_app. by left. }
    rewrite Hperm in Hs. apply Hbook in Hs as [Hh ->]. split; [by apply Hhours|done]. }
  split.
  { eapply StronglySorted_impl; [|exact Hpeak]. unfold cmp. simpl. intros a b. lia. }
  intros h b' h' Hh Hout Hin.
  assert ((h, startingAt h) ∈ sorted) as Hs.
  { rewrite Hperm. apply Hbook. split; [by apply Hhours|done]. }
  rewrite <- (take_drop 3 sorted) in Hs. apply elem_of_app in Hs as [Hs|Hs].
  - exfalso. apply Hout. apply list_elem_of_fmap. by exists (h, startingAt h).
  - specialize (Hcross _ _ Hin Hs). unfold cmp in Hcross. cbn [snd] in Hcross.
    unfold startingAt in Hcross. lia.
Qed.

(** ** The generic store: store.ts *)

Section JsMapMore.
Context {V : Type}.
Implicit Types (m : JsMap.t V) (k : string) (v : V).

Lemma get_None_keys k m : JsMap.get k m = None <-> k ∉ m.*1.
Proof.
  induction m as [|[k0 v0] m IH]; simpl.
  - split; [intros _; apply not_elem_of_nil|done].
  - rewrite not_elem_of_cons. case_decide as Hk.
    + split; [done|]. intros [Hne _]. by subst.
    + rewrite IH. split; [intros ?; split; [congruence|done]|by intros [_ ?]].
Qed.

Lemma set_fresh k v m : JsMap.get k m = None -> JsMap.set k v m = m ++ [(k, v)].
Proof.
  induction m as [|[k0 v0] m IH]; simpl; [done|].
  case_decide; [done|]. intros Hm. by rewrite IH.
Qed.

Lemma set_present_length k v m :
  JsMap.get k m <> None -> length (JsMap.set k v m) = length m.
Proof.
  induction m as [|[k0 v0] m IH]; simpl; [done|].
  case_decide; [done|]. intros Hm. simpl. by rewrite IH.
Qed.

Lemma set_keys k v m :
  (JsMap.set k v m).*1 = if decide (k ∈ m.*1) then m.*1 else m.*1 ++ [k].
Proof.
  induction m as [|[k0 v0] m IH].
  - case_decide as Hin; [by apply elem_of_nil in Hin|done].
  - change (((k0, v0) :: m).*1) with (k0 :: m.*1).
    change (JsMap.set k v ((k0, v0) :: m))
      with (if decide (k0 = k) then (k, v) :: m else (k0, v0) :: JsMap.set k v m).
    destruct (decide (k0 = k)) as [->|Hne].
    + rewrite decide_True by apply list_elem_of_here. done.
    + change (((k0, v0) :: JsMap.set k v m).*1) with (k0 :: (JsMap.set k v m).*1).
      rewrite IH. destruct (decide (k ∈ m.*1)) as [Hin|Hin].
      * by rewrite decide_True by by apply list_elem_of_further.
      * rewrite decide_False; [done|].
        rewrite not_elem_of_cons. split; [congruence|done].
Qed.

Lemma set_unique k v m : UniqueKeys m -> UniqueKeys (JsMap.set k v m).
Proof.
  unfold UniqueKeys. rewrite set_keys. case_decide as Hin; [done|].
  intros Hnd. apply NoDup_app. split; [done|]. split; [|apply NoDup_singleton].
  intros x Hx ->%list_elem_of_singleton. done.
Qed.

Lemma delete_set_fresh k v m :
  JsMap.get k m = None -> JsMap.delete k (JsMap.set k v m) = (true, m).
Proof.
  induction m as [|[k0 v0] m IH]; simpl.
  - by rewrite decide_True.
  - case_decide; [done|]. intros Hm. simpl. rewrite decide_False by done.
    by rewrite IH.
Qed.

Lemma delete_spec k m :
  ((JsMap.delete k m).1 = true <-> JsMap.get k m <> None)
  /\ ((JsMap.delete k m).1 = false -> (JsMap.delete k m).2 = m)
  /\ ((JsMap.delete k m).1 = true ->
      length m = S (length (JsMap.delete k m).2))
  /\ (forall k', k' <> k -> JsMap.get k' (JsMap.delete k m).2 = JsMap.get k' m)
  /\ (UniqueKeys m ->
      JsMap.get k (JsMap.delete k m).2 = None /\ UniqueKeys (JsMap.delete k m).2).
Proof.
  unfold UniqueKeys.
  induction m as [|[k0 v0] m IH]; simpl.
  - repeat split; done.
  - destruct IH as (IH1 & IH2 & IH3 & IH4 & IH5).
    destruct (decide (k0 = k)) as [->|Hne]; simpl.
    + split; [done|]. split; [done|]. split; [done|]. split.
      * intros k' Hk'. by rewrite decide_False.
      * intros [Hnotin Hnd]%NoDup_cons. split; [by apply get_None_keys|done].
    + destruct (JsMap.delete k m) as [b m'] eqn:Hd. simpl in *.
      split; [done|]. split; [intros Hb; by rewrite IH2|].
      split; [intros Hb; by rewrite IH3|]. split.
      * intros k' Hk'. case_decide; [done|]. by apply IH4.
      * intros [Hnotin Hnd]%NoDup_cons. destruct (IH5 Hnd) as [Hgone Hnd'].
        rewrite decide_False by done. split; [done|].
        apply NoDup_cons. split; [|done].
        intros Hin. apply Hnotin.
        apply get_None_keys in Hin; [done|].
        destruct (JsMap.get k0 m') eqn:Hg; [|done]. exfalso.
        rewrite IH4 in Hg by done. by apply get_None_keys in Hnotin; rewrite Hnotin in Hg.
Qed.
End JsMapMore.

(** X28. The generic store. [create] stores the new item under its
    identifier and leaves every other entry alone. Under a fresh
    identifier the item comes last in [getAll], [count] grows by one and a
    [delete] of it gives back the store as it was; under a used one it
    replaces the item there and [count] is unchanged. [delete] answers
    [true] exactly when the identifier is stored, changes nothing when it
    is not, lowers [count] by one when it is, and never touches another
    entry. Both keep one entry per identifier, and then a deleted
    identifier is no longer found. *)
Theorem BaseStore_create_delete :
  forall (T : Type) (E : Store.Entity T) (data : T) (uuid : string) (now : Z)
         (items : JsMap.t T),
    let created := Store.create data uuid now items in
    let id := Store.idOf created.1 in
    Store.getById id created.2 = Some created.1
    /\ (forall k, k <> id -> Store.getById k created.2 = Store.getById k items)
    /\ (Store.getById id items = None ->
        Store.getAll created.2 = Store.getAll items ++ [created.1]
        /\ Store.count created.2 = Store.count items + 1
        /\ Store.delete id created.2 = (true, items))
    /\ (Store.getById id items <> None -> Store.count created.2 = Store.count items)
    /\ (UniqueKeys items -> UniqueKeys created.2)
    /\ forall k,
         let deleted := Store.delete k items in
         (deleted.1 = true <-> Store.getById k items <> None)
         /\ (deleted.1 = false -> deleted.2 = items)
         /\ (deleted.1 = true -> Store.count deleted.2 = Store.count items - 1)
         /\ (forall k', k' <> k ->
               Store.getById k' deleted.2 = Store.getById k' items)
         /\ (UniqueKeys items ->
             Store.getById k deleted.2 = None /\ UniqueKeys deleted.2).
Proof.
  intros T E data uuid now items created id.
  subst created id. unfold Store.create, Store.getById, Store.getAll, Store.count,
    Store.delete, JsMap.size, JsMap.values. simpl.
  set (item := Store.createItem data uuid (Timezone.nowUTC now)).
  split; [apply JsMapFacts.get_set_eq|].
  split; [intros k Hk; by apply JsMapFacts.get_set_ne|].
  split.
  { intros Hfresh. rewrite (set_fresh _ _ _ Hfresh).
    split; [by rewrite map_app|]. split; [rewrite length_app; simpl; lia|].
    rewrite <- (set_fresh _ _ _ Hfresh). by apply delete_set_fresh. }
  split; [intros Hused; by rewrite set_present_length|].
  split; [apply set_unique|].
  intros k. destruct (delete_spec k items) as (H1 & H2 & H3 & H4 & H5).
  split; [done|]. split; [done|]. split; [|done].
  intros Hb. rewrite (H3 Hb). lia.
Qed.

(** ** Customers, waiters and the booking invariant *)

(** X29. Whom a new reservation belongs to. [createReservation] reuses
    the first stored customer with the request's phone, else the first
    with its e-mail (an absent phone or e-mail is looked up as the empty
    string), and then creates no customer; otherwise it stores a new
    customer under the new identifier. The waiter is the one
    [findWithLeastTables] returns, who gets the reserved table assigned;
    without such a waiter the reservation has none and no waiter
    changes. *)
Theorem createReservation_people :
  forall (tzdata : string -> option (Z -> Z)) (request : CreateReservationRequest.t)
         (lockOwner customerUuid reservationUuid : string) (now : Z) (w : World),
    let res :=
      ReservationService.createReservation tzdata request lockOwner customerUuid
        reservationUuid now w in
    let phone := orString (CreateReservationRequest.customerPhone request) "" in
    let email := orString (CreateReservationRequest.customerEmail request) "" in
    success res.1 = true ->
    exists r tableId,
      data res.1 = Some r
      /\ Reservation.tableId r = Some tableId
      /\ match knownCustomer request w with
         | Some c =>
             c ∈ Store.getAll (customers w)
             /\ (Customer.phone c = Some phone
                 \/ (Customer.email c = Some email
                     /\ forall c', c' ∈ Store.getAll (customers w) ->
                                   Customer.phone c' <> Some phone))
             /\ Reservation.customerId r = Customer.id c
             /\ customers res.2 = customers w
         | None =>
             (forall c, c ∈ Store.getAll (customers w) ->
                        Customer.phone c <> Some phone /\ Customer.email c <> Some email)
             /\ Reservation.customerId r = customerUuid
             /\ Store.getById customerUuid (customers res.2)
                = Some (Customer.mk customerUuid
                          (CreateReservationRequest.customerName request)
                          (CreateReservationRequest.customerPhone request)
                          (CreateReservationRequest.customerEmail request) None now now)
             /\ forall k, k <> customerUuid ->
                  Store.getById k (customers res.2) = Store.getById k (customers w)
         end
      /\ match Store.findWithLeastTables (waiters w) with
         | Some waiter =>
             Reservation.waiterId r = Some (Waiter.id waiter)
             /\ waiters res.2
                = (Store.assignTable (Waiter.id waiter) tableId now (waiters w)).2
             /\ (forall stored,
                   Store.getById (Waiter.id waiter) (waiters w) = Some stored ->
                   exists after,
                     Store.getById (Waiter.id waiter) (waiters res.2) = Some after
                     /\ tableId ∈ Waiter.assignedTables after)
             /\ forall k, k <> Waiter.id waiter ->
                  Store.getById k (waiters res.2) = Store.getById k (waiters w)
         | None => Reservation.waiterId r = None /\ waiters res.2 = waiters w
         end.
Proof.
  intros tzdata request lockOwner customerUuid reservationUuid now w res phone email Hs.
  pose proof (createReservation_cases tzdata request lockOwner customerUuid
                reservationUuid now w) as Hcases.
  fold res in Hcases. simpl in Hcases.
  destruct Hcases as [[Hv Hres]|(startTime & Hstart & Hv & Hcases)];
    [by rewrite Hres in Hs|].
  destruct Hcases as [(l & _ & _ & _ & Hres)|[Hfree [(thrown & _ & Hres)|Hok]]];
    [by rewrite Hres in Hs..|].
  destruct Hok as (t & w' & Hsel & -> & _ & _ & _ & _ & Hcs & Hws).
  eexists. exists (Table.id t). simpl. split; [reflexivity|]. split; [done|].
  split.
  - rewrite Hcs.
    assert (forall f (l : list Customer.t) c,
               List.find f l = Some c -> c ∈ l /\ f c = true) as Hfound.
    { intros f l c [Hin Hf]%find_some. split; [by apply list_elem_of_In|done]. }
    destruct (knownCustomer request w) as [c|] eqn:Hknown;
      unfold knownCustomer in Hknown; fold phone email in Hknown;
      destruct (Store.findByPhone phone (customers w)) as [c1|] eqn:Hphone;
      try discriminate;
      unfold Store.findByPhone in Hphone; unfold Store.findByEmail in Hknown.
    + injection Hknown as ->.
      apply Hfound in Hphone as [Hin Hp%bool_decide_eq_true].
      split; [done|]. split; [by left|done].
    + pose proof (find_None_all _ _ Hphone) as Hnophone.
      apply Hfound in Hknown as [Hin He%bool_decide_eq_true].
      split; [done|]. split; [|done]. right. split; [done|].
      intros c' Hc'. specialize (Hnophone c' Hc'). simpl in Hnophone.
      by apply bool_decide_eq_false in Hnophone.
    + pose proof (find_None_all _ _ Hphone) as Hnophone.
      pose proof (find_None_all _ _ Hknown) as Hnoemail.
      split.
      { intros c Hc. specialize (Hnophone c Hc). specialize (Hnoemail c Hc).
        simpl in Hnophone, Hnoemail.
        apply bool_decide_eq_false in Hnophone. apply bool_decide_eq_false in Hnoemail.
        done. }
      split; [done|].
      split; [unfold Store.getById; apply JsMapFacts.get_set_eq|].
      intros k Hk. unfold Store.getById. by apply JsMapFacts.get_set_ne.
  - rewrite Hws. destruct (Store.findWithLeastTables (waiters w)) as [waiter|]; [|done].
    split; [done|]. split; [done|].
    unfold Store.assignTable. split.
    + intros stored Hstored. rewrite Hstored.
      case_bool_decide as Hin; simpl.
      * by exists stored.
      * rewrite (update_existing _ _ _ _ stored Hstored). simpl.
        eexists. split; [unfold Store.getById; apply JsMapFacts.get_set_eq|].
        simpl. apply elem_of_app. right. apply list_elem_of_here.
    + intros k Hk.
      destruct (Store.getById (Waiter.id waiter) (waiters w)) as [stored|] eqn:Hstored;
        [|done].
      case_bool_decide; simpl; [done|]. by apply update_other.
Qed.

Lemma createReservation_people_witness :
  exists r,
    data (ReservationService.createReservation sampleZones adaRequest "owner-1" "c-1"
            "r-1" sampleNow seedWorld).1 = Some r
    /\ Reservation.customerId r = "c-1"
    /\ Reservation.waiterId r = Some "waiter-1".
Proof.
  destruct (createReservation_people sampleZones adaRequest "owner-1" "c-1" "r-1"
              sampleNow seedWorld) as (r & tableId & Hdata & _ & Hcustomer & Hwaiter).
  - vm_compute. reflexivity.
  - exists r. split; [exact Hdata|].
    vm_compute in Hcustomer. vm_compute in Hwaiter.
    destruct Hcustomer as (_ & Hc & _). destruct Hwaiter as (Hw & _).
    split; [exact Hc|exact Hw].
Defined.

(** X30. Bookings made through [createReservation] never overlap. From a
    world in which every table is stored under its own identifier and no
    two active reservations of a table overlap, [createReservation],
    [updateReservationStatus], [cancelReservation] and the scheduled table
    release each lead, whatever their arguments and outcome, to a world
    with the same two properties. *)
Theorem booking_invariant_preserved :
  forall (w : World),
    TablesKeyed w -> NoDoubleBooking w ->
    (forall tzdata request lockOwner customerUuid reservationUuid now,
        let w' :=
          (ReservationService.createReservation tzdata request lockOwner customerUuid
             reservationUuid now w).2 in
        NoDoubleBooking w' /\ TablesKeyed w')
    /\ (forall id newStatus expectedVersion now,
          let w' :=
            (ReservationService.updateReservationStatus id newStatus expectedVersion
               now w).2 in
          NoDoubleBooking w' /\ TablesKeyed w')
    /\ (forall id expectedVersion now,
          let w' := (ReservationService.cancelReservation id expectedVersion now w).2 in
          NoDoubleBooking w' /\ TablesKeyed w')
    /\ (forall now,
          NoDoubleBooking (ReservationService.fireTimer now w)
          /\ TablesKeyed (ReservationService.fireTimer now w)).
Proof.
  intros w Hkeyed Hinv. split; [|split; [|split]].
  - intros. by apply createReservation_preserves.
  - intros. by apply updateReservationStatus_preserves.
  - intros. by apply updateReservationStatus_preserves.
  - intros. by apply fireTimer_preserves.
Qed.

Lemma booking_invariant_preserved_witness :
  NoDoubleBooking bookedWorld /\ TablesKeyed bookedWorld.
Proof.
  destruct seedWorld_invariant as [H0 K0].
  destruct (proj1 (booking_invariant_preserved seedWorld K0 H0) sampleZones adaRequest
              "owner-1" "c-1" "r-1" sampleNow) as [H1 K1].
  exact (proj1 (booking_invariant_preserved _ K1 H1) sampleZones bobRequest
           "owner-2" "c-2" "r-2" sampleNow).
Defined.
